(** * REDCap migration toolkit: validator, PHI handler and field mapper

    A shallow embedding of [redcap_migration/validator.py],
    [redcap_migration/security.py] and [redcap_migration/mapper.py], and the
    properties of the three stages.

    Python values are the scalars and the lists a CSV or JSON load puts in a
    record cell, and the code-to-flag mapping a checkbox field becomes; a
    [dict] is an association list in insertion order; a raised exception is
    the [Raise] result.  What the program takes
    from the interpreter and its libraries without the repository defining it
    (rounding to binary64, [eval], pandas' frame construction, numpy's truth
    of an array, Fernet) is the interface [PyRuntime]. *)

From Stdlib Require Import List String Ascii Bool Arith ZArith QArith Lia.
From Stdlib Require Import DecimalString.
Import ListNotations.
Close Scope Q_scope.
Open Scope list_scope.
Open Scope string_scope.

Set Implicit Arguments.

(** ** Results of fallible code *)

(** [ValueErrorOf] is a [ValueError] with the text a handler goes on to
    print; [SystemExit] stands for the exceptions that are no [Exception],
    which an [except Exception] lets through. *)
Inductive exn : Type :=
  | ValueError
  | ValueErrorOf (message : string)
  | TypeError
  | KeyError (key : string)
  | AttributeError
  | OverflowError
  | InvalidToken
  | SystemExit.

Inductive result (A : Type) : Type :=
  | Ok (a : A)
  | Raise (e : exn).
Arguments Ok {A} a.
Arguments Raise {A} e.

Definition rbind {A B} (r : result A) (k : A -> result B) : result B :=
  match r with
  | Ok a => k a
  | Raise e => Raise e
  end.

Declare Scope result_scope.
Delimit Scope result_scope with result.
Notation "x <- c ;; k" := (rbind c (fun x => k))
  (at level 61, c at next level, right associativity) : result_scope.

(** ** Strings *)

Module Str.

(** Characters are bytes: the model covers the ASCII range, where a Python
    [str] and its UTF-8 encoding have the same items. *)

Definition is_digit (c : ascii) : bool :=
  let n := nat_of_ascii c in (48 <=? n)%nat && (n <=? 57)%nat.

Definition is_upper (c : ascii) : bool :=
  let n := nat_of_ascii c in (65 <=? n)%nat && (n <=? 90)%nat.

Definition lower_char (c : ascii) : ascii :=
  if is_upper c then ascii_of_nat (nat_of_ascii c + 32) else c.

Fixpoint lower (s : string) : string :=
  match s with
  | EmptyString => EmptyString
  | String c s' => String (lower_char c) (lower s')
  end.

(** [c in s] for a one-character [c]. *)
Fixpoint mem (c : ascii) (s : string) : bool :=
  match s with
  | EmptyString => false
  | String d s' => Ascii.eqb c d || mem c s'
  end.

Fixpoint filter (p : ascii -> bool) (s : string) : string :=
  match s with
  | EmptyString => EmptyString
  | String c s' => if p c then String c (filter p s') else filter p s'
  end.

Fixpoint forallb (p : ascii -> bool) (s : string) : bool :=
  match s with
  | EmptyString => true
  | String c s' => p c && forallb p s'
  end.

(** ['*' * n] *)
Fixpoint stars (n : nat) : string :=
  match n with
  | O => EmptyString
  | S n' => String "*" (stars n')
  end.

(** [s[0:n]] *)
Fixpoint take (n : nat) (s : string) : string :=
  match n, s with
  | S n', String c s' => String c (take n' s')
  | _, _ => EmptyString
  end.

(** [s[n:]] *)
Fixpoint drop (n : nat) (s : string) : string :=
  match n, s with
  | S n', String _ s' => drop n' s'
  | _, _ => s
  end.

(** [s.replace(old, new)] for a non-empty [old]: every occurrence, from the
    left, none overlapping; [skip] characters of a match are still to pass. *)
Fixpoint replace_from (old new : string) (skip : nat) (s : string) : string :=
  match s with
  | EmptyString => EmptyString
  | String c s' =>
      match skip with
      | S k => replace_from old new k s'
      | O =>
          if String.prefix old s
          then new ++ replace_from old new (String.length old - 1) s'
          else String c (replace_from old new 0 s')
      end
  end.

Definition replace (old new s : string) : string := replace_from old new 0 s.

(** [s[-n:]] for [n > 0]: the whole string when it is shorter than [n]. *)
Definition take_last (n : nat) (s : string) : string :=
  drop (String.length s - n) s.

(** [s.split(c)] for a one-character separator: never empty, one more
    item than there are separators. *)
Fixpoint split (c : ascii) (s : string) : list string :=
  match s with
  | EmptyString => [EmptyString]
  | String d s' =>
      if Ascii.eqb d c then EmptyString :: split c s'
      else match split c s' with
           | [] => [String d EmptyString]
           | p :: ps => String d p :: ps
           end
  end.

(** [sep.join(l)] *)
Fixpoint join (sep : string) (l : list string) : string :=
  match l with
  | [] => EmptyString
  | [x] => x
  | x :: l' => x ++ sep ++ join sep l'
  end.

(** [s.startswith(p)] *)
Definition starts_with (p s : string) : bool := String.prefix p s.

(** [p in s] for strings. *)
Fixpoint contains (p s : string) : bool :=
  String.prefix p s ||
  match s with
  | EmptyString => false
  | String _ s' => contains p s'
  end.

(** White space: what [str.strip] takes off and [\s] matches. *)
Definition is_space (c : ascii) : bool :=
  let n := nat_of_ascii c in
  (n =? 32)%nat || ((9 <=? n)%nat && (n <=? 13)%nat)
  || ((28 <=? n)%nat && (n <=? 31)%nat).

Fixpoint lstrip (s : string) : string :=
  match s with
  | String c s' => if is_space c then lstrip s' else s
  | EmptyString => EmptyString
  end.

Fixpoint rstrip (s : string) : string :=
  match s with
  | EmptyString => EmptyString
  | String c s' =>
      match rstrip s' with
      | EmptyString => if is_space c then EmptyString else String c EmptyString
      | r => String c r
      end
  end.

Definition strip (s : string) : string := rstrip (lstrip s).

Definition of_nat (n : nat) : string := NilZero.string_of_uint (Nat.to_uint n).

Definition of_Z (z : Z) : string := NilZero.string_of_int (Z.to_int z).

End Str.

(** ** Python values *)

(** A float is the number it denotes: the two infinities, the NaNs, or a
    finite double read as a rational.  Producing one from text or from an
    integer rounds, and printing one picks digits; both belong to
    [PyRuntime].  A NaN equals nothing, itself included, but a list, a set
    and a dictionary find an item by [is] before they try [==]; [obj] names
    the object, so that two NaN cells are one object exactly when they carry
    the same name (every [NaN] token of a JSON load is one object). *)
Inductive pyfloat : Type :=
  | FNaN (obj : nat)
  | FInf (negative : bool)
  | FFin (q : Q).

(** A [list] is a JSON array; a [tuple] is not among the values, since
    neither a CSV nor a JSON load makes one. *)
#[warnings="-register-all"]
Inductive pyval : Type :=
  | VNone
  | VBool (b : bool)
  | VInt (z : Z)
  | VFloat (f : pyfloat)
  | VStr (s : string)
  | VDict (d : list (string * string))
  | VList (items : list pyval).

Definition is_list (v : pyval) : bool :=
  match v with
  | VList _ => true
  | _ => false
  end.

(** A [dict] with string keys, in insertion order. *)
Definition pydict : Type := list (string * pyval).

Record date : Type := mkdate { year : Z; month : Z; day : Z }.

(** What a call into a library came to: its value as text, the text of the
    [Exception] it raised, or an exception that is no [Exception]
    ([SystemExit] and the like). *)
Inductive outcome : Type :=
  | Returned (text : string)
  | Failed (message : string)
  | Escaped.

(** The interpreter and the libraries the three modules call. *)
Class PyRuntime : Type := {
  (** [float(s)] on text; [None] is its [ValueError] *)
  float_of_str : string -> option pyfloat;
  (** [float(n)] on an integer; [None] is its [OverflowError] *)
  float_of_int : Z -> option pyfloat;
  (** [str(x)] on a float *)
  float_repr : pyfloat -> string;
  (** [str(d)] on a dictionary of strings *)
  dict_repr : list (string * string) -> string;
  (** the C library's [%Y] (glibc does not pad a year below 1000) *)
  strftime_year : Z -> string;
  (** [datetime.strptime] on a format outside the directives modelled below;
      [None] is any exception it raises *)
  strptime_other : string -> string -> option date;
  (** [str(e)] for the exception [strptime] raises on a format and a text *)
  strptime_message : string -> string -> string;
  (** [str(eval(formula))], as a function of the formula's text: a formula
      is arithmetic over the values put in, and evaluating it touches no
      record *)
  py_eval : string -> outcome;
  (** [pandas.DataFrame(records).iterrows()]: one row per record, with the
      cells pandas makes of the records' values *)
  frame_rows : list pydict -> list pydict;
  (** Fernet under a key, with the entropy of one call *)
  fernet_encrypt : string -> nat -> string -> string;
  (** [None] is [InvalidToken] *)
  fernet_decrypt : string -> string -> option string;
  (** [str(l)] on a list *)
  list_repr : list pyval -> string;
  (** [bool(pandas.isna(l))] on a list: pandas tests a list item by item and
      hands back an array, of which numpy takes the truth; [None] is the
      [ValueError] of numpy *)
  array_truth : list pyval -> option bool;
  (** [str(e)] for that [ValueError] *)
  array_truth_message : list pyval -> string;
  (** [str(e)] for an exception *)
  exception_text : exn -> string;
  (** a year of four digits prints as those digits *)
  strftime_year_digits :
    forall y, (1000 <= y <= 9999)%Z -> strftime_year y = Str.of_Z y;
  (** a token decrypts, under the key that made it, to what was encrypted *)
  fernet_round_trip :
    forall key r text, fernet_decrypt key (fernet_encrypt key r text) = Some text;
  (** numpy refuses the truth of an array of two items or more (items that
      are lists make an array of more dimensions, whose size is another) *)
  array_truth_ambiguous :
    forall x y items,
      existsb is_list (x :: y :: items) = false ->
      array_truth (x :: y :: items) = None;
  (** the text of a [ValueError] is the text it was raised with *)
  exception_text_message :
    forall message, exception_text (ValueErrorOf message) = message
}.

Module Py.

Definition flt (a b : pyfloat) : bool :=
  match a, b with
  | FNaN _, _ => false
  | _, FNaN _ => false
  | FInf true, FInf true => false
  | FInf true, _ => true
  | _, FInf true => false
  | FInf false, _ => false
  | _, FInf false => true
  | FFin x, FFin y => negb (Qle_bool y x)
  end.

Definition feq (a b : pyfloat) : bool :=
  match a, b with
  | FInf s, FInf t => Bool.eqb s t
  | FFin x, FFin y => Qeq_bool x y
  | _, _ => false
  end.

Definition bool_Z (b : bool) : Z := if b then 1%Z else 0%Z.

(** The number a numeric value compares as ([True == 1 == 1.0]). *)
Definition as_number (v : pyval) : option pyfloat :=
  match v with
  | VBool b => Some (FFin (inject_Z (bool_Z b)))
  | VInt z => Some (FFin (inject_Z z))
  | VFloat f => Some f
  | _ => None
  end.

Fixpoint lookup (k : string) (d : list (string * string)) : option string :=
  match d with
  | [] => None
  | (k', v) :: d' => if String.eqb k k' then Some v else lookup k d'
  end.

(** Two dictionaries are equal when they hold the same items, in any
    order. *)
Definition dict_eq (a b : list (string * string)) : bool :=
  (List.length a =? List.length b)%nat
  && List.forallb (fun '(k, v) => match lookup k b with
                                  | Some v' => String.eqb v v'
                                  | None => false
                                  end) a.

(** [a is b], for what the values tell of it: the two are one NaN
    object. *)
Definition same_nan (a b : pyval) : bool :=
  match a, b with
  | VFloat (FNaN i), VFloat (FNaN j) => (i =? j)%nat
  | _, _ => false
  end.

(** [a == b]; two lists are equal when they are as long and each item of
    the one is the other's, or equals it. *)
Fixpoint eq (a b : pyval) : bool :=
  match a, b with
  | VNone, VNone => true
  | VStr s, VStr t => String.eqb s t
  | VDict d, VDict e => dict_eq d e
  | VList l, VList m =>
      (fix items (l m : list pyval) : bool :=
         match l, m with
         | [], [] => true
         | x :: l', y :: m' => (same_nan x y || eq x y) && items l' m'
         | _, _ => false
         end) l m
  | _, _ =>
      match as_number a, as_number b with
      | Some x, Some y => feq x y
      | _, _ => false
      end
  end.

(** [a is b or a == b]: how [in], [list.count], a set and a dictionary
    find an item. *)
Definition same (a b : pyval) : bool := same_nan a b || eq a b.

(** [bool(v)] *)
Definition truthy (v : pyval) : bool :=
  match v with
  | VNone => false
  | VBool b => b
  | VInt z => negb (z =? 0)%Z
  | VFloat (FFin q) => negb (Qeq_bool q 0)
  | VFloat _ => true
  | VStr s => negb (String.eqb s "")
  | VDict d => match d with [] => false | _ => true end
  | VList l => match l with [] => false | _ => true end
  end.

(** Whether [hash(v)] is defined: neither a dictionary nor a list is a key
    or a member of a set. *)
Definition hashable (v : pyval) : bool :=
  match v with
  | VDict _ | VList _ => false
  | _ => true
  end.

(** [pandas.isna] on a scalar, and on a dictionary, which it takes for
    one. *)
Definition isna (v : pyval) : bool :=
  match v with
  | VNone => true
  | VFloat (FNaN _) => true
  | _ => false
  end.

(** CPython, from 3.11, prints no integer of more than 4300 digits: [str]
    and an f-string raise [ValueError] on one.  [printable] tells the values
    they print. *)
Fixpoint printable (v : pyval) : bool :=
  match v with
  | VInt z => (Z.of_nat (String.length (Str.of_Z (Z.abs z))) <=? 4300)%Z
  | VList l => List.forallb printable l
  | _ => true
  end.

Section WithRuntime.
Context {RT : PyRuntime}.

(** [str(v)], and [{v}] in an f-string, of a value they print (see
    [printable]). *)
Definition str (v : pyval) : string :=
  match v with
  | VNone => "None"
  | VBool true => "True"
  | VBool false => "False"
  | VInt z => Str.of_Z z
  | VFloat f => float_repr f
  | VStr s => s
  | VDict d => dict_repr d
  | VList l => list_repr l
  end.

(** [float(v)] *)
Definition float (v : pyval) : result pyfloat :=
  match v with
  | VNone => Raise TypeError
  | VBool b => Ok (FFin (inject_Z (bool_Z b)))
  | VInt z =>
      match float_of_int z with
      | Some f => Ok f
      | None => Raise OverflowError
      end
  | VFloat f => Ok f
  | VStr s =>
      match float_of_str s with
      | Some f => Ok f
      | None => Raise ValueError
      end
  | VDict _ | VList _ => Raise TypeError
  end.

(** [bool(pandas.isna(v))], as an [if] or an [or] takes it. *)
Definition isna_truth (v : pyval) : result bool :=
  match v with
  | VList items =>
      match array_truth items with
      | Some b => Ok b
      | None => Raise (ValueErrorOf (array_truth_message items))
      end
  | _ => Ok (isna v)
  end.
End WithRuntime.

(** *** Dictionaries *)

Fixpoint get {V} (k : string) (d : list (string * V)) : option V :=
  match d with
  | [] => None
  | (k', v) :: d' => if String.eqb k k' then Some v else get k d'
  end.

(** [k in d] *)
Definition has {V} (k : string) (d : list (string * V)) : bool :=
  match get k d with Some _ => true | None => false end.

(** [d.get(k, default)] *)
Definition get_default {V} (k : string) (default : V) (d : list (string * V)) : V :=
  match get k d with Some v => v | None => default end.

(** [d[k]] when reading *)
Definition index {V} (k : string) (d : list (string * V)) : result V :=
  match get k d with Some v => Ok v | None => Raise (KeyError k) end.

(** [d[k] = v]: a present key keeps its place, a new one goes last. *)
Fixpoint set {V} (k : string) (v : V) (d : list (string * V)) : list (string * V) :=
  match d with
  | [] => [(k, v)]
  | (k', v') :: d' =>
      if String.eqb k k' then (k', v) :: d' else (k', v') :: set k v d'
  end.

Definition keys {V} (d : list (string * V)) : list string := map fst d.

(** [k in l] for a list of strings. *)
Definition mem (k : string) (l : list string) : bool :=
  existsb (String.eqb k) l.

(** *** [datetime.strptime] and [strftime]

    CPython turns the format into a regular expression, one group per
    directive, matched ignoring case from the start of the text; the first
    match in the expression's priority order is taken, and text left over,
    or a day the month does not have, is a [ValueError]. *)

Inductive directive : Type :=
  | DY            (** [%Y]: four digits *)
  | Dm            (** [%m]: [1[0-2]|0[1-9]|[1-9]] *)
  | Dd            (** [%d]: [3[0-1]|[1-2]\d|0[1-9]|[1-9]| [1-9]] *)
  | Db            (** [%b]: an abbreviated month name of the C locale *)
  | DLit (c : ascii).

Definition directive_eqb (a b : directive) : bool :=
  match a, b with
  | DY, DY | Dm, Dm | Dd, Dd | Db, Db => true
  | _, _ => false
  end.

(** The formats the model reads: the four directives, each at most once,
    between characters that stand for themselves in the expression. *)
Fixpoint compile (seen : list directive) (fmt : string) : option (list directive) :=
  match fmt with
  | EmptyString => Some []
  | String "%" (String c fmt') =>
      let d := if Ascii.eqb c "Y" then Some DY
               else if Ascii.eqb c "m" then Some Dm
               else if Ascii.eqb c "d" then Some Dd
               else if Ascii.eqb c "b" then Some Db
               else None in
      match d with
      | Some d =>
          if existsb (directive_eqb d) seen then None
          else option_map (cons d) (compile (d :: seen) fmt')
      | None => None
      end
  | String c fmt' =>
      if Ascii.eqb c "%" || Str.is_space c then None
      else option_map (cons (DLit c)) (compile seen fmt')
  end.

Definition digit_val (c : ascii) : Z :=
  if Str.is_digit c then Z.of_nat (nat_of_ascii c - 48) else 0%Z.

Definition between (lo hi : ascii) (c : ascii) : bool :=
  (nat_of_ascii lo <=? nat_of_ascii c)%nat && (nat_of_ascii c <=? nat_of_ascii hi)%nat.

(** Two characters [p1 p2], read as a two-digit number. *)
Definition two (p1 p2 : ascii -> bool) (s : string) : list (Z * string) :=
  match s with
  | String a (String b r) =>
      if p1 a && p2 b then [(10 * digit_val a + digit_val b, r)%Z] else []
  | _ => []
  end.

Definition one (p : ascii -> bool) (s : string) : list (Z * string) :=
  match s with
  | String a r => if p a then [(digit_val a, r)] else []
  | _ => []
  end.

Definition month_names : list string :=
  ["jan"; "feb"; "mar"; "apr"; "may"; "jun";
   "jul"; "aug"; "sep"; "oct"; "nov"; "dec"].

Fixpoint month_named (names : list string) (i : Z) (s : string) : list (Z * string) :=
  match names with
  | [] => []
  | n :: names' =>
      (if String.eqb (Str.lower (Str.take 3 s)) n && (String.length (Str.take 3 s) =? 3)%nat
       then [(i, Str.drop 3 s)] else [])
      ++ month_named names' (i + 1)%Z s
  end.

Record fields : Type := mkfields { fY : option Z; fm : option Z; fd : option Z }.

(** The ways one directive matches a prefix of [s], best first. *)
Definition match_directive (d : directive) (f : fields) (s : string) : list (fields * string) :=
  match d with
  | DY =>
      match s with
      | String a (String b (String c (String e r))) =>
          if Str.is_digit a && Str.is_digit b && Str.is_digit c && Str.is_digit e
          then [(mkfields (Some (1000 * digit_val a + 100 * digit_val b
                                 + 10 * digit_val c + digit_val e)%Z) (fm f) (fd f), r)]
          else []
      | _ => []
      end
  | Dm =>
      map (fun '(v, r) => (mkfields (fY f) (Some v) (fd f), r))
          (two (Ascii.eqb "1") (between "0" "2") s
           ++ two (Ascii.eqb "0") (between "1" "9") s
           ++ one (between "1" "9") s)
  | Dd =>
      map (fun '(v, r) => (mkfields (fY f) (fm f) (Some v), r))
          (two (Ascii.eqb "3") (between "0" "1") s
           ++ two (between "1" "2") Str.is_digit s
           ++ two (Ascii.eqb "0") (between "1" "9") s
           ++ one (between "1" "9") s
           ++ two (Ascii.eqb " ") (between "1" "9") s)
  | Db =>
      map (fun '(v, r) => (mkfields (fY f) (Some v) (fd f), r))
          (month_named month_names 1%Z s)
  | DLit c =>
      match s with
      | String a r =>
          if Ascii.eqb (Str.lower_char a) (Str.lower_char c) then [(f, r)] else []
      | EmptyString => []
      end
  end.

Fixpoint match_directives (ds : list directive) (f : fields) (s : string)
  : list (fields * string) :=
  match ds with
  | [] => [(f, s)]
  | d :: ds' =>
      flat_map (fun '(f', s') => match_directives ds' f' s') (match_directive d f s)
  end.

Definition is_leap (y : Z) : bool :=
  ((y mod 4 =? 0) && (negb (y mod 100 =? 0) || (y mod 400 =? 0)))%Z.

Definition days_in_month (y m : Z) : Z :=
  if (m =? 2)%Z then (if is_leap y then 29 else 28)%Z
  else if ((m =? 4) || (m =? 6) || (m =? 9) || (m =? 11))%Z then 30%Z
  else 31%Z.

(** [datetime(y, m, d)]: [None] is its [ValueError]. *)
Definition make_date (f : fields) : option date :=
  let y := match fY f with Some y => y | None => 1900%Z end in
  let m := match fm f with Some m => m | None => 1%Z end in
  let d := match fd f with Some d => d | None => 1%Z end in
  if ((1 <=? y) && (y <=? 9999) && (1 <=? m) && (m <=? 12)
      && (1 <=? d) && (d <=? days_in_month y m))%Z
  then Some (mkdate y m d) else None.

Definition strptime_directives (ds : list directive) (s : string) : option date :=
  match match_directives ds (mkfields None None None) s with
  | (f, EmptyString) :: _ => make_date f
  | _ => None
  end.

Definition date_lt (a b : date) : bool :=
  ((year a <? year b)
   || ((year a =? year b) && ((month a <? month b)
       || ((month a =? month b) && (day a <? day b)))))%Z.

Definition pad2 (z : Z) : string :=
  if (z <? 10)%Z then "0" ++ Str.of_Z z else Str.of_Z z.

Section WithRuntime.
Context {RT : PyRuntime}.

(** [datetime.strptime(s, fmt)] on text; [None] is the exception. *)
Definition strptime_str (s fmt : string) : option date :=
  match compile [] fmt with
  | Some ds => strptime_directives ds s
  | None => strptime_other fmt s
  end.

(** [datetime.strptime(v, fmt)]: anything but text is a [TypeError]. *)
Definition strptime (v : pyval) (fmt : string) : result date :=
  match v with
  | VStr s =>
      match strptime_str s fmt with
      | Some d => Ok d
      | None => Raise ValueError
      end
  | _ => Raise TypeError
  end.

(** [dt.strftime('%Y-%m-%d')] *)
Definition strftime_ymd (d : date) : string :=
  strftime_year (year d) ++ "-" ++ pad2 (month d) ++ "-" ++ pad2 (day d).
End WithRuntime.

End Py.

(** ** Loops that may raise *)

Fixpoint for_each {A St} (body : A -> St -> result St) (l : list A) (s : St)
    : result St :=
  match l with
  | [] => Ok s
  | x :: l' => rbind (body x s) (fun s' => for_each body l' s')
  end.

(** [for i, x in enumerate(l)], counting from [i]. *)
Fixpoint for_enumerate {A St} (body : nat -> A -> St -> result St)
    (i : nat) (l : list A) (s : St) : result St :=
  match l with
  | [] => Ok s
  | x :: l' => rbind (body i x s) (fun s' => for_enumerate body (Datatypes.S i) l' s')
  end.

(** [set(l)] as the list of its members, each once.  Python leaves the order
    in which a set is walked open; the first occurrences, in order, stand for
    it, and the statements below do not depend on the choice. *)
Fixpoint dedup_from {A} (eqb : A -> A -> bool) (seen l : list A) : list A :=
  match l with
  | [] => []
  | x :: l' =>
      if existsb (eqb x) seen then dedup_from eqb seen l'
      else x :: dedup_from eqb (x :: seen) l'
  end.

Definition dedup {A} (eqb : A -> A -> bool) (l : list A) : list A :=
  dedup_from eqb [] l.

(** [l.count(x)] *)
Definition count {A} (eqb : A -> A -> bool) (x : A) (l : list A) : nat :=
  List.length (List.filter (eqb x) l).

(** ** validator.py *)

Module Validator.

(** One entry of [results["record_issues"]]. *)
Record issues : Type := mkissues {
  issue_errors : list string;
  issue_warnings : list string
}.

Record stats_t : Type := mkstats {
  total_records : nat;
  records_with_issues : nat;
  total_errors : nat;
  total_warnings : nat
}.

(** The [results] dictionary of [validate]; [record_issues] is keyed by the
    record identifier, a Python value, in insertion order. *)
Record results : Type := mkresults {
  is_valid : bool;
  errors : list string;
  warnings : list string;
  record_issues : list (pyval * issues);
  stats : stats_t
}.

(** What [validate] returns: the two-key dictionary of the early return, or
    the five-key [results]. *)
Inductive verdict : Type :=
  | NoData (is_valid : bool) (errors : list string)
  | Full (r : results).

(** [self.validation_rules]: a category that is absent reads as empty, which
    is how each check reads it ([.get(..., [])], [.get(..., {})]). *)
Record validation_rules : Type := mkrules {
  required_fields : list string;
  field_formats : list (string * pyval);
  date_range : list (string * pydict);
  numeric_range : list (string * pydict)
}.

Inductive issue_type : Type := Errors | Warnings.

Definition append_issue (t : issue_type) (message : string) (i : issues) : issues :=
  match t with
  | Errors => mkissues (issue_errors i ++ [message]) (issue_warnings i)
  | Warnings => mkissues (issue_errors i) (issue_warnings i ++ [message])
  end.

(** The entry of an identifier is found as a dictionary finds a key: the
    same object, or an equal one. *)
Fixpoint add_issue_entry (record_id : pyval) (t : issue_type) (message : string)
    (d : list (pyval * issues)) : list (pyval * issues) :=
  match d with
  | [] => [(record_id, append_issue t message (mkissues [] []))]
  | (k, i) :: d' =>
      if Py.same record_id k then (k, append_issue t message i) :: d'
      else (k, i) :: add_issue_entry record_id t message d'
  end.

Definition with_record_issues (res : results) (d : list (pyval * issues)) : results :=
  mkresults (is_valid res) (errors res) (warnings res) d (stats res).

Definition with_errors (res : results) (e : list string) : results :=
  mkresults (is_valid res) e (warnings res) (record_issues res) (stats res).

(** [record_id not in results["record_issues"]] hashes the identifier. *)
Definition _add_record_issue (res : results) (record_id : pyval) (t : issue_type)
    (message : string) : result results :=
  if Py.hashable record_id
  then Ok (with_record_issues res (add_issue_entry record_id t message (record_issues res)))
  else Raise TypeError.

(** [record.get("record_id", f"Record_{i}")] *)
Definition record_id_of (i : nat) (record : pydict) : pyval :=
  Py.get_default "record_id" (VStr ("Record_" ++ Str.of_nat i)) record.

(** [field in record and record[field]] *)
Definition present (field : string) (record : pydict) : bool :=
  match Py.get field record with
  | Some v => Py.truthy v
  | None => false
  end.

(** [s.isdigit()] *)
Definition isdigit (s : string) : bool :=
  negb (String.eqb s "") && Str.forallb Str.is_digit s.

(** The items of a list, when each of them is text. *)
Fixpoint texts (l : list pyval) : option (list string) :=
  match l with
  | [] => Some []
  | VStr s :: l' => option_map (cons s) (texts l')
  | _ :: _ => None
  end.

Section WithRuntime.
Context {RT : PyRuntime}.

Definition check_required (required : list string) (i : nat) (record : pydict)
    (res : results) : result results :=
  let record_id := record_id_of i record in
  let missing_fields := List.filter (fun field => negb (present field record)) required in
  match missing_fields with
  | [] => Ok res
  | _ => _add_record_issue res record_id Errors
           ("Missing required fields: " ++ Str.join ", " missing_fields)
  end.

Definition _check_required_fields (rules : validation_rules) (data : list pydict)
    (res : results) : result results :=
  match required_fields rules with
  | [] => Ok res
  | required => for_enumerate (check_required required) 0 data res
  end.

Definition _is_valid_date (date_str : pyval) : result bool :=
  match Py.strptime date_str "%Y-%m-%d" with
  | Ok _ => Ok true
  | Raise ValueError | Raise (ValueErrorOf _) => Ok false
  | Raise e => Raise e
  end.

(** ['@' in email and '.' in email.split('@')[1]]: on text a search, on a
    dictionary a look at its keys and on a list at its items (and then no
    [split]), on a scalar a [TypeError]. *)
Definition _is_valid_email (email : pyval) : result bool :=
  match email with
  | VStr s => Ok (Str.mem "@" s && Str.mem "." (nth 1 (Str.split "@" s) ""))
  | VDict d => if Py.has "@" d then Raise AttributeError else Ok false
  | VList l => if existsb (Py.same (VStr "@")) l then Raise AttributeError else Ok false
  | _ => Raise TypeError
  end.

(** [len(''.join(c for c in phone if c.isdigit())) >= 10]: the items of text
    are its characters, those of a dictionary its keys; an item of a list
    that is no text has no [isdigit]. *)
Definition _is_valid_phone (phone : pyval) : result bool :=
  match phone with
  | VStr s => Ok (10 <=? String.length (Str.filter Str.is_digit s))%nat
  | VDict d =>
      Ok (10 <=? String.length (String.concat "" (List.filter isdigit (Py.keys d))))%nat
  | VList l =>
      match texts l with
      | Some items =>
          Ok (10 <=? String.length (String.concat "" (List.filter isdigit items)))%nat
      | None => Raise AttributeError
      end
  | _ => Raise TypeError
  end.

(** [rule == kind and not check(value)] *)
Definition fails (format_rule : pyval) (kind : string)
    (check : pyval -> result bool) (value : pyval) : result bool :=
  if Py.eq format_rule (VStr kind)
  then rbind (check value) (fun ok => Ok (negb ok))
  else Ok false.

Definition check_format (record : pydict) (record_id : pyval)
    (rule : string * pyval) (res : results) : result results :=
  let '(field, format_rule) := rule in
  match Py.get field record with
  | Some value =>
      if Py.truthy value then
        (bad <- fails format_rule "date" _is_valid_date value ;;
         if bad then
           _add_record_issue res record_id Errors
             ("Invalid date format in field '" ++ field ++ "': " ++ Py.str value)
         else
         bad <- fails format_rule "email" _is_valid_email value ;;
         if bad then
           _add_record_issue res record_id Errors
             ("Invalid email format in field '" ++ field ++ "': " ++ Py.str value)
         else
         bad <- fails format_rule "phone" _is_valid_phone value ;;
         if bad then
           _add_record_issue res record_id Errors
             ("Invalid phone format in field '" ++ field ++ "': " ++ Py.str value)
         else Ok res)%result
      else Ok res
  | None => Ok res
  end.

Definition _check_field_formats (rules : validation_rules) (data : list pydict)
    (res : results) : result results :=
  match field_formats rules with
  | [] => Ok res
  | format_rules =>
      for_enumerate
        (fun i record res =>
           for_each (check_format record (record_id_of i record)) format_rules res)
        0 data res
  end.

(** [except ValueError: handler] around an attempt. *)
Definition except_ValueError {A} (attempt : result A) (handler : result A) : result A :=
  match attempt with
  | Raise ValueError | Raise (ValueErrorOf _) => handler
  | r => r
  end.

Definition check_date_range (record : pydict) (record_id : pyval)
    (rule : string * pydict) (res : results) : result results :=
  let '(field, range_rule) := rule in
  match Py.get field record with
  | Some value =>
      if Py.truthy value then
        except_ValueError
          (date_value <- Py.strptime value "%Y-%m-%d" ;;
           min_date <- Py.strptime
             (Py.get_default "min" (VStr "1900-01-01") range_rule) "%Y-%m-%d" ;;
           max_date <- Py.strptime
             (Py.get_default "max" (VStr "2100-12-31") range_rule) "%Y-%m-%d" ;;
           if Py.date_lt date_value min_date then
             bound <- Py.index "min" range_rule ;;
             _add_record_issue res record_id Errors
               ("Date in field '" ++ field ++ "' is before minimum allowed: "
                ++ Py.str value ++ " < " ++ Py.str bound)
           else if Py.date_lt max_date date_value then
             bound <- Py.index "max" range_rule ;;
             _add_record_issue res record_id Errors
               ("Date in field '" ++ field ++ "' is after maximum allowed: "
                ++ Py.str value ++ " > " ++ Py.str bound)
           else Ok res)%result
          (_add_record_issue res record_id Errors
             ("Could not parse date in field '" ++ field ++ "': " ++ Py.str value))
      else Ok res
  | None => Ok res
  end.

Definition _check_date_ranges (rules : validation_rules) (data : list pydict)
    (res : results) : result results :=
  match date_range rules with
  | [] => Ok res
  | date_ranges =>
      for_enumerate
        (fun i record res =>
           for_each (check_date_range record (record_id_of i record)) date_ranges res)
        0 data res
  end.

Definition check_numeric_range (record : pydict) (record_id : pyval)
    (rule : string * pydict) (res : results) : result results :=
  let '(field, range_rule) := rule in
  match Py.get field record with
  | Some raw =>
      if Py.truthy raw then
        except_ValueError
          (value <- Py.float raw ;;
           min_val <- Py.float (Py.get_default "min" (VFloat (FInf true)) range_rule) ;;
           max_val <- Py.float (Py.get_default "max" (VFloat (FInf false)) range_rule) ;;
           if Py.flt value min_val then
             _add_record_issue res record_id Errors
               ("Value in field '" ++ field ++ "' is below minimum: "
                ++ float_repr value ++ " < " ++ float_repr min_val)
           else if Py.flt max_val value then
             _add_record_issue res record_id Errors
               ("Value in field '" ++ field ++ "' is above maximum: "
                ++ float_repr value ++ " > " ++ float_repr max_val)
           else Ok res)%result
          (_add_record_issue res record_id Errors
             ("Could not parse numeric value in field '" ++ field ++ "': "
              ++ Py.str raw))
      else Ok res
  | None => Ok res
  end.

Definition _check_numeric_ranges (rules : validation_rules) (data : list pydict)
    (res : results) : result results :=
  match numeric_range rules with
  | [] => Ok res
  | numeric_ranges =>
      for_enumerate
        (fun i record res =>
           for_each (check_numeric_range record (record_id_of i record))
                    numeric_ranges res)
        0 data res
  end.

(** [[r.get("record_id") for r in data if "record_id" in r]] *)
Definition record_ids (data : list pydict) : list pyval :=
  flat_map (fun r => match Py.get "record_id" r with
                     | Some v => [v]
                     | None => []
                     end) data.

(** [[rid for rid in record_ids if record_ids.count(rid) > 1]]: [count]
    takes an item that is the same object, or an equal one. *)
Definition repeated_ids (data : list pydict) : list pyval :=
  let ids := record_ids data in
  List.filter (fun rid => (1 <? count Py.same rid ids)%nat) ids.

(** [set(...)] of them: every member is hashed, and found again as the same
    object or an equal one. *)
Definition duplicate_ids (data : list pydict) : result (list pyval) :=
  let repeated := repeated_ids data in
  if List.forallb Py.hashable repeated then Ok (dedup Py.same repeated)
  else Raise TypeError.

Definition duplicate_message (dup_id : pyval) : string :=
  "Duplicate record ID found: " ++ Py.str dup_id.

(** The union of the records' keys. *)
Definition all_fields (data : list pydict) : list string :=
  dedup String.eqb (flat_map (@Py.keys pyval) data).

(** [all_fields - set(record.keys())], without ["record_id"]. *)
Definition missing_fields (all : list string) (record : pydict) : list string :=
  List.filter (fun f => negb (String.eqb f "record_id"))
    (List.filter (fun f => negb (Py.mem f (Py.keys record))) all).

Definition missing_message (missing : list string) : string :=
  "Fields present in other records but missing in this one: "
  ++ Str.join ", " missing.

Definition check_presence (all : list string) (i : nat) (record : pydict)
    (res : results) : result results :=
  let record_id := record_id_of i record in
  match missing_fields all record with
  | [] => Ok res
  | missing => _add_record_issue res record_id Warnings (missing_message missing)
  end.

Definition _check_data_consistency (data : list pydict) (res : results)
    : result results :=
  (dups <- duplicate_ids data ;;
   let res := fold_left (fun res dup_id =>
                           with_errors res (errors res ++ [duplicate_message dup_id]))
                        dups res in
   for_enumerate (check_presence (all_fields data)) 0 data res)%result.

Definition sum (l : list nat) : nat := fold_right Nat.add 0%nat l.

(** [len(results["errors"]) + sum(len(issues.get("errors", [])) ...)] *)
Definition count_errors (errs : list string) (d : list (pyval * issues)) : nat :=
  (List.length errs + sum (map (fun e => List.length (issue_errors (snd e))) d))%nat.

Definition count_warnings (warns : list string) (d : list (pyval * issues)) : nat :=
  (List.length warns + sum (map (fun e => List.length (issue_warnings (snd e))) d))%nat.

Definition validate (rules : validation_rules) (data : list pydict) : result verdict :=
  match data with
  | [] => Ok (NoData false ["No data provided for validation"])
  | _ =>
      let res := mkresults true [] [] [] (mkstats (List.length data) 0 0 0) in
      (res <- _check_required_fields rules data res ;;
       res <- _check_field_formats rules data res ;;
       res <- _check_date_ranges rules data res ;;
       res <- _check_numeric_ranges rules data res ;;
       res <- _check_data_consistency data res ;;
       let st := mkstats (total_records (stats res))
                         (List.length (record_issues res))
                         (count_errors (errors res) (record_issues res))
                         (count_warnings (warnings res) (record_issues res)) in
       Ok (Full (mkresults (total_errors st =? 0)%nat (errors res) (warnings res)
                           (record_issues res) st)))%result
  end.

End WithRuntime.

(** The keys of the returned dictionary. *)
Definition verdict_keys (v : verdict) : list string :=
  match v with
  | NoData _ _ => ["is_valid"; "errors"]
  | Full _ => ["is_valid"; "errors"; "warnings"; "record_issues"; "stats"]
  end.

Definition verdict_is_valid (v : verdict) : bool :=
  match v with
  | NoData b _ => b
  | Full r => is_valid r
  end.

Definition verdict_errors (v : verdict) : list string :=
  match v with
  | NoData _ e => e
  | Full r => errors r
  end.

(** [verdict.get("warnings", [])] *)
Definition verdict_warnings (v : verdict) : list string :=
  match v with
  | NoData _ _ => []
  | Full r => warnings r
  end.

(** [verdict.get("record_issues", {})] *)
Definition verdict_record_issues (v : verdict) : list (pyval * issues) :=
  match v with
  | NoData _ _ => []
  | Full r => record_issues r
  end.

(** The sum of the per-record error-list lengths of a verdict. *)
Definition record_error_count (v : verdict) : nat :=
  sum (map (fun e => List.length (issue_errors (snd e))) (verdict_record_issues v)).

End Validator.

(** ** The object store and the log

    Records are objects: a stage is handed references to them and may write
    through a reference.  The store holds every dictionary by address, in
    order of creation; the log collects what the modules send to [logger];
    [entropy] numbers the calls that draw randomness. *)

Inductive level : Type := Debug | Info | Warning | Error.

Record world : Type := mkworld {
  heap : list pydict;
  log : list (level * string);
  entropy : nat
}.

Definition M (A : Type) : Type := world -> result A * world.

Definition ret {A} (a : A) : M A := fun w => (Ok a, w).

Definition bind {A B} (m : M A) (k : A -> M B) : M B :=
  fun w => match m w with
           | (Ok a, w') => k a w'
           | (Raise e, w') => (Raise e, w')
           end.

Definition raise {A} (e : exn) : M A := fun w => (Raise e, w).

(** A computation that touches neither the store nor the log. *)
Definition lift {A} (r : result A) : M A := fun w => (r, w).

Definition is_exception (e : exn) : bool :=
  match e with
  | SystemExit => false
  | _ => true
  end.

(** [try: attempt] with [except Exception as e: handler]. *)
Definition try_except {A} (attempt : M A) (handler : exn -> M A) : M A :=
  fun w => match attempt w with
           | (Raise e, w') => if is_exception e then handler e w' else (Raise e, w')
           | (Ok a, w') => (Ok a, w')
           end.

Declare Scope monad_scope.
Delimit Scope monad_scope with monad.
Notation "x <- c ;; k" := (bind c (fun x => k))
  (at level 61, c at next level, right associativity) : monad_scope.
Notation "c ;;; k" := (bind c (fun _ => k))
  (at level 61, right associativity) : monad_scope.

(** [{...}] or [d.copy()]: a new object, after all the others. *)
Definition alloc (d : pydict) : M nat :=
  fun w => (Ok (List.length (heap w)), mkworld (heap w ++ [d]) (log w) (entropy w)).

(** The dictionary behind a reference (references come from the store, so
    the default is never read). *)
Definition deref (h : list pydict) (a : nat) : pydict := nth a h [].

Definition read (a : nat) : M pydict := fun w => (Ok (deref (heap w) a), w).

(** The dictionaries behind a list of references, as they are now. *)
Definition read_all (l : list nat) : M (list pydict) :=
  fun w => (Ok (map (deref (heap w)) l), w).

Fixpoint update {A} (a : nat) (f : A -> A) (h : list A) {struct h} : list A :=
  match h, a with
  | [], _ => []
  | d :: h', O => f d :: h'
  | d :: h', S a' => d :: update a' f h'
  end.

(** [obj[k] = v] through the reference [a]. *)
Definition write (a : nat) (k : string) (v : pyval) : M unit :=
  fun w => (Ok tt, mkworld (update a (Py.set k v) (heap w)) (log w) (entropy w)).

Definition logger (l : level) (message : string) : M unit :=
  fun w => (Ok tt, mkworld (heap w) (log w ++ [(l, message)]) (entropy w)).

(** The randomness of one call. *)
Definition draw : M nat :=
  fun w => (Ok (entropy w), mkworld (heap w) (log w) (S (entropy w))).

Fixpoint for_each_M {A} (body : A -> M unit) (l : list A) : M unit :=
  match l with
  | [] => ret tt
  | x :: l' => bind (body x) (fun _ => for_each_M body l')
  end.

(** A loop that appends to a list: the list it has built. *)
Fixpoint collect_M {A B} (body : A -> M (list B)) (l : list A) : M (list B) :=
  match l with
  | [] => ret []
  | x :: l' => bind (body x) (fun ys => bind (collect_M body l') (fun zs => ret (ys ++ zs)%list))
  end.

(** ** security.py *)

Module Security.

Record SecurityHandler : Type := mkhandler {
  secure_mode : bool;
  phi_fields : list string;
  (** the key of [self.cipher], when there is one *)
  cipher : option string
}.

(** [SecurityHandler(secure_mode, phi_fields)]; [key] is what
    [Fernet.generate_key()] returned. *)
Definition __init__ (secure_mode : bool) (phi_fields : option (list string))
    (key : string) : SecurityHandler :=
  mkhandler secure_mode
            (match phi_fields with Some l => l | None => [] end)
            (if secure_mode then Some key else None).

Definition newline : string := String (ascii_of_nat 10) EmptyString.

(** The class [[0-9-()]]. *)
Definition phone_char (c : ascii) : bool :=
  Str.is_digit c || Ascii.eqb c "-" || Ascii.eqb c "(" || Ascii.eqb c ")".

Fixpoint drop_while (p : ascii -> bool) (s : string) : string :=
  match s with
  | String c s' => if p c then drop_while p s' else s
  | EmptyString => EmptyString
  end.

(** [re.match(r'^[0-9-()]+$', value)]: one or more characters of the class,
    up to the end or to a newline that ends the text. *)
Definition matches_phone (value : string) : bool :=
  match value with
  | String c _ =>
      phone_char c
      && (let rest := drop_while phone_char value in
          String.eqb rest "" || String.eqb rest newline)
  | EmptyString => false
  end.

Definition _redact_phi (value : string) : string :=
  if String.eqb value "" then value
  else if Str.mem "@" value && Str.mem "." (nth 1 (Str.split "@" value) "") then
    let parts := Str.split "@" value in
    let local := nth 0 parts "" in
    let username :=
      if (2 <? String.length local)%nat
      then Str.take 1 local ++ Str.stars (String.length local - 2) ++ Str.take_last 1 local
      else Str.stars (String.length local) in
    let domain := nth 1 parts "" in
    username ++ "@" ++ domain
  else if matches_phone value then
    let clean_digits := Str.filter Str.is_digit value in
    if (4 <? String.length clean_digits)%nat
    then Str.take 2 clean_digits ++ Str.stars (String.length clean_digits - 4)
         ++ Str.take_last 2 clean_digits
    else Str.stars (String.length clean_digits)
  else if (6 <? String.length value)%nat then
    Str.take 2 value ++ Str.stars (String.length value - 4) ++ Str.take_last 2 value
  else Str.stars (String.length value).

(** [phi_field_patterns]: each is [(?i)(a|b|...)], so a name matches when it
    holds one of the words, in any case. *)
Definition phi_field_patterns : list (list string) :=
  [ ["name"; "first"; "last"; "middle"; "initial"; "full"];
    ["ssn"; "social"; "security"];
    ["dob"; "birth"; "birthday"];
    ["address"; "street"; "city"; "state"; "zip"; "postal"];
    ["email"; "e-mail"];
    ["phone"; "cell"; "mobile"; "fax"];
    ["mrn"; "medical"; "record"; "patient"; "id"];
    ["license"; "driver"] ].

(** [re.search(pattern, field)] *)
Definition re_search (pattern : list string) (field : string) : bool :=
  existsb (fun word => Str.contains word (Str.lower field)) pattern.

Definition is_phi_name (field : string) : bool :=
  existsb (fun pattern => re_search pattern field) phi_field_patterns.

Section WithRuntime.
Context {RT : PyRuntime}.

Definition _detect_phi_fields (data : list nat) : M (list string) :=
  match data with
  | [] => ret []
  | sample :: _ =>
      (sample_record <- read sample ;;
       ret (List.filter is_phi_name (Py.keys sample_record)))%monad
  end.

(** The body of [for field in self.phi_fields], on the copy at [a]. *)
Definition secure_field (self : SecurityHandler) (a : nat) (field : string) : M unit :=
  (secured_record <- read a ;;
   match Py.get field secured_record with
   | Some v =>
       if Py.truthy v then
         match cipher self with
         | Some key =>
             let original_value := Py.str v in
             r <- draw ;;
             let encrypted_value := fernet_encrypt key r original_value in
             write a (field ++ "_encrypted") (VStr encrypted_value) ;;;
             write a field (VStr (_redact_phi original_value))
         | None => write a field (VStr (_redact_phi (Py.str v)))
         end
       else ret tt
   | None => ret tt
   end)%monad.

(** The body of [for record in data]. *)
Definition secure_record (self : SecurityHandler) (record : nat) : M (list nat) :=
  (d <- read record ;;
   secured_record <- alloc d ;;
   for_each_M (secure_field self secured_record) (phi_fields self) ;;;
   ret [secured_record])%monad.

(** Returns the handler as the call leaves it, and [secured_data]. *)
Definition _secure_phi_data (self : SecurityHandler) (data : list nat)
    : M (SecurityHandler * list nat) :=
  (self <- match phi_fields self with
           | [] =>
               detected <- _detect_phi_fields data ;;
               logger Info ("Automatically detected potential PHI fields: "
                            ++ Str.join ", " detected) ;;;
               ret (mkhandler (secure_mode self) detected (cipher self))
           | _ => ret self
           end ;;
   secured_data <- collect_M (secure_record self) data ;;
   logger Info ("Applied security measures to "
                ++ Str.of_nat (List.length (phi_fields self)) ++ " PHI fields") ;;;
   ret (self, secured_data))%monad.

Definition decrypt_field (self : SecurityHandler) (encrypted_value : string) : M string :=
  match cipher self with
  | None => raise ValueError
  | Some key =>
      match fernet_decrypt key encrypted_value with
      | Some s => ret s
      | None =>
          (logger Error "Error decrypting value: " ;;; raise InvalidToken)%monad
      end
  end.

End WithRuntime.

End Security.

(** ** mapper.py *)

Module Mapper.

(** One entry of [mapping['fields']]; [field_type] is ["text"] when the entry
    names none, [options] empty when it has none. *)
Record field_map : Type := mkfield {
  source_field : string;
  target_field : string;
  field_type : string;
  date_format : option string;
  options : list (string * pyval);
  formula : option string
}.

(** [self.mapping] *)
Record mapping_t : Type := mkmapping {
  fields : list field_map;
  source_type : string;
  record_id_field : string
}.

(** [for fmt in ['%Y-%m-%d', '%m/%d/%Y', '%d-%b-%Y']] *)
Definition date_formats : list string := ["%Y-%m-%d"; "%m/%d/%Y"; "%d-%b-%Y"].

(** [['1' if label in values or code in values else '0']] for each option,
    stored under its code; [in] takes an item that is the same object, or an
    equal one. *)
Definition checkbox_flags (values : list pyval) (options : list (string * pyval))
    : list (string * string) :=
  fold_left
    (fun result '(code, label) =>
       Py.set code
         (if existsb (Py.same label) values || existsb (Py.same (VStr code)) values
          then "1" else "0")
         result)
    options [].

(** [for code, label in options.items(): if label == value or code == value:
    return code] *)
Fixpoint find_code (value : pyval) (options : list (string * pyval)) : option string :=
  match options with
  | [] => None
  | (code, label) :: options' =>
      if Py.eq label value || Py.eq (VStr code) value then Some code
      else find_code value options'
  end.

Section WithRuntime.
Context {RT : PyRuntime}.

(** [pd.isna(value) or value == '']: the guard of the date and the choice
    transforms, outside any [try]. *)
Definition missing_or_empty (value : pyval) : result bool :=
  (missing <- Py.isna_truth value ;;
   Ok (missing || Py.eq value (VStr "")))%result.

Definition _format_checkbox (value : pyval) (options : list (string * pyval))
    : result pyval :=
  (missing <- Py.isna_truth value ;;
   if missing then Ok (VDict [])
   else
     let values :=
       match value with
       | VStr s => map (fun v => VStr (Str.strip v)) (Str.split "," s)
       | VList items => items
       | _ => [value]
       end in
     Ok (VDict (checkbox_flags values options)))%result.

(** The loop over the formats, with its [break]: the first that parses. *)
Fixpoint first_parse (text : string) (formats : list string) : option date :=
  match formats with
  | [] => None
  | fmt :: formats' =>
      match Py.strptime_str text fmt with
      | Some dt => Some dt
      | None => first_parse text formats'
      end
  end.

Definition _format_date (value : pyval) (date_format : option string) : M pyval :=
  (empty <- lift (missing_or_empty value) ;;
   if empty then ret (VStr "")
   else
     match date_format with
     | Some (String c fmt' as fmt) =>
         match Py.strptime_str (Py.str value) fmt with
         | Some dt => ret (VStr (Py.strftime_ymd dt))
         | None =>
             logger Warning ("Error formatting date " ++ Py.str value ++ ": "
                             ++ strptime_message fmt (Py.str value)) ;;;
             ret value
         end
     | _ =>
         match first_parse (Py.str value) date_formats with
         | Some dt => ret (VStr (Py.strftime_ymd dt))
         | None =>
             logger Warning ("Could not parse date value: " ++ Py.str value) ;;;
             ret value
         end
     end)%monad.

Definition _format_radio (value : pyval) (options : list (string * pyval)) : M pyval :=
  (empty <- lift (missing_or_empty value) ;;
   if empty then ret (VStr "")
   else
     match find_code value options with
     | Some code => ret (VStr code)
     | None =>
         logger Warning ("Radio value '" ++ Py.str value ++ "' not found in options") ;;;
         ret (VStr "")
     end)%monad.

Definition _format_dropdown (value : pyval) (options : list (string * pyval)) : M pyval :=
  _format_radio value options.

(** [for field in row.index: if '{field}' in formula: formula =
    formula.replace('{field}', str(row[field]))] *)
Definition substitute (row : pydict) (formula : string) : string :=
  fold_left
    (fun formula '(field, cell) =>
       let token := "{" ++ field ++ "}" in
       if Str.contains token formula then Str.replace token (Py.str cell) formula
       else formula)
    row formula.

Definition _apply_calculation (row : pydict) (formula : option string) : M pyval :=
  match formula with
  | Some (String _ _ as formula) =>
      match py_eval (substitute row formula) with
      | Returned text => ret (VStr text)
      | Failed message =>
          (logger Warning ("Error in calculation: " ++ message) ;;;
           ret (VStr ""))%monad
      | Escaped => raise SystemExit
      end
  | _ => ret (VStr "")
  end.

Definition _map_field (field_map : field_map) (source_row : pydict)
    (target_record : nat) : M unit :=
  match Py.get (source_field field_map) source_row with
  | None =>
      logger Debug ("Source field '" ++ source_field field_map ++ "' not found, skipping")
  | Some value =>
      let field_type := field_type field_map in
      (value <-
         (if String.eqb field_type "date" then
            _format_date value (date_format field_map)
          else if String.eqb field_type "checkbox" then
            lift (_format_checkbox value (options field_map))
          else if String.eqb field_type "radio" then
            _format_radio value (options field_map)
          else if String.eqb field_type "dropdown" then
            _format_dropdown value (options field_map)
          else if String.eqb field_type "calculated" then
            _apply_calculation source_row (formula field_map)
          else ret value) ;;
       write target_record (target_field field_map) value)%monad
  end.

(** The body of [for _, row in source_data.iterrows()]. *)
Definition map_row (mapping : mapping_t) (row : pydict) : M (list nat) :=
  (record <- alloc [] ;;
   let src_id_field := record_id_field mapping in
   match Py.get src_id_field row with
   | Some cell =>
       write record "record_id" (VStr (Py.str cell)) ;;;
       for_each_M (fun field_map => _map_field field_map row record) (fields mapping) ;;;
       ret [record]
   | None =>
       logger Warning ("Record ID field '" ++ src_id_field
                       ++ "' not found in source data") ;;;
       ret []
   end)%monad.

(** [map_data] on a list of records (a frame handed in ready-made is not
    modelled): the [try] block, and the [except] that logs and raises
    again. *)
Definition map_data (mapping : mapping_t) (source_data : list nat) : M (list nat) :=
  (logger Info "Starting data mapping process" ;;;
   try_except
     (if String.eqb (source_type mapping) "csv" then
        records <- read_all source_data ;;
        redcap_data <- collect_M (map_row mapping) (frame_rows records) ;;
        logger Info ("Mapped " ++ Str.of_nat (List.length redcap_data)
                     ++ " records successfully") ;;;
        ret redcap_data
      else
        raise (ValueErrorOf "Unsupported source data type for automatic conversion"))
     (fun e =>
        logger Error ("Error during data mapping: " ++ exception_text e) ;;;
        raise e))%monad.

End WithRuntime.

End Mapper.

(** ** security.py: the PHI report

    [generate_phi_report] reads the records and writes to none of them, so
    they are dictionaries here, not references into the store. *)

(** The arithmetic of [records_with_phi / len(data) * 100]: the quotient of
    two integers as a float, and a float times an integer, each rounded as
    the interpreter rounds. *)
Class PyArith : Type := {
  int_truediv : Z -> Z -> pyfloat;
  float_mul_int : pyfloat -> Z -> pyfloat
}.

Module PhiReport.
Import Security.

(** What [generate_phi_report] returns: the two-key dictionary of the early
    return, or the five-key one. *)
Inductive report : Type :=
  | Brief (phi_fields : list string) (phi_counts : list (string * nat))
  | Counted (phi_fields : list string) (phi_counts : list (string * nat))
            (records_with_phi total_records : nat) (phi_percentage : pyfloat).

(** [{field: 0 for field in self.phi_fields}] *)
Definition zero_counts (fields : list string) : list (string * nat) :=
  fold_left (fun counts field => Py.set field 0%nat counts) fields [].

(** [field in record and record[field]] *)
Definition holds (field : string) (record : pydict) : bool :=
  match Py.get field record with
  | Some v => Py.truthy v
  | None => false
  end.

(** The body of [for field in self.phi_fields], on the counts and
    [has_phi]. *)
Definition count_field (record : pydict) (field : string)
    (st : list (string * nat) * bool) : result (list (string * nat) * bool) :=
  let '(phi_counts, has_phi) := st in
  if holds field record then
    (n <- Py.index field phi_counts ;;
     Ok (Py.set field (S n) phi_counts, true))%result
  else Ok (phi_counts, has_phi).

(** The body of [for record in data], on the counts and
    [records_with_phi]. *)
Definition count_record (fields : list string) (record : pydict)
    (st : list (string * nat) * nat) : result (list (string * nat) * nat) :=
  let '(phi_counts, records_with_phi) := st in
  (out <- for_each (count_field record) fields (phi_counts, false) ;;
   let '(phi_counts, has_phi) := out in
   Ok (phi_counts, if has_phi then S records_with_phi else records_with_phi))%result.

Section WithArithmetic.
Context {AR : PyArith}.

Definition generate_phi_report (self : SecurityHandler) (data : list pydict)
    : result report :=
  match data with
  | [] => Ok (Brief [] [])
  | _ =>
      (out <- for_each (count_record (phi_fields self)) data
                (zero_counts (phi_fields self), 0%nat) ;;
       let '(phi_counts, records_with_phi) := out in
       Ok (Counted (phi_fields self) phi_counts records_with_phi (List.length data)
             (float_mul_int
                (int_truediv (Z.of_nat records_with_phi) (Z.of_nat (List.length data)))
                100)))%result
  end.

End WithArithmetic.

End PhiReport.

(** ** A runtime to compute with

    Whole numbers for floats, a frame that fills the cells a record lacks
    with NaN, a cipher that marks its tokens: enough to run the three modules
    on examples. *)

Module Demo.

Fixpoint digits_value (acc : Z) (s : string) : option Z :=
  match s with
  | EmptyString => Some acc
  | String c s' =>
      if Str.is_digit c then digits_value (10 * acc + Py.digit_val c)%Z s' else None
  end.

Definition float_of_str (s : string) : option pyfloat :=
  match s with
  | EmptyString => None
  | String "-" (String c s') =>
      option_map (fun z => FFin (inject_Z (- z))) (digits_value 0 (String c s'))
  | _ => option_map (fun z => FFin (inject_Z z)) (digits_value 0 s)
  end.

Definition float_repr (f : pyfloat) : string :=
  match f with
  | FNaN _ => "nan"
  | FInf true => "-inf"
  | FInf false => "inf"
  | FFin q => Str.of_Z (Qnum q / Zpos (Qden q)) ++ ".0"
  end.

Definition dict_repr (d : list (string * string)) : string :=
  "{" ++ Str.join ", " (map (fun '(k, v) => "'" ++ k ++ "': '" ++ v ++ "'") d) ++ "}".

Definition columns (records : list pydict) : list string :=
  dedup String.eqb (flat_map (@Py.keys pyval) records).

(** Every cell a record lacks is one object, [numpy.nan]. *)
Definition frame_rows (records : list pydict) : list pydict :=
  map (fun r => map (fun c => (c, Py.get_default c (VFloat (FNaN 0)) r)) (columns records))
      records.

(** An array of one item has the truth of the item; numpy before 2.2 takes
    an empty one for false. *)
Definition array_truth (l : list pyval) : option bool :=
  match l with
  | [] => Some false
  | [x] => Some (Py.isna x)
  | _ => None
  end.

Definition array_truth_message (l : list pyval) : string :=
  "The truth value of an array with more than one element is ambiguous. "
  ++ "Use a.any() or a.all()".

(** [repr(v)], and the text of a list. *)
Fixpoint repr (v : pyval) : string :=
  match v with
  | VNone => "None"
  | VBool true => "True"
  | VBool false => "False"
  | VInt z => Str.of_Z z
  | VFloat f => float_repr f
  | VStr s => "'" ++ s ++ "'"
  | VDict d => dict_repr d
  | VList l => "[" ++ Str.join ", " (map repr l) ++ "]"
  end.

Definition list_repr (l : list pyval) : string :=
  "[" ++ Str.join ", " (map repr l) ++ "]".

Definition exception_text (e : exn) : string :=
  match e with
  | ValueErrorOf message => message
  | KeyError key => "'" ++ key ++ "'"
  | _ => ""
  end.

Definition fernet_encrypt (key : string) (r : nat) (text : string) : string :=
  String "#" text.

Definition fernet_decrypt (key : string) (token : string) : option string :=
  match token with
  | String c text => if Ascii.eqb c "#" then Some text else None
  | EmptyString => None
  end.

Definition runtime : PyRuntime :=
  Build_PyRuntime
    float_of_str
    (fun z => Some (FFin (inject_Z z)))
    float_repr
    dict_repr
    Str.of_Z
    (fun _ _ => None)
    (fun _ _ => "does not match format")
    (fun _ => Failed "invalid syntax")
    frame_rows
    fernet_encrypt
    fernet_decrypt
    list_repr
    array_truth
    array_truth_message
    exception_text
    (fun y _ => eq_refl)
    (fun key r text => eq_refl)
    (fun x y items _ => eq_refl)
    (fun message => eq_refl).

End Demo.

(** Exact arithmetic, to compute with. *)
Definition demo_arith : PyArith :=
  Build_PyArith
    (fun a b => FFin (Qred (Qdiv (inject_Z a) (inject_Z b))))
    (fun f n => match f with
                | FFin q => FFin (Qred (Qmult q (inject_Z n)))
                | _ => f
                end).

(** ** The vocabulary of the statements *)

Section Vocabulary.
Context {RT : PyRuntime}.
Import Validator Security Mapper.

(** *** The validator *)

(** The errors that stand on records. *)
Definition error_sum (d : list (pyval * issues)) : nat :=
  sum (map (fun e => List.length (issue_errors (snd e))) d).

(** Every record's identifier can be a dictionary key. *)
Definition hashable_ids (data : list pydict) : Prop :=
  forall i record, nth_error data i = Some record ->
                   Py.hashable (record_id_of i record) = true.

(** The same, for the records a loop has left, the next one numbered [i]. *)
Definition hashable_from (i : nat) (data : list pydict) : Prop :=
  forall j record, nth_error data j = Some record ->
                   Py.hashable (record_id_of (i + j) record) = true.

(** *** Redaction *)

(** A text with an [@] whose next piece, up to a further [@] or the end,
    holds a dot. *)
Definition email_shaped (value : string) : Prop :=
  exists local domain rest,
    value = local ++ "@" ++ domain ++ rest
    /\ Str.mem "@" local = false
    /\ Str.mem "@" domain = false
    /\ Str.mem "." domain = true
    /\ (rest = "" \/ exists r, rest = String "@" r).

(** Digits, hyphens and parentheses only, at least one, with or without a
    closing newline. *)
Definition phone_shaped (value : string) : Prop :=
  exists body,
    body <> "" /\ Str.forallb phone_char body = true
    /\ (value = body \/ value = body ++ newline).

(** *** What a stage leaves alone

    [keeps n m Q]: run in a store that holds at least [n] objects, [m]
    leaves the first [n] as they are, drops none, and what it returns
    satisfies [Q]. *)

Definition frame (n : nat) (w w' : world) : Prop :=
  firstn n (heap w') = firstn n (heap w)
  /\ (List.length (heap w) <= List.length (heap w'))%nat.

Definition keeps {A} (n : nat) (m : M A) (Q : A -> Prop) : Prop :=
  forall w, (n <= List.length (heap w))%nat ->
            frame n w (snd (m w)) /\ (forall a, fst (m w) = Ok a -> Q a).

(** *** The secure operation, record by record *)

(** What the loop body does to the copy and to the entropy counter. *)
Definition secure_field_pure (self : SecurityHandler) (field : string)
    (st : pydict * nat) : pydict * nat :=
  let '(d, r) := st in
  match Py.get field d with
  | Some v =>
      if Py.truthy v then
        match cipher self with
        | Some key =>
            (Py.set field (VStr (_redact_phi (Py.str v)))
               (Py.set (field ++ "_encrypted")
                  (VStr (fernet_encrypt key r (Py.str v))) d), S r)
        | None => (Py.set field (VStr (_redact_phi (Py.str v))) d, r)
        end
      else (d, r)
  | None => (d, r)
  end.

Definition secure_fields_pure (self : SecurityHandler) (fields : list string)
    (st : pydict * nat) : pydict * nat :=
  fold_left (fun st field => secure_field_pure self field st) fields st.

(** The copies [secured_data] refers to, in order, and the entropy left. *)
Fixpoint secured_dicts (self : SecurityHandler) (data : list nat)
    (h : list pydict) (r : nat) : list pydict * nat :=
  match data with
  | [] => ([], r)
  | record :: rest =>
      let '(d, r1) := secure_fields_pure self (phi_fields self) (deref h record, r) in
      let '(ds, r2) := secured_dicts self rest (h ++ [d]) r1 in
      (d :: ds, r2)
  end.

(** The field list a call works with: the one it has, or the one it infers
    from the first record when it has none. *)
Definition resolved_fields (self : SecurityHandler) (data : list nat)
    (h : list pydict) : list string :=
  match phi_fields self with
  | [] =>
      match data with
      | [] => []
      | sample :: _ => List.filter is_phi_name (Py.keys (deref h sample))
      end
  | fields => fields
  end.

Definition applied_message (fields : list string) : level * string :=
  (Info, "Applied security measures to "
         ++ Str.of_nat (List.length fields) ++ " PHI fields").

Definition detected_message (fields : list string) : level * string :=
  (Info, "Automatically detected potential PHI fields: " ++ Str.join ", " fields).

(** One handler, one call of the secure operation after another. *)
Fixpoint secure_calls (self : SecurityHandler) (calls : list (list nat))
    : M SecurityHandler :=
  match calls with
  | [] => ret self
  | data :: calls' =>
      bind (_secure_phi_data self data) (fun out => secure_calls (fst out) calls')
  end.

(** The field list has no repeats and no name that is another's sibling. *)
Definition distinct_siblings (fields : list string) : Prop :=
  NoDup fields
  /\ (forall f g, In f fields -> In g fields -> g <> f ++ "_encrypted").

(** *** The mapper's transforms *)

(** Whether an option answers to a value: by its label or by its code. *)
Definition option_matches (value : pyval) (option : string * pyval) : bool :=
  Py.eq (snd option) value || Py.eq (VStr (fst option)) value.

(** What the log holds after one more warning. *)
Definition warned (w : world) (message : string) : world :=
  mkworld (heap w) (log w ++ [(Warning, message)]) (entropy w).

(** What the spec describes for a choice field: the option whose label
    equals the value, and only when there is none the option whose code
    does. *)
Definition label_first_code (value : pyval) (options : list (string * pyval))
    : option string :=
  match List.find (fun o => Py.eq (snd o) value) options with
  | Some o => Some (fst o)
  | None => option_map fst (List.find (fun o => Py.eq (VStr (fst o)) value) options)
  end.

End Vocabulary.

(** ** More vocabulary: what the validator lets out, and what it is handed *)

Section ValidatorVocabulary.
Context {RT : PyRuntime}.
Import Validator.

(** What a fallible computation raises, when it raises, is in [P]. *)
Definition raises_only {A} (P : exn -> Prop) (r : result A) : Prop :=
  match r with
  | Ok _ => True
  | Raise e => P e
  end.

(** The exceptions that get out of [validate]: neither [except ValueError]
    nor anything else in the class stops them. *)
Definition validator_exn (e : exn) : Prop :=
  match e with
  | TypeError | AttributeError | OverflowError => True
  | KeyError k => k = "min" \/ k = "max"
  | ValueError | ValueErrorOf _ | InvalidToken | SystemExit => False
  end.

(** What one check does with one record: nothing, one message under the
    record's identifier, or an exception. *)
Definition check_outcome (record_id : pyval) (res : results) (r : result results)
    : Prop :=
  r = Ok res
  \/ (exists t message, r = _add_record_issue res record_id t message)
  \/ (exists e, r = Raise e /\ validator_exn e).

(** The warnings that stand on records. *)
Definition warning_sum (d : list (pyval * issues)) : nat :=
  sum (map (fun e => List.length (issue_warnings (snd e))) d).

(** An entry of [record_issues] that belongs to a record of the data and
    holds at least one message. *)
Definition entry_of (data : list pydict) (entry : pyval * issues) : Prop :=
  (exists i record, nth_error data i = Some record /\ fst entry = record_id_of i record)
  /\ (issue_errors (snd entry) <> [] \/ issue_warnings (snd entry) <> []).

(** The results while the checks run: no global warning, the statistics as
    [validate] set them up, every entry a record's own. *)
Definition running (data : list pydict) (global : list string) (res : results) : Prop :=
  errors res = global
  /\ warnings res = []
  /\ stats res = mkstats (List.length data) 0 0 0
  /\ Forall (entry_of data) (record_issues res).

(** Every cell of every record is a value [str] prints. *)
Definition printable_records (data : list pydict) : bool :=
  forallb (forallb (fun cell : string * pyval => Py.printable (snd cell))) data.

(** Every cell of the record is text. *)
Definition text_record (record : pydict) : Prop :=
  forall k v, Py.get k record = Some v -> exists s, v = VStr s.

(** A date rule that names both bounds, as text. *)
Definition text_bounds (rule : pydict) : Prop :=
  (exists lo, Py.get "min" rule = Some (VStr lo))
  /\ (exists hi, Py.get "max" rule = Some (VStr hi)).

(** A value [float] accepts or refuses with [ValueError]. *)
Definition convertible (v : pyval) : Prop :=
  Py.float v <> Raise TypeError /\ Py.float v <> Raise OverflowError.

(** A numeric rule whose bounds, where it names them, are such values. *)
Definition numeric_bounds (rule : pydict) : Prop :=
  forall v, Py.get "min" rule = Some v \/ Py.get "max" rule = Some v -> convertible v.

Definition usable_rules (rules : validation_rules) : Prop :=
  (forall field rule, In (field, rule) (date_range rules) -> text_bounds rule)
  /\ (forall field rule, In (field, rule) (numeric_range rules) -> numeric_bounds rule).

(** The record lacks a required field: the field is absent or its value is
    falsy. *)
Definition lacks (required : list string) (record : pydict) : bool :=
  existsb (fun field => negb (present field record)) required.

Definition required_message (required : list string) (record : pydict) : string :=
  "Missing required fields: "
  ++ Str.join ", " (List.filter (fun field => negb (present field record)) required).

(** The list of an entry a message of type [t] goes to. *)
Definition issue_list (t : issue_type) (entry : issues) : list string :=
  match t with
  | Errors => issue_errors entry
  | Warnings => issue_warnings entry
  end.

(** No identifier stands on two records: none is found twice among the
    identifiers, as the same object or as an equal one. *)
Definition distinct_ids (data : list pydict) : Prop :=
  forall v, In v (record_ids data) -> (count Py.same v (record_ids data) <= 1)%nat.

End ValidatorVocabulary.

(** ** More vocabulary: the secure operation and the report *)

Section SecurityVocabulary.
Context {RT : PyRuntime}.
Import Security.

(** The characters of a text that are no [*]. *)
Definition visible (s : string) : nat :=
  String.length (Str.filter (fun c => negb (Ascii.eqb c "*")) s).

(** [k] is none of the listed fields and no listed field's sibling. *)
Definition untouched (fields : list string) (k : string) : Prop :=
  forall g, In g fields -> k <> g /\ k <> g ++ "_encrypted".

(** *** The report, record by record *)

(** What the loop body does to the counts. *)
Definition bump (record : pydict) (counts : list (string * nat)) (field : string)
    : list (string * nat) :=
  if PhiReport.holds field record
  then Py.set field (S (Py.get_default field 0%nat counts)) counts
  else counts.

(** The record holds a value under one of the fields. *)
Definition holds_any (fields : list string) (record : pydict) : bool :=
  existsb (fun field => PhiReport.holds field record) fields.

(** What one record does to the counts and to [records_with_phi]. *)
Definition tally (fields : list string) (st : list (string * nat) * nat)
    (record : pydict) : list (string * nat) * nat :=
  (fold_left (bump record) fields (fst st),
   if holds_any fields record then S (snd st) else snd st).

End SecurityVocabulary.

(** ** More vocabulary: the mapper *)

Section MapperVocabulary.
Context {RT : PyRuntime}.
Import Validator Mapper.

(** The values a checkbox cell stands for: the pieces of a text between
    commas, stripped; the items of a list; any other cell, itself. *)
Definition checkbox_values (value : pyval) : list pyval :=
  match value with
  | VStr s => map (fun v => VStr (Str.strip v)) (Str.split "," s)
  | VList items => items
  | _ => [value]
  end.

(** The option is among the values, by its label or by its code. *)
Definition ticked (values : list pyval) (option : string * pyval) : bool :=
  existsb (Py.same (snd option)) values
  || existsb (Py.same (VStr (fst option))) values.

(** A computation that may write to the log and does nothing else to the
    store, whether it returns or raises. *)
Definition only_logs {A} (m : M A) : Prop :=
  forall w, heap (snd (m w)) = heap w.


(** A cell the transforms take: no list, and a value [str] prints. *)
Definition plain (v : pyval) : bool := negb (is_list v) && Py.printable v.

Definition plain_rows (rows : list pydict) : bool :=
  forallb (forallb (fun cell : string * pyval => plain (snd cell))) rows.

(** No rule of the mapping evaluates a formula. *)
Definition no_calculation (mapping : mapping_t) : bool :=
  forallb (fun fm => negb (String.eqb (field_type fm) "calculated")) (fields mapping).

(** The identifier cells of the rows that have the identifier column. *)
Definition id_cells (mapping : mapping_t) (rows : list pydict) : list pyval :=
  flat_map (fun row => match Py.get (record_id_field mapping) row with
                       | Some cell => [cell]
                       | None => []
                       end) rows.

(** No rule of the mapping writes to [record_id]. *)
Definition spares_record_id (mapping : mapping_t) : Prop :=
  forall field_map, In field_map (fields mapping) ->
                    target_field field_map <> "record_id".

(** What the mapper makes of a row whose identifier cell is [cell]. *)
Definition mapped_record (mapping : mapping_t) (cell : pyval) (d : pydict) : Prop :=
  Py.has "record_id" d = true
  /\ (forall k, Py.has k d = true ->
                k = "record_id" \/ In k (map target_field (fields mapping)))
  /\ (spares_record_id mapping -> Py.get "record_id" d = Some (VStr (Py.str cell))).

End MapperVocabulary.

(** ** More vocabulary: dates *)

Section DateVocabulary.

(** A date of the calendar with a year of four digits. *)
Definition four_digit_date (d : date) : Prop :=
  (1000 <= year d <= 9999)%Z
  /\ (1 <= month d <= 12)%Z
  /\ (1 <= day d <= Py.days_in_month (year d) (month d))%Z.

(** The year [1000 + k] prints as four digits that read as the year. *)
Definition year_prints (k : nat) : bool :=
  let y := (1000 + Z.of_nat k)%Z in
  match Str.of_Z y with
  | String a (String b (String c (String e EmptyString))) =>
      Str.is_digit a && Str.is_digit b && Str.is_digit c && Str.is_digit e
      && (1000 * Py.digit_val a + 100 * Py.digit_val b
          + 10 * Py.digit_val c + Py.digit_val e =? y)%Z
  | _ => false
  end.

End DateVocabulary.

(** ** Records and stores to compute on *)

Module Sample.
Import Validator Security Mapper.

(** Two records that share the identifier ["P001"]; the second lacks
    [weight]. *)
Definition two_records : list pydict :=
  [ [("record_id", VStr "P001"); ("weight", VStr "25")];
    [("record_id", VStr "P001")] ].

Definition no_rules : validation_rules := mkrules [] [] [] [].

Definition fresh_results : results := mkresults true [] [] [] (mkstats 2 0 0 0).

Definition two_records_verdict : verdict :=
  Full (mkresults false ["Duplicate record ID found: P001"] []
          [(VStr "P001",
            mkissues []
              ["Fields present in other records but missing in this one: weight"])]
          (mkstats 2 1 1 1)).

(** A store with one patient record, and one with a record that was secured
    before. *)
Definition patient : pydict := [("ssn", VStr "123-45-6789"); ("visit", VStr "03/15/2023")].

Definition one_patient : world := mkworld [patient] [] 0.

Definition secured_before : world :=
  mkworld [[("ssn", VStr "123-45-6789"); ("ssn_encrypted", VStr "old")]] [] 0.

(** A store whose first record has no name a pattern knows, and whose second
    has one. *)
Definition visit_then_name : world :=
  mkworld [[("visit", VStr "03/15/2023")]; [("name", VStr "Bob")]] [] 0.

Definition protected_handler : SecurityHandler := __init__ true None "k".

Definition ssn_handler : SecurityHandler := __init__ true (Some ["ssn"]) "k".

Definition visit_mapping : mapping_t :=
  mkmapping [mkfield "visit" "visit_date" "date" None [] None] "csv" "ssn".

End Sample.

(** ** More records to compute on *)

Module MoreSample.
Import Validator.

Definition visit_rules : validation_rules :=
  mkrules ["visit"] [("visit", VStr "date")]
          [("visit", [("min", VStr "2000-01-01"); ("max", VStr "2030-12-31")])]
          [("weight", [("min", VInt 30)])].

Definition visits : list pydict :=
  [ [("record_id", VStr "A"); ("visit", VStr "2023-03-15"); ("weight", VStr "25")];
    [("record_id", VStr "B"); ("visit", VStr "")] ].

(** What [validate] makes of [Sample.two_records] under no rule. *)
Definition two_records_results : results :=
  mkresults false ["Duplicate record ID found: P001"] []
    [(VStr "P001",
      mkissues []
        ["Fields present in other records but missing in this one: weight"])]
    (mkstats 2 1 1 1).

(** What [validate] makes of [visits] under no rule: the two identifiers
    differ, and the second record lacks [weight]. *)
Definition visits_results : results :=
  mkresults true [] []
    [(VStr "B",
      mkissues []
        ["Fields present in other records but missing in this one: weight"])]
    (mkstats 2 1 0 1).


Definition nan_ids : list pydict :=
  [ [("record_id", VFloat (FNaN 0))]; [("record_id", VFloat (FNaN 0))] ].

(** A record whose visit is a list of two dates. *)
Definition two_visits : pydict :=
  [("ssn", VStr "123-45-6789"); ("visit", VList [VStr "2023-03-15"; VStr "2023-04-01"])].

Definition ambiguous : string :=
  "The truth value of an array with more than one element is ambiguous. "
  ++ "Use a.any() or a.all()".

End MoreSample.

Module SecuritySample.
Import Security.

Definition contacts : list pydict :=
  [ [("name", VStr "Ann"); ("phone", VStr ""); ("visit", VStr "1")];
    [("name", VStr "Bob"); ("phone", VStr "555-0100")];
    [("visit", VStr "2")] ].

Definition contact_handler : SecurityHandler :=
  __init__ false (Some ["name"; "phone"]) "k".

End SecuritySample.

(** * Properties *)

(** ** The validator *)

Section ValidatorFacts.
Context {RT : PyRuntime}.
Import Validator.

Lemma rbind_Ok {A B} (r : result A) (k : A -> result B) (b : B) :
  rbind r k = Ok b -> exists a, r = Ok a /\ k a = Ok b.
Proof.
  destruct r as [a | e]; simpl; intros H; [exists a; auto | discriminate].
Qed.

(** On a record set that is not empty, what [validate] returns is the
    five-key dictionary, its flag computed from its own error lists. *)
Lemma validate_nonempty rules record data v :
  validate rules (record :: data) = Ok v ->
  exists errs warns issued st,
    v = Full (mkresults (count_errors errs issued =? 0)%nat errs warns issued st).
Proof.
  unfold validate. intros H.
  repeat (apply rbind_Ok in H; destruct H as [? [_ H]]).
  inversion H. eauto.
Qed.

(** C1: the verdict [validate] returns is valid exactly when its global
    errors plus the per-record error lists of all its records count zero;
    so two verdicts with the same error counts agree on validity whatever
    their warnings. *)
Theorem validate_valid_iff_no_errors rules data v :
  validate rules data = Ok v ->
  (verdict_is_valid v = true
   <-> (List.length (verdict_errors v) + record_error_count v = 0)%nat)
  /\ (forall rules' data' v',
        validate rules' data' = Ok v' ->
        (List.length (verdict_errors v') + record_error_count v'
         = List.length (verdict_errors v) + record_error_count v)%nat ->
        verdict_is_valid v' = verdict_is_valid v).
Proof.
  assert (key : forall rules data v, validate rules data = Ok v ->
            verdict_is_valid v
            = (List.length (verdict_errors v) + record_error_count v =? 0)%nat).
  { clear. intros rules [| record data] v H.
    - inversion H. reflexivity.
    - apply validate_nonempty in H. destruct H as (errs & warns & issued & st & ->).
      reflexivity. }
  intros H. split.
  - rewrite (key _ _ _ H). apply Nat.eqb_eq.
  - intros rules' data' v' H' Hcount.
    rewrite (key _ _ _ H), (key _ _ _ H'), Hcount. reflexivity.
Qed.

(** C10: on the empty record set [validate] returns the two-key dictionary,
    invalid, with the one global error; on any other record set what it
    returns has the five keys. *)
Theorem validate_empty_verdict_shape rules :
  validate rules [] = Ok (NoData false ["No data provided for validation"])
  /\ verdict_keys (NoData false ["No data provided for validation"])
     = ["is_valid"; "errors"]
  /\ (forall data v,
        data <> [] -> validate rules data = Ok v ->
        verdict_keys v = ["is_valid"; "errors"; "warnings"; "record_issues"; "stats"]).
Proof.
  split; [reflexivity | split; [reflexivity |]].
  intros [| record data] v Hne H; [congruence |].
  apply validate_nonempty in H. destruct H as (errs & warns & issued & st & ->).
  reflexivity.
Qed.

(** C4, where the code departs from it: a date range that sets only [max],
    and a date before 1900.  The default lower bound is read with [.get], the
    message then indexes [range_rule['min']], and the [KeyError] leaves
    [validate]. *)
Theorem validate_raises_without_min :
  validate (mkrules [] [] [("dob", [("max", VStr "2000-01-01")])] [])
           [[("record_id", VStr "P001"); ("dob", VStr "1800-01-01")]]
  = Raise (KeyError "min").
Proof. reflexivity. Qed.

(** Two records that share an identifier: one global error that names it,
    and an invalid verdict. *)
Example validate_shared_identifier :
  validate Sample.no_rules Sample.two_records = Ok Sample.two_records_verdict.
Proof. reflexivity. Qed.

(** A bound that is not text is a [TypeError], which the [except ValueError]
    of the range checks lets through as well. *)
Example validate_raises_on_null_bound :
  validate (mkrules [] [] [("dob", [("min", VNone)])] [])
           [[("record_id", VStr "P001"); ("dob", VStr "2001-01-01")]]
  = Raise TypeError.
Proof. reflexivity. Qed.

(** A bound that is text and no date does degrade to an error on the
    record. *)
Example validate_unparseable_bound :
  validate (mkrules [] [] [("dob", [("min", VStr "soon")])] [])
           [[("record_id", VStr "P001"); ("dob", VStr "2001-01-01")]]
  = Ok (Full (mkresults false [] []
                [(VStr "P001",
                  mkissues ["Could not parse date in field 'dob': 2001-01-01"] [])]
                (mkstats 1 1 1 0))).
Proof. reflexivity. Qed.

End ValidatorFacts.

(** ** Sets as lists without repeats *)

Section Dedup.
Variable A : Type.
Variable eqb : A -> A -> bool.
(** The values on which [eqb] is an equivalence, up to reflexivity. *)
Variable P : A -> Prop.
Hypothesis eqb_sym : forall a b, P a -> P b -> eqb a b = eqb b a.
Hypothesis eqb_trans :
  forall a b c, P a -> P b -> P c -> eqb a b = true -> eqb b c = true -> eqb a c = true.

Lemma existsb_eqb_trans v x seen :
  P v -> P x -> Forall P seen ->
  eqb v x = true -> existsb (eqb v) seen = existsb (eqb x) seen.
Proof.
  intros Pv Px Pseen Hvx. induction Pseen as [| s seen Ps _ IH]; simpl; [reflexivity |].
  rewrite IH. f_equal.
  destruct (eqb v s) eqn:Hvs, (eqb x s) eqn:Hxs; try reflexivity.
  - rewrite eqb_sym in Hvx by assumption.
    rewrite (eqb_trans Px Pv Ps Hvx Hvs) in Hxs. discriminate.
  - rewrite (eqb_trans Pv Px Ps Hvx Hxs) in Hvs. discriminate.
Qed.

(** How often a value occurs in [dedup_from seen l]: once when it is in [l]
    and was not seen, never otherwise. *)
Lemma count_dedup_from v l : forall seen,
  P v -> Forall P seen -> Forall P l ->
  count eqb v (dedup_from eqb seen l)
  = if existsb (eqb v) seen then 0 else if existsb (eqb v) l then 1 else 0.
Proof.
  induction l as [| x l IH]; intros seen Pv Pseen Pl.
  - simpl. destruct (existsb (eqb v) seen); reflexivity.
  - inversion Pl as [| ? ? Px Pl']; subst. simpl.
    destruct (existsb (eqb x) seen) eqn:Hx.
    + rewrite IH by assumption.
      destruct (existsb (eqb v) seen) eqn:Hv; [reflexivity |].
      destruct (eqb v x) eqn:Hvx; [| reflexivity].
      rewrite (existsb_eqb_trans Pv Px Pseen Hvx) in Hv. congruence.
    + unfold count in *. simpl.
      specialize (IH (x :: seen) Pv (Forall_cons _ Px Pseen) Pl'). simpl in IH.
      destruct (eqb v x) eqn:Hvx; simpl; rewrite IH; simpl.
      * rewrite (existsb_eqb_trans Pv Px Pseen Hvx), Hx. reflexivity.
      * destruct (existsb (eqb v) seen); reflexivity.
Qed.

Lemma count_dedup v l :
  P v -> Forall P l ->
  count eqb v (dedup eqb l) = if existsb (eqb v) l then 1 else 0.
Proof.
  intros Pv Pl. unfold dedup. rewrite count_dedup_from by auto. reflexivity.
Qed.

Lemma dedup_from_incl l : forall seen x, In x (dedup_from eqb seen l) -> In x l.
Proof.
  induction l as [| y l IH]; intros seen x; simpl; [auto |].
  destruct (existsb (eqb y) seen); simpl; intros H.
  - right. eapply IH, H.
  - destruct H as [-> | H]; [left; reflexivity | right; eapply IH, H].
Qed.

Lemma dedup_incl l x : In x (dedup eqb l) -> In x l.
Proof. apply dedup_from_incl. Qed.

End Dedup.

Lemma count_pos_existsb {A} (eqb : A -> A -> bool) v l :
  existsb (eqb v) l = (0 <? count eqb v l)%nat.
Proof.
  unfold count. induction l as [| x l IH]; simpl; [reflexivity |].
  destruct (eqb v x); simpl; [reflexivity | exact IH].
Qed.

(** ** Equality of Python values *)

Lemma feq_sym a b : Py.feq a b = Py.feq b a.
Proof.
  destruct a as [i | s | x], b as [j | t | y]; simpl; try reflexivity.
  - destruct s, t; reflexivity.
  - destruct (Qeq_bool x y) eqn:H, (Qeq_bool y x) eqn:H'; try reflexivity.
    + apply Qeq_bool_sym in H. congruence.
    + apply Qeq_bool_sym in H'. congruence.
Qed.

Lemma feq_trans a b c : Py.feq a b = true -> Py.feq b c = true -> Py.feq a c = true.
Proof.
  destruct a as [i | s | x], b as [j | t | y], c as [k | u | z]; simpl;
    try discriminate.
  - destruct s, t, u; simpl; congruence.
  - apply Qeq_bool_trans.
Qed.

Lemma py_eq_sym a b :
  Py.hashable a = true -> Py.hashable b = true -> Py.eq a b = Py.eq b a.
Proof.
  destruct a, b; cbn -[Py.feq]; try discriminate; intros _ _;
    try reflexivity; try apply feq_sym; try apply String.eqb_sym.
Qed.

Lemma py_eq_trans a b c :
  Py.hashable a = true -> Py.hashable b = true -> Py.hashable c = true ->
  Py.eq a b = true -> Py.eq b c = true -> Py.eq a c = true.
Proof.
  destruct a, b, c; cbn -[Py.feq]; try discriminate; intros _ _ _;
    try (intros; assumption); try apply feq_trans.
  intros H1 H2. apply String.eqb_eq in H1, H2. apply String.eqb_eq. congruence.
Qed.

(** How a container finds an item: on the values that can be hashed, an
    equivalence. *)
Lemma same_cases a b : Py.same a b = true -> a = b \/ Py.eq a b = true.
Proof.
  unfold Py.same. destruct (Py.same_nan a b) eqn:E; [| auto].
  intros _. left.
  destruct a as [| | | [i | |] | | |], b as [| | | [j | |] | | |]; try discriminate.
  simpl in E. apply Nat.eqb_eq in E. subst. reflexivity.
Qed.

Lemma same_nan_sym a b : Py.same_nan a b = Py.same_nan b a.
Proof.
  destruct a as [| | | [i | |] | | |], b as [| | | [j | |] | | |]; try reflexivity.
  simpl. apply Nat.eqb_sym.
Qed.

Lemma py_same_refl a : Py.hashable a = true -> Py.same a a = true.
Proof.
  destruct a as [| b | z | [i | s | q] | s | d | l]; try discriminate; intros _;
    unfold Py.same; simpl.
  - reflexivity.
  - apply Qeq_bool_refl.
  - apply Qeq_bool_refl.
  - rewrite Nat.eqb_refl. reflexivity.
  - apply Bool.eqb_reflx.
  - apply Qeq_bool_refl.
  - apply String.eqb_refl.
Qed.

Lemma py_same_sym a b :
  Py.hashable a = true -> Py.hashable b = true -> Py.same a b = Py.same b a.
Proof.
  intros Ha Hb. unfold Py.same. rewrite same_nan_sym, (py_eq_sym a b Ha Hb). reflexivity.
Qed.

Lemma py_same_trans a b c :
  Py.hashable a = true -> Py.hashable b = true -> Py.hashable c = true ->
  Py.same a b = true -> Py.same b c = true -> Py.same a c = true.
Proof.
  intros Ha Hb Hc Hab Hbc.
  destruct (same_cases _ _ Hab) as [-> | Eab]; [exact Hbc |].
  destruct (same_cases _ _ Hbc) as [<- | Ebc]; [exact Hab |].
  unfold Py.same. rewrite (py_eq_trans a b c Ha Hb Hc Eab Ebc). apply orb_true_r.
Qed.

(** ** The cross-record check *)

Section ConsistencyFacts.
Context {RT : PyRuntime}.
Import Validator.

Lemma has_In_keys {V} f (d : list (string * V)) : Py.has f d = true <-> In f (Py.keys d).
Proof.
  unfold Py.has. induction d as [| [k v] d IH]; simpl.
  - split; [discriminate | tauto].
  - destruct (String.eqb f k) eqn:E.
    + apply String.eqb_eq in E. subst. tauto.
    + apply String.eqb_neq in E. rewrite IH. split; [auto | intros [? | ?]; congruence].
Qed.

Lemma mem_In f l : Py.mem f l = true <-> In f l.
Proof.
  unfold Py.mem. rewrite existsb_exists. split.
  - intros (x & Hx & E). apply String.eqb_eq in E. subst. exact Hx.
  - intros H. exists f. split; [exact H | apply String.eqb_refl].
Qed.




Lemma add_issue_entry_In rid message d :
  exists k entry,
    In (k, entry) (add_issue_entry rid Warnings message d)
    /\ (k = rid \/ Py.eq rid k = true)
    /\ In message (issue_warnings entry).
Proof.
  induction d as [| [k i] d (k' & e' & Hin & Hk & Hm)]; simpl.
  - exists rid. eexists. split; [left; reflexivity |]. split; [auto |]. simpl. auto.
  - destruct (Py.same rid k) eqn:E.
    + exists k. eexists. split; [left; reflexivity |].
      split; [destruct (same_cases _ _ E); auto |].
      simpl. apply in_or_app. simpl. auto.
    + exists k', e'. split; [right; exact Hin | auto].
Qed.

Lemma add_issue_entry_keeps rid message d k entry m :
  In (k, entry) d -> In m (issue_warnings entry) ->
  exists entry',
    In (k, entry') (add_issue_entry rid Warnings message d)
    /\ In m (issue_warnings entry').
Proof.
  induction d as [| [k0 i0] d IH]; simpl; [tauto |].
  intros [E | Hin] Hm.
  - inversion E; subst. destruct (Py.same rid k).
    + eexists. split; [left; reflexivity |]. simpl. apply in_or_app. auto.
    + exists entry. split; [left; reflexivity | exact Hm].
  - destruct (Py.same rid k0).
    + exists entry. split; [right; exact Hin | exact Hm].
    + destruct (IH Hin Hm) as (e' & Hin' & Hm'). exists e'. split; [right |]; assumption.
Qed.

Lemma add_issue_entry_origin rid message d k entry m :
  In (k, entry) (add_issue_entry rid Warnings message d) ->
  In m (issue_warnings entry) ->
  m = message \/ exists entry0, In (k, entry0) d /\ In m (issue_warnings entry0).
Proof.
  induction d as [| [k0 i0] d IH]; simpl.
  - intros [E | []] Hm. inversion E; subst. simpl in Hm. destruct Hm as [<- | []]. auto.
  - destruct (Py.same rid k0); simpl.
    + intros [E | Hin] Hm.
      * inversion E; subst. simpl in Hm. apply in_app_or in Hm.
        destruct Hm as [Hm | [<- | []]]; [right | left; reflexivity].
        exists i0. auto.
      * right. exists entry. auto.
    + intros [E | Hin] Hm.
      * inversion E; subst. right. exists entry. auto.
      * destruct (IH Hin Hm) as [-> | (e0 & H0 & Hm0)]; [auto | right].
        exists e0. auto.
Qed.

Lemma add_issue_entry_error_sum rid message d :
  error_sum (add_issue_entry rid Warnings message d) = error_sum d.
Proof.
  unfold error_sum. induction d as [| [k i] d IH]; simpl; [reflexivity |].
  destruct (Py.same rid k); simpl; [reflexivity | rewrite IH; reflexivity].
Qed.

(** One turn of the presence check. *)
Lemma check_presence_step all i record res :
  Py.hashable (record_id_of i record) = true ->
  exists res1,
    check_presence all i record res = Ok res1
    /\ errors res1 = errors res /\ warnings res1 = warnings res
    /\ error_sum (record_issues res1) = error_sum (record_issues res)
    /\ (missing_fields all record <> [] ->
        exists k entry,
          In (k, entry) (record_issues res1)
          /\ (k = record_id_of i record \/ Py.eq (record_id_of i record) k = true)
          /\ In (missing_message (missing_fields all record)) (issue_warnings entry))
    /\ (forall k entry m,
          In (k, entry) (record_issues res) -> In m (issue_warnings entry) ->
          exists entry', In (k, entry') (record_issues res1)
                         /\ In m (issue_warnings entry'))
    /\ (forall k entry m,
          In (k, entry) (record_issues res1) -> In m (issue_warnings entry) ->
          m = missing_message (missing_fields all record)
          \/ exists entry0, In (k, entry0) (record_issues res)
                            /\ In m (issue_warnings entry0)).
Proof.
  intros Hhash. unfold check_presence.
  destruct (missing_fields all record) as [| f fs] eqn:Emiss.
  - exists res. repeat split; auto.
    + intros H. congruence.
    + intros k entry m H1 H2. exists entry. auto.
    + intros k entry m H1 H2. right. exists entry. auto.
  - unfold _add_record_issue. rewrite Hhash.
    eexists. split; [reflexivity |]. simpl. repeat split; auto.
    + apply add_issue_entry_error_sum.
    + intros _. apply add_issue_entry_In.
    + intros k entry m. apply add_issue_entry_keeps.
    + intros k entry m. apply add_issue_entry_origin.
Qed.

Lemma hashable_from_tail i record data :
  hashable_from i (record :: data) ->
  Py.hashable (record_id_of i record) = true /\ hashable_from (S i) data.
Proof.
  intros H. split.
  - specialize (H 0%nat record eq_refl). rewrite Nat.add_0_r in H. exact H.
  - intros j r Hj. specialize (H (S j) r Hj). rewrite Nat.add_succ_r in H. exact H.
Qed.

(** The loop of the presence check: it returns when every identifier can be
    hashed, adds no error and no global issue, gives every record that lacks
    fields its warning, keeps the warnings that were there, and adds nothing
    else. *)
Lemma presence_loop all data : forall i res,
  hashable_from i data ->
  exists res',
    for_enumerate (check_presence all) i data res = Ok res'
    /\ errors res' = errors res
    /\ warnings res' = warnings res
    /\ error_sum (record_issues res') = error_sum (record_issues res)
    /\ (forall j record,
          nth_error data j = Some record -> missing_fields all record <> [] ->
          exists k entry,
            In (k, entry) (record_issues res')
            /\ (k = record_id_of (i + j) record
                \/ Py.eq (record_id_of (i + j) record) k = true)
            /\ In (missing_message (missing_fields all record)) (issue_warnings entry))
    /\ (forall k entry m,
          In (k, entry) (record_issues res) -> In m (issue_warnings entry) ->
          exists entry', In (k, entry') (record_issues res')
                         /\ In m (issue_warnings entry'))
    /\ (forall k entry m,
          In (k, entry) (record_issues res') -> In m (issue_warnings entry) ->
          (exists entry0, In (k, entry0) (record_issues res)
                          /\ In m (issue_warnings entry0))
          \/ (exists record, In record data
                             /\ m = missing_message (missing_fields all record))).
Proof.
  induction data as [| record data IH]; intros i res Hhash.
  - exists res. simpl. repeat split; auto.
    + intros [| j] ? H; discriminate.
    + intros k entry m Hin Hm. exists entry. auto.
    + intros k entry m Hin Hm. left. exists entry. auto.
  - apply hashable_from_tail in Hhash. destruct Hhash as [Hhead Htail].
    destruct (check_presence_step all i record res Hhead)
      as (res1 & Hrun & He & Hw & Hs & Hnew & Hkeep & Horigin).
    destruct (IH (S i) res1 Htail)
      as (res' & Hrun' & He' & Hw' & Hs' & Hall & Hkeep' & Hback).
    exists res'. simpl. rewrite Hrun. simpl. split; [exact Hrun' |].
    split; [congruence |]. split; [congruence |]. split; [congruence |].
    split; [| split].
    + intros [| j] r Hj Hmiss.
      * inversion Hj; subst r. rewrite Nat.add_0_r.
        destruct (Hnew Hmiss) as (k & entry & Hin & Hk & Hm).
        destruct (Hkeep' k entry _ Hin Hm) as (entry' & Hin' & Hm').
        exists k, entry'. auto.
      * destruct (Hall j r Hj Hmiss) as (k & entry & Hin & Hk & Hm).
        exists k, entry. rewrite Nat.add_succ_r. auto.
    + intros k entry m Hin Hm.
      destruct (Hkeep k entry m Hin Hm) as (entry1 & Hin1 & Hm1).
      apply (Hkeep' k entry1 m Hin1 Hm1).
    + intros k entry m Hin Hm.
      destruct (Hback k entry m Hin Hm) as [(e1 & Hin1 & Hm1) | (r & Hr & ->)].
      * destruct (Horigin k e1 m Hin1 Hm1) as [-> | H0].
        -- right. exists record. simpl. auto.
        -- left. exact H0.
      * right. exists r. simpl. auto.
Qed.

End ConsistencyFacts.

Section DuplicateFacts.
Context {RT : PyRuntime}.
Import Validator.

Lemma record_ids_hashable data :
  hashable_ids data -> Forall (fun v => Py.hashable v = true) (record_ids data).
Proof.
  intros H. apply Forall_forall. intros v Hv.
  unfold record_ids in Hv. apply in_flat_map in Hv. destruct Hv as (record & Hr & Hv).
  destruct (In_nth_error _ _ Hr) as (i & Hi).
  specialize (H i record Hi). unfold record_id_of, Py.get_default in H.
  destruct (Py.get "record_id" record) as [v' |]; [| destruct Hv].
  destruct Hv as [<- | []]. exact H.
Qed.

Lemma count_eq_compat v x l :
  Py.hashable v = true -> Py.hashable x = true ->
  Forall (fun y => Py.hashable y = true) l ->
  Py.same v x = true -> count Py.same v l = count Py.same x l.
Proof.
  intros Hv Hx Hl E. unfold count. f_equal.
  induction Hl as [| y l Hy _ IH]; simpl; [reflexivity |].
  assert (Py.same v y = Py.same x y) as ->.
  { destruct (Py.same v y) eqn:E1, (Py.same x y) eqn:E2; try reflexivity.
    - rewrite py_same_sym in E by assumption.
      rewrite (py_same_trans x v y Hx Hv Hy E E1) in E2. discriminate.
    - rewrite (py_same_trans v x y Hv Hx Hy E E2) in E1. discriminate. }
  rewrite IH. reflexivity.
Qed.

(** The set of repeated identifiers holds each shared identifier once, and
    nothing else. *)
Lemma duplicate_ids_spec data :
  hashable_ids data ->
  exists dups,
    duplicate_ids data = Ok dups
    /\ (forall v, In v (record_ids data) ->
                  (2 <= count Py.same v (record_ids data))%nat ->
                  count Py.same v dups = 1%nat)
    /\ (forall d, In d dups ->
                  In d (record_ids data)
                  /\ (2 <= count Py.same d (record_ids data))%nat).
Proof.
  intros Hhash. pose proof (record_ids_hashable Hhash) as Hids.
  assert (Hrep : Forall (fun v => Py.hashable v = true) (repeated_ids data)).
  { apply Forall_forall. intros v Hv. unfold repeated_ids in Hv.
    apply filter_In in Hv. rewrite Forall_forall in Hids. apply Hids, Hv. }
  exists (dedup Py.same (repeated_ids data)). split; [| split].
  - unfold duplicate_ids.
    replace (forallb Py.hashable (repeated_ids data)) with true; [reflexivity |].
    symmetry. apply forallb_forall. rewrite Forall_forall in Hrep. exact Hrep.
  - intros v Hv Hcount.
    assert (Pv : Py.hashable v = true) by (rewrite Forall_forall in Hids; auto).
    rewrite (@count_dedup _ Py.same (fun v => Py.hashable v = true)
               py_same_sym py_same_trans) by assumption.
    replace (existsb (Py.same v) (repeated_ids data)) with true; [reflexivity |].
    symmetry.
    assert (Hex : existsb (Py.same v) (record_ids data) = true).
    { rewrite count_pos_existsb. apply Nat.ltb_lt. lia. }
    apply existsb_exists in Hex. destruct Hex as (x & Hx & E).
    apply existsb_exists. exists x. split; [| exact E].
    unfold repeated_ids. apply filter_In. split; [exact Hx |].
    apply Nat.ltb_lt.
    assert (Px : Py.hashable x = true) by (rewrite Forall_forall in Hids; auto).
    rewrite <- (count_eq_compat v x Pv Px Hids E). lia.
  - intros d Hd. apply dedup_incl in Hd. unfold repeated_ids in Hd.
    apply filter_In in Hd. destruct Hd as [Hin Hc]. apply Nat.ltb_lt in Hc.
    split; [exact Hin | lia].
Qed.





End DuplicateFacts.

(** ** Strings: facts *)

Lemma str_app_nil_r (s : string) : s ++ "" = s.
Proof. induction s as [| c s IH]; simpl; [reflexivity | rewrite IH; reflexivity]. Qed.

Lemma str_app_assoc (a b c : string) : (a ++ b) ++ c = a ++ (b ++ c).
Proof. induction a as [| x a IH]; simpl; [reflexivity | rewrite IH; reflexivity]. Qed.

Lemma str_length_app (a b : string) :
  String.length (a ++ b) = (String.length a + String.length b)%nat.
Proof. induction a as [| x a IH]; simpl; [reflexivity | rewrite IH; reflexivity]. Qed.

Lemma str_drop_app (a b : string) : Str.drop (String.length a) (a ++ b) = b.
Proof. induction a as [| x a IH]; simpl; [destruct b; reflexivity | exact IH]. Qed.

Lemma str_prefix_app (a b : string) : String.prefix a (a ++ b) = true.
Proof.
  induction a as [| x a IH]; simpl; [destruct b; reflexivity |].
  destruct (ascii_dec x x); [exact IH | congruence].
Qed.

Lemma str_mem_app c (a b : string) : Str.mem c (a ++ b) = Str.mem c a || Str.mem c b.
Proof.
  induction a as [| x a IH]; simpl; [reflexivity |].
  rewrite IH, orb_assoc. reflexivity.
Qed.

Lemma str_length_stars n : String.length (Str.stars n) = n.
Proof. induction n as [| n IH]; simpl; [reflexivity | rewrite IH; reflexivity]. Qed.

Lemma split_no_sep c s : Str.mem c s = false -> Str.split c s = [s].
Proof.
  induction s as [| d s IH]; simpl; [reflexivity |].
  intros H. apply orb_false_iff in H. destruct H as [Hd Hs].
  rewrite Ascii.eqb_sym, Hd, (IH Hs). reflexivity.
Qed.

Lemma split_app_sep c l t :
  Str.mem c l = false -> Str.split c (l ++ String c t) = l :: Str.split c t.
Proof.
  induction l as [| d l IH]; simpl.
  - intros _. rewrite Ascii.eqb_refl. reflexivity.
  - intros H. apply orb_false_iff in H. destruct H as [Hd Hl].
    rewrite Ascii.eqb_sym, Hd, (IH Hl). reflexivity.
Qed.

(** A text up to its first [c]. *)
Lemma split_first c s :
  exists d rest,
    s = d ++ rest /\ Str.mem c d = false
    /\ (rest = "" \/ exists r, rest = String c r)
    /\ nth 0 (Str.split c s) "" = d.
Proof.
  induction s as [| x s (d & rest & Hs & Hd & Hrest & Hnth)].
  - exists "", "". simpl. auto.
  - simpl. destruct (Ascii.eqb x c) eqn:E.
    + apply Ascii.eqb_eq in E. subst x. exists "", (String c s). simpl.
      repeat split; eauto.
    + exists (String x d), rest. simpl. rewrite Ascii.eqb_sym, E, Hd. subst s.
      repeat split; auto.
      destruct (Str.split c (d ++ rest)); simpl in *; congruence.
Qed.

Lemma length_ends_2 a b c d (mid : string) :
  String.length (String a (String b (mid ++ String c (String d ""))))
  = (String.length mid + 4)%nat.
Proof. simpl. rewrite str_length_app. simpl. lia. Qed.

Lemma length_ends_1 a b (mid : string) :
  String.length (String a (mid ++ String b "")) = (String.length mid + 2)%nat.
Proof. simpl. rewrite str_length_app. simpl. lia. Qed.

Lemma length_nonempty (s : string) : s <> "" -> (1 <= String.length s)%nat.
Proof. destruct s; [congruence | simpl; lia]. Qed.

(** The two ends of a text and its middle: [s[0:2] + '*' * (len(s) - 4) +
    s[-2:]] masks exactly the middle. *)
Lemma mask_middle_2 a b c d (mid : string) :
  let s := String a (String b (mid ++ String c (String d ""))) in
  Str.take 2 s ++ Str.stars (String.length s - 4) ++ Str.take_last 2 s
  = String a (String b (Str.stars (String.length mid) ++ String c (String d ""))).
Proof.
  intros s.
  assert (Hlen : String.length s = (String.length mid + 4)%nat)
    by apply length_ends_2.
  unfold Str.take_last. rewrite Hlen.
  replace (String.length mid + 4 - 4)%nat with (String.length mid) by lia.
  replace (String.length mid + 4 - 2)%nat
    with (String.length (String a (String b mid))) by (simpl; lia).
  unfold s.
  change (String a (String b (mid ++ String c (String d ""))))
    with (String a (String b mid) ++ String c (String d "")).
  rewrite str_drop_app. reflexivity.
Qed.

(** [s[0] + '*' * (len(s) - 2) + s[-1]] likewise. *)
Lemma mask_middle_1 a b (mid : string) :
  let s := String a (mid ++ String b "") in
  Str.take 1 s ++ Str.stars (String.length s - 2) ++ Str.take_last 1 s
  = String a (Str.stars (String.length mid) ++ String b "").
Proof.
  intros s.
  assert (Hlen : String.length s = (String.length mid + 2)%nat)
    by apply length_ends_1.
  unfold Str.take_last. rewrite Hlen.
  replace (String.length mid + 2 - 2)%nat with (String.length mid) by lia.
  replace (String.length mid + 2 - 1)%nat
    with (String.length (String a mid)) by (simpl; lia).
  unfold s.
  change (String a (mid ++ String b "")) with (String a mid ++ String b "").
  rewrite str_drop_app. reflexivity.
Qed.

(** ** Redaction *)

Section RedactionFacts.
Import Security.

Lemma split_email local domain rest :
  Str.mem "@" local = false -> Str.mem "@" domain = false ->
  rest = "" \/ (exists r, rest = String "@" r) ->
  let value := local ++ "@" ++ domain ++ rest in
  Str.mem "@" value = true
  /\ nth 0 (Str.split "@" value) "" = local
  /\ nth 1 (Str.split "@" value) "" = domain.
Proof.
  intros Hl Hd Hrest value. unfold value.
  change ("@" ++ domain ++ rest) with (String "@" (domain ++ rest)).
  rewrite str_mem_app, split_app_sep by exact Hl. simpl.
  rewrite orb_true_r. repeat split.
  destruct Hrest as [-> | [r ->]].
  - rewrite str_app_nil_r, split_no_sep by exact Hd. reflexivity.
  - rewrite split_app_sep by exact Hd. reflexivity.
Qed.

Lemma email_test_iff value :
  Str.mem "@" value && Str.mem "." (nth 1 (Str.split "@" value) "") = true
  <-> email_shaped value.
Proof.
  split.
  - intros H. apply andb_true_iff in H. destruct H as [Hat Hdot].
    destruct (split_first "@" value) as (local & tail & Hv & Hl & Htail & _).
    destruct Htail as [-> | [r ->]].
    { rewrite str_app_nil_r in Hv. subst. congruence. }
    destruct (split_first "@" r) as (domain & rest & Hr & Hd & Hrest & Hnth).
    subst value. rewrite split_app_sep in Hdot by exact Hl. simpl in Hdot.
    rewrite Hnth in Hdot. exists local, domain, rest. subst r. auto.
  - intros (local & domain & rest & -> & Hl & Hd & Hdot & Hrest).
    destruct (@split_email local domain rest Hl Hd Hrest) as (H1 & _ & H2).
    rewrite H1, H2, Hdot. reflexivity.
Qed.

Lemma drop_while_app p body rest :
  Str.forallb p body = true -> drop_while p (body ++ rest) = drop_while p rest.
Proof.
  induction body as [| c body IH]; simpl; [reflexivity |].
  intros H. apply andb_true_iff in H. destruct H as [Hc Hb]. rewrite Hc. auto.
Qed.

Lemma drop_while_split p s :
  exists body, s = body ++ drop_while p s /\ Str.forallb p body = true.
Proof.
  induction s as [| c s (body & Hs & Hb)]; simpl.
  - exists "". auto.
  - destruct (p c) eqn:E.
    + exists (String c body). simpl. rewrite E, Hb, <- Hs. auto.
    + exists "". auto.
Qed.

Lemma matches_phone_iff value : matches_phone value = true <-> phone_shaped value.
Proof.
  split.
  - destruct value as [| c v]; simpl; [discriminate |].
    intros H. apply andb_true_iff in H. destruct H as [Hc Hrest].
    destruct (drop_while_split phone_char (String c v)) as (body & Hs & Hb).
    exists body. split; [| split; [exact Hb |]].
    + intros ->. simpl in Hs. rewrite Hc in Hs.
      assert (Hlen := f_equal String.length Hs). simpl in Hlen.
      destruct (drop_while_split phone_char v) as (b' & Hv & _).
      rewrite Hv in Hlen at 1. rewrite str_length_app in Hlen. lia.
    + apply orb_true_iff in Hrest. simpl in Hs.
      destruct Hrest as [E | E]; apply String.eqb_eq in E; simpl in E;
        rewrite E in Hs; [left | right]; [rewrite str_app_nil_r in Hs |]; exact Hs.
  - intros (body & Hne & Hb & Hv).
    assert (Hdrop : drop_while phone_char value = "" \/ drop_while phone_char value = newline).
    { destruct Hv as [-> | ->].
      - left. rewrite <- (str_app_nil_r body), drop_while_app by exact Hb. reflexivity.
      - right. rewrite drop_while_app by exact Hb. reflexivity. }
    destruct body as [| c body]; [congruence |].
    simpl in Hb. apply andb_true_iff in Hb. destruct Hb as [Hc _].
    assert (Hhead : exists v, value = String c v).
    { destruct Hv as [-> | ->]; simpl; eauto. }
    destruct Hhead as (v & Hvalue). unfold matches_phone. rewrite Hvalue at 1.
    rewrite Hc. simpl. destruct Hdrop as [-> | ->]; reflexivity.
Qed.

(** C6, as the code has it: an empty text passes through; an email-shaped
    text keeps the first and last character of its local part around a
    masked middle when the local part has more than two characters and has
    the local part masked whole otherwise, then [@] and the domain up to any
    further [@]; a text of digits, hyphens and parentheses that is not
    email-shaped keeps its first two and last two digits around a masked
    middle when it has more than four digits and becomes one star per digit
    otherwise; any other text keeps its first two and last two characters
    around a masked middle when it is longer than six and is masked whole
    otherwise. *)
Theorem redact_phi_cases (value : string) :
  (value = "" -> _redact_phi value = "")
  /\ (forall local domain rest,
        value = local ++ "@" ++ domain ++ rest ->
        Str.mem "@" local = false -> Str.mem "@" domain = false ->
        Str.mem "." domain = true ->
        rest = "" \/ (exists r, rest = String "@" r) ->
        (forall a mid b,
           local = String a (mid ++ String b "") -> mid <> "" ->
           _redact_phi value
           = String a (Str.stars (String.length mid) ++ String b "") ++ "@" ++ domain)
        /\ ((String.length local <= 2)%nat ->
            _redact_phi value = Str.stars (String.length local) ++ "@" ++ domain))
  /\ (~ email_shaped value -> phone_shaped value ->
      (forall a b mid c d,
         Str.filter Str.is_digit value
         = String a (String b (mid ++ String c (String d ""))) ->
         mid <> "" ->
         _redact_phi value
         = String a (String b (Str.stars (String.length mid) ++ String c (String d ""))))
      /\ ((String.length (Str.filter Str.is_digit value) <= 4)%nat ->
          _redact_phi value
          = Str.stars (String.length (Str.filter Str.is_digit value))))
  /\ (value <> "" -> ~ email_shaped value -> ~ phone_shaped value ->
      (forall a b mid c d,
         value = String a (String b (mid ++ String c (String d ""))) ->
         (3 <= String.length mid)%nat ->
         _redact_phi value
         = String a (String b (Str.stars (String.length mid) ++ String c (String d ""))))
      /\ ((String.length value <= 6)%nat ->
          _redact_phi value = Str.stars (String.length value))).
Proof.
  split; [intros ->; reflexivity |]. split; [| split].
  - intros local domain rest Hv Hl Hd Hdot Hrest.
    assert (Hne : String.eqb value "" = false).
    { apply String.eqb_neq. subst. destruct local; discriminate. }
    destruct (@split_email local domain rest Hl Hd Hrest) as (H1 & H0 & H2).
    rewrite <- Hv in H1, H0, H2.
    unfold _redact_phi. cbv zeta. rewrite Hne, H1, H2, Hdot, H0. cbn [andb]. split.
    + intros a mid b Hlocal Hmid.
      assert (Hlen : (2 <? String.length local)%nat = true).
      { apply Nat.ltb_lt. rewrite Hlocal, length_ends_1.
        pose proof (length_nonempty Hmid). lia. }
      rewrite Hlen, Hlocal, (mask_middle_1 a b mid). reflexivity.
    + intros Hlen. apply Nat.ltb_ge in Hlen. rewrite Hlen. reflexivity.
  - intros Hnot Hphone.
    assert (Hne : String.eqb value "" = false).
    { apply String.eqb_neq. destruct Hphone as (body & Hb & _ & [-> | ->]);
        destruct body; congruence || discriminate. }
    assert (Hemail : Str.mem "@" value
                     && Str.mem "." (nth 1 (Str.split "@" value) "") = false).
    { apply not_true_iff_false. rewrite email_test_iff. exact Hnot. }
    apply matches_phone_iff in Hphone.
    unfold _redact_phi. cbv zeta. rewrite Hne, Hemail, Hphone. split.
    + intros a b mid c d Hdigits Hmid.
      assert (Hlen : (4 <? String.length (Str.filter Str.is_digit value))%nat = true).
      { apply Nat.ltb_lt. rewrite Hdigits, length_ends_2.
        pose proof (length_nonempty Hmid). lia. }
      rewrite Hlen, Hdigits. apply mask_middle_2.
    + intros Hlen. apply Nat.ltb_ge in Hlen. rewrite Hlen. reflexivity.
  - intros Hne Hnot Hnotphone.
    apply String.eqb_neq in Hne.
    assert (Hemail : Str.mem "@" value
                     && Str.mem "." (nth 1 (Str.split "@" value) "") = false).
    { apply not_true_iff_false. rewrite email_test_iff. exact Hnot. }
    assert (Hphone : matches_phone value = false).
    { apply not_true_iff_false. rewrite matches_phone_iff. exact Hnotphone. }
    unfold _redact_phi. cbv zeta. rewrite Hne, Hemail, Hphone. split.
    + intros a b mid c d Hv Hmid.
      assert (Hlen : (6 <? String.length value)%nat = true).
      { apply Nat.ltb_lt. rewrite Hv, length_ends_2. lia. }
      rewrite Hlen. rewrite Hv at 1 2 3. rewrite (mask_middle_2 a b c d mid).
      reflexivity.
    + intros Hlen. apply Nat.ltb_ge in Hlen. rewrite Hlen. reflexivity.
Qed.

End RedactionFacts.

(** ** What a stage leaves alone *)

Section Frame.

Lemma frame_same_heap n w w' : heap w' = heap w -> frame n w w'.
Proof. intros E. unfold frame. rewrite E. split; [reflexivity | apply le_n]. Qed.

Lemma frame_refl n w : frame n w w.
Proof. apply frame_same_heap. reflexivity. Qed.

Lemma frame_trans n w1 w2 w3 : frame n w1 w2 -> frame n w2 w3 -> frame n w1 w3.
Proof. intros [H1 L1] [H2 L2]. split; [congruence | lia]. Qed.

Lemma keeps_ret {A} n (a : A) (Q : A -> Prop) : Q a -> keeps n (ret a) Q.
Proof.
  intros HQ w _. split; [apply frame_refl |]. simpl. intros b E. inversion E; subst. exact HQ.
Qed.

Lemma keeps_raise {A} n e (Q : A -> Prop) : keeps n (raise e) Q.
Proof. intros w _. split; [apply frame_refl |]. simpl. discriminate. Qed.

Lemma keeps_lift {A} n (r : result A) : keeps n (lift r) (fun _ => True).
Proof. intros w _. split; [apply frame_refl | auto]. Qed.

Lemma keeps_bind {A B} n (m : M A) (k : A -> M B) (Q : A -> Prop) (R : B -> Prop) :
  keeps n m Q -> (forall a, Q a -> keeps n (k a) R) -> keeps n (bind m k) R.
Proof.
  intros Hm Hk w Hn. unfold bind.
  destruct (Hm w Hn) as [Hf HQ]. destruct (m w) as [[a | e] w1]; simpl in *.
  - destruct (Hk a (HQ a eq_refl) w1) as [Hf' HR]; [destruct Hf; lia |].
    split; [eapply frame_trans; eauto | exact HR].
  - split; [exact Hf | discriminate].
Qed.

Lemma keeps_try_except {A} n (attempt : M A) (handler : exn -> M A) (Q : A -> Prop) :
  keeps n attempt Q -> (forall e, keeps n (handler e) Q) ->
  keeps n (try_except attempt handler) Q.
Proof.
  intros Hm Hh w Hn. unfold try_except.
  destruct (Hm w Hn) as [Hf HQ]. destruct (attempt w) as [[a | e] w1]; simpl in *.
  - split; [exact Hf | exact HQ].
  - destruct (is_exception e).
    + destruct (Hh e w1) as [Hf' HR]; [destruct Hf; lia |].
      split; [eapply frame_trans; eauto | exact HR].
    + split; [exact Hf | discriminate].
Qed.

Lemma keeps_weaken {A} n (m : M A) (Q Q' : A -> Prop) :
  keeps n m Q -> (forall a, Q a -> Q' a) -> keeps n m Q'.
Proof.
  intros Hm HQ w Hn. destruct (Hm w Hn) as [Hf H]. split; [exact Hf | auto].
Qed.

Lemma keeps_logger n l message : keeps n (logger l message) (fun _ => True).
Proof. intros w _. split; [apply frame_same_heap; reflexivity | auto]. Qed.

Lemma keeps_read n a : keeps n (read a) (fun _ => True).
Proof. intros w _. split; [apply frame_refl | auto]. Qed.

Lemma keeps_read_all n l : keeps n (read_all l) (fun _ => True).
Proof. intros w _. split; [apply frame_refl | auto]. Qed.

Lemma keeps_draw n : keeps n draw (fun _ => True).
Proof. intros w _. split; [apply frame_same_heap; reflexivity | auto]. Qed.

(** A new object lies beyond the first [n]. *)
Lemma keeps_alloc n d : keeps n (alloc d) (fun a => (n <= a)%nat).
Proof.
  intros w Hn. split.
  - split; simpl.
    + rewrite firstn_app. replace (n - List.length (heap w))%nat with 0%nat by lia.
      simpl. apply app_nil_r.
    + rewrite length_app. lia.
  - simpl. intros a E. inversion E; subst. exact Hn.
Qed.

Lemma firstn_update {A} (f : A -> A) : forall n a (h : list A),
  (n <= a)%nat -> firstn n (update a f h) = firstn n h.
Proof.
  induction n as [| n IH]; intros a h Hle; [reflexivity |].
  destruct a as [| a]; [lia |].
  destruct h as [| d h]; [reflexivity |].
  simpl. rewrite IH by lia. reflexivity.
Qed.

Lemma length_update {A} (f : A -> A) : forall a (h : list A),
  List.length (update a f h) = List.length h.
Proof.
  intros a h. revert a. induction h as [| d h IH]; intros a.
  - destruct a; reflexivity.
  - destruct a; simpl; [reflexivity | rewrite IH; reflexivity].
Qed.

(** A write through a reference beyond the first [n] leaves them alone. *)
Lemma keeps_write n a k v : (n <= a)%nat -> keeps n (write a k v) (fun _ => True).
Proof.
  intros Ha w _. split; [| auto]. split; simpl.
  - apply firstn_update, Ha.
  - rewrite length_update. apply le_n.
Qed.

Lemma keeps_for_each_M {A} n (body : A -> M unit) l :
  (forall x, keeps n (body x) (fun _ => True)) ->
  keeps n (for_each_M body l) (fun _ => True).
Proof.
  intros Hbody. induction l as [| x l IH]; simpl.
  - apply keeps_ret. exact I.
  - eapply keeps_bind; [apply Hbody | intros _ _; exact IH].
Qed.

Lemma keeps_collect_M {A B} n (body : A -> M (list B)) (P : B -> Prop) l :
  (forall x, keeps n (body x) (Forall P)) ->
  keeps n (collect_M body l) (Forall P).
Proof.
  intros Hbody. induction l as [| x l IH]; simpl.
  - apply keeps_ret. constructor.
  - eapply keeps_bind; [apply Hbody |]. intros ys Hys.
    eapply keeps_bind; [exact IH |]. intros zs Hzs.
    apply keeps_ret. apply Forall_app. auto.
Qed.

End Frame.

Section StageFrames.
Context {RT : PyRuntime}.
Import Security Mapper.

Lemma keeps_secure_field n self a field :
  (n <= a)%nat -> keeps n (secure_field self a field) (fun _ => True).
Proof.
  intros Ha. unfold secure_field.
  eapply keeps_bind; [apply keeps_read |]. intros d _.
  destruct (Py.get field d) as [v |]; [| apply keeps_ret; exact I].
  destruct (Py.truthy v); [| apply keeps_ret; exact I].
  destruct (cipher self) as [key |]; [| apply keeps_write, Ha].
  eapply keeps_bind; [apply keeps_draw |]. intros r _.
  eapply keeps_bind; [apply keeps_write, Ha |]. intros _ _.
  apply keeps_write, Ha.
Qed.

Lemma keeps_secure_record n self record :
  keeps n (secure_record self record) (Forall (fun b => (n <= b)%nat)).
Proof.
  unfold secure_record.
  eapply keeps_bind; [apply keeps_read |]. intros d _.
  eapply keeps_bind; [apply keeps_alloc |]. intros a Ha.
  eapply keeps_bind;
    [apply keeps_for_each_M; intros field; apply keeps_secure_field, Ha |].
  intros _ _. apply keeps_ret. constructor; [exact Ha | constructor].
Qed.

Lemma keeps_secure_phi_data n self data :
  keeps n (_secure_phi_data self data)
        (fun out => Forall (fun b => (n <= b)%nat) (snd out)).
Proof.
  unfold _secure_phi_data.
  eapply keeps_bind with (Q := fun _ => True).
  - destruct (phi_fields self); [| apply keeps_ret; exact I].
    eapply keeps_bind with (Q := fun _ => True).
    + unfold _detect_phi_fields. destruct data; [apply keeps_ret; exact I |].
      eapply keeps_bind; [apply keeps_read |]. intros d _. apply keeps_ret. exact I.
    + intros detected _. eapply keeps_bind; [apply keeps_logger |].
      intros _ _. apply keeps_ret. exact I.
  - intros self' _.
    eapply keeps_bind;
      [apply keeps_collect_M; intros record; apply keeps_secure_record |].
    intros outs Houts. eapply keeps_bind; [apply keeps_logger |].
    intros _ _. apply keeps_ret. exact Houts.
Qed.

Lemma keeps_format_date n value date_format :
  keeps n (_format_date value date_format) (fun _ => True).
Proof.
  unfold _format_date.
  eapply keeps_bind; [apply keeps_lift |]. intros [|] _; [apply keeps_ret; exact I |].
  assert (Hauto : keeps n
            match first_parse (Py.str value) date_formats with
            | Some dt => ret (VStr (Py.strftime_ymd dt))
            | None =>
                bind (logger Warning ("Could not parse date value: " ++ Py.str value))
                     (fun _ => ret value)
            end (fun _ => True)).
  { destruct (first_parse _ _); [apply keeps_ret; exact I |].
    eapply keeps_bind; [apply keeps_logger |]. intros _ _. apply keeps_ret. exact I. }
  destruct date_format as [[| c fmt] |]; try exact Hauto.
  destruct (Py.strptime_str _ _); [apply keeps_ret; exact I |].
  eapply keeps_bind; [apply keeps_logger |]. intros _ _. apply keeps_ret. exact I.
Qed.

Lemma keeps_format_radio n value options :
  keeps n (_format_radio value options) (fun _ => True).
Proof.
  unfold _format_radio.
  eapply keeps_bind; [apply keeps_lift |]. intros [|] _; [apply keeps_ret; exact I |].
  destruct (find_code value options); [apply keeps_ret; exact I |].
  eapply keeps_bind; [apply keeps_logger |]. intros _ _. apply keeps_ret. exact I.
Qed.

Lemma keeps_apply_calculation n row formula :
  keeps n (_apply_calculation row formula) (fun _ => True).
Proof.
  unfold _apply_calculation.
  destruct formula as [[| c f] |]; try (apply keeps_ret; exact I).
  destruct (py_eval _); [apply keeps_ret; exact I | | apply keeps_raise].
  eapply keeps_bind; [apply keeps_logger |]. intros _ _. apply keeps_ret. exact I.
Qed.

Lemma keeps_map_field n field_map row target :
  (n <= target)%nat -> keeps n (_map_field field_map row target) (fun _ => True).
Proof.
  intros Ht. unfold _map_field.
  destruct (Py.get (source_field field_map) row) as [value |]; [| apply keeps_logger].
  eapply keeps_bind with (Q := fun _ => True); [| intros v _; apply keeps_write, Ht].
  repeat match goal with
         | |- keeps _ (if ?b then _ else _) _ => destruct b
         end;
    first [ apply keeps_format_date | apply keeps_format_radio
          | apply keeps_apply_calculation | apply keeps_lift
          | apply keeps_ret; exact I ].
Qed.

Lemma keeps_map_row n mapping row :
  keeps n (map_row mapping row) (Forall (fun b => (n <= b)%nat)).
Proof.
  unfold map_row.
  eapply keeps_bind; [apply keeps_alloc |]. intros record Hrecord.
  destruct (Py.get (record_id_field mapping) row) as [cell |].
  - eapply keeps_bind; [apply keeps_write, Hrecord |]. intros _ _.
    eapply keeps_bind;
      [apply keeps_for_each_M; intros fm; apply keeps_map_field, Hrecord |].
    intros _ _. apply keeps_ret. constructor; [exact Hrecord | constructor].
  - eapply keeps_bind; [apply keeps_logger |]. intros _ _. apply keeps_ret. constructor.
Qed.

Lemma keeps_map_data n mapping source_data :
  keeps n (map_data mapping source_data) (Forall (fun b => (n <= b)%nat)).
Proof.
  unfold map_data.
  eapply keeps_bind; [apply keeps_logger |]. intros _ _.
  apply keeps_try_except.
  - destruct (String.eqb (source_type mapping) "csv"); [| apply keeps_raise].
    eapply keeps_bind; [apply keeps_read_all |]. intros records _.
    eapply keeps_bind; [apply keeps_collect_M; intros row; apply keeps_map_row |].
    intros outs Houts. eapply keeps_bind; [apply keeps_logger |].
    intros _ _. apply keeps_ret. exact Houts.
  - intros e. eapply keeps_bind; [apply keeps_logger |]. intros _ _. apply keeps_raise.
Qed.

Lemma frame_nth_error w w' a :
  frame (List.length (heap w)) w w' -> (a < List.length (heap w))%nat ->
  nth_error (heap w') a = nth_error (heap w) a.
Proof.
  intros [Hf _] Ha.
  assert (H : nth_error (firstn (List.length (heap w)) (heap w')) a
              = nth_error (firstn (List.length (heap w)) (heap w)) a)
    by (rewrite Hf; reflexivity).
  rewrite !nth_error_firstn in H. apply Nat.ltb_lt in Ha. rewrite Ha in H. exact H.
Qed.

(** C9: whatever the store and the records handed in, after
    [_secure_phi_data] and after [map_data] every object that existed before
    the call, the input records among them, is what it was, and every record
    a stage returns is an object created during the call. *)
Theorem stages_leave_inputs_unchanged :
  (forall self data w,
     let run := _secure_phi_data self data w in
     (forall a, (a < List.length (heap w))%nat ->
                nth_error (heap (snd run)) a = nth_error (heap w) a)
     /\ (forall self' secured_data,
           fst run = Ok (self', secured_data) ->
           Forall (fun b => (List.length (heap w) <= b)%nat) secured_data))
  /\ (forall mapping source_data w,
        let run := map_data mapping source_data w in
        (forall a, (a < List.length (heap w))%nat ->
                   nth_error (heap (snd run)) a = nth_error (heap w) a)
        /\ (forall redcap_data,
              fst run = Ok redcap_data ->
              Forall (fun b => (List.length (heap w) <= b)%nat) redcap_data)).
Proof.
  split.
  - intros self data w run.
    destruct (@keeps_secure_phi_data (List.length (heap w)) self data w (le_n _))
      as [Hf Hout].
    split.
    + intros a Ha. apply frame_nth_error; assumption.
    + intros self' secured_data E. apply (Hout _ E).
  - intros mapping source_data w run.
    destruct (@keeps_map_data (List.length (heap w)) mapping source_data w (le_n _))
      as [Hf Hout].
    split.
    + intros a Ha. apply frame_nth_error; assumption.
    + intros redcap_data E. apply (Hout _ E).
Qed.

End StageFrames.

(** ** The secure operation, record by record *)

Section SecureFacts.
Context {RT : PyRuntime}.
Import Security.

Lemma secure_fields_pure_cons self field fields st :
  secure_fields_pure self (field :: fields) st
  = secure_fields_pure self fields (secure_field_pure self field st).
Proof. reflexivity. Qed.

Lemma deref_update_same {f : pydict -> pydict} : forall a h,
  (a < List.length h)%nat -> deref (update a f h) a = f (deref h a).
Proof.
  unfold deref. induction a as [| a IH]; intros [| d h] Hlt; simpl in *; try lia.
  - reflexivity.
  - apply IH. lia.
Qed.

Lemma update_update {A} (f g : A -> A) : forall a h,
  update a f (update a g h) = update a (fun x => f (g x)) h.
Proof.
  intros a h. revert a. induction h as [| d h IH]; intros [| a]; simpl; try reflexivity.
  rewrite IH. reflexivity.
Qed.

Lemma update_const {f : pydict -> pydict} : forall a h,
  (a < List.length h)%nat -> update a f h = update a (fun _ => f (deref h a)) h.
Proof.
  unfold deref. intros a h. revert a.
  induction h as [| d h IH]; intros [| a] Hlt; simpl in *; try lia; try reflexivity.
  rewrite <- IH by lia. reflexivity.
Qed.

Lemma update_id : forall a (h : list pydict),
  (a < List.length h)%nat -> update a (fun _ => deref h a) h = h.
Proof.
  unfold deref. intros a h. revert a.
  induction h as [| d h IH]; intros [| a] Hlt; simpl in *; try lia; try reflexivity.
  rewrite IH by lia. reflexivity.
Qed.

Lemma update_last (h : list pydict) d d' :
  update (List.length h) (fun _ => d') (h ++ [d])%list = (h ++ [d'])%list.
Proof. induction h as [| x h IH]; simpl; [reflexivity | rewrite IH; reflexivity]. Qed.

Lemma deref_last (h : list pydict) d : deref (h ++ [d])%list (List.length h) = d.
Proof. unfold deref. apply nth_middle. Qed.

Lemma deref_app (h extra : list pydict) a :
  (a < List.length h)%nat -> deref (h ++ extra)%list a = deref h a.
Proof. intros H. unfold deref. apply app_nth1, H. Qed.

Lemma secure_field_run self a field w :
  (a < List.length (heap w))%nat ->
  let p := secure_field_pure self field (deref (heap w) a, entropy w) in
  secure_field self a field w
  = (Ok tt, mkworld (update a (fun _ => fst p) (heap w)) (log w) (snd p)).
Proof.
  intros Ha. destruct w as [h lg r]. simpl in *.
  unfold secure_field, bind, read. simpl.
  destruct (Py.get field (deref h a)) as [v |]; simpl.
  - destruct (Py.truthy v); simpl.
    + destruct (cipher self) as [key |]; simpl.
      * unfold draw, write. simpl. rewrite update_update.
        rewrite (update_const (f := fun x => Py.set field _ (Py.set _ _ x))) by exact Ha.
        reflexivity.
      * unfold write. simpl.
        rewrite (update_const (f := Py.set field _)) by exact Ha. reflexivity.
    + unfold ret. rewrite update_id by exact Ha. reflexivity.
  - unfold ret. rewrite update_id by exact Ha. reflexivity.
Qed.

Lemma secure_fields_run self a fields : forall w,
  (a < List.length (heap w))%nat ->
  let p := secure_fields_pure self fields (deref (heap w) a, entropy w) in
  for_each_M (secure_field self a) fields w
  = (Ok tt, mkworld (update a (fun _ => fst p) (heap w)) (log w) (snd p)).
Proof.
  induction fields as [| field fields IH]; intros w Ha.
  - simpl. unfold ret. rewrite update_id by exact Ha. destruct w. reflexivity.
  - cbn [for_each_M]. unfold bind. rewrite secure_field_run by exact Ha.
    cbv zeta. rewrite secure_fields_pure_cons.
    destruct (secure_field_pure self field (deref (heap w) a, entropy w)) as [d1 r1].
    cbn [fst snd].
    rewrite IH by (cbn [heap]; rewrite length_update; exact Ha).
    cbv zeta. cbn [heap log entropy].
    rewrite deref_update_same by exact Ha. rewrite update_update. reflexivity.
Qed.

Lemma secure_record_run self record w :
  let p := secure_fields_pure self (phi_fields self)
             (deref (heap w) record, entropy w) in
  secure_record self record w
  = (Ok [List.length (heap w)], mkworld (heap w ++ [fst p])%list (log w) (snd p)).
Proof.
  destruct w as [h lg r]. unfold secure_record, bind, read, alloc.
  cbn [heap log entropy fst snd].
  rewrite secure_fields_run by (cbn [heap]; rewrite length_app; simpl; lia).
  cbv zeta. cbn [heap log entropy]. unfold ret.
  rewrite deref_last, update_last. reflexivity.
Qed.

Lemma secure_all_run self data : forall w,
  let p := secured_dicts self data (heap w) (entropy w) in
  collect_M (secure_record self) data w
  = (Ok (seq (List.length (heap w)) (List.length data)),
     mkworld (heap w ++ fst p)%list (log w) (snd p)).
Proof.
  induction data as [| record data IH]; intros w.
  - simpl. unfold ret. rewrite app_nil_r. destruct w. reflexivity.
  - cbn [collect_M secured_dicts]. unfold bind. rewrite secure_record_run.
    cbv zeta.
    destruct (secure_fields_pure self (phi_fields self)
                (deref (heap w) record, entropy w)) as [d r1].
    cbn [fst snd]. rewrite IH. cbv zeta. cbn [heap log entropy].
    destruct (secured_dicts self data (heap w ++ [d]) r1) as [ds r2].
    cbn [fst snd]. unfold ret.
    rewrite length_app, <- app_assoc. simpl.
    replace (List.length (heap w) + 1)%nat with (S (List.length (heap w))) by lia.
    reflexivity.
Qed.

(** The whole call: the handler with the resolved field list, one new
    record per input record, and a log line for the inference only when the
    handler's list was empty. *)
Lemma secure_phi_data_run self data w :
  let fields := resolved_fields self data (heap w) in
  let self' := mkhandler (secure_mode self) fields (cipher self) in
  let p := secured_dicts self' data (heap w) (entropy w) in
  _secure_phi_data self data w
  = (Ok (self', seq (List.length (heap w)) (List.length data)),
     mkworld (heap w ++ fst p)%list
             (log w ++ (match phi_fields self with
                        | [] => [detected_message fields]
                        | _ => []
                        end) ++ [applied_message fields])%list
             (snd p)).
Proof.
  destruct w as [h lg r]. destruct self as [mode fields key].
  unfold _secure_phi_data, resolved_fields. simpl.
  destruct fields as [| f fields]; simpl.
  - unfold bind at 1. unfold bind at 1.
    assert (Hdetect : _detect_phi_fields data (mkworld h lg r)
                      = (Ok match data with
                            | [] => []
                            | sample :: _ =>
                                List.filter is_phi_name (Py.keys (deref h sample))
                            end, mkworld h lg r)).
    { destruct data; reflexivity. }
    rewrite Hdetect. unfold bind, logger, ret. cbn [heap log entropy].
    rewrite secure_all_run. cbv zeta. cbn [heap log entropy phi_fields].
    destruct (secured_dicts _ data h r) as [ds r']. cbn [fst snd].
    rewrite <- app_assoc. reflexivity.
  - unfold bind, logger, ret. rewrite secure_all_run. cbv zeta.
    cbn [heap log entropy phi_fields].
    destruct (secured_dicts _ data h r) as [ds r']. reflexivity.
Qed.

End SecureFacts.

(** ** The PHI field list over the life of a handler *)

Section FieldListFacts.
Context {RT : PyRuntime}.
Import Security.

Lemma resolved_fields_nonempty self data h :
  phi_fields self <> [] -> resolved_fields self data h = phi_fields self.
Proof. unfold resolved_fields. destruct (phi_fields self); [congruence | reflexivity]. Qed.

Lemma secure_phi_data_keeps_fields self data w :
  phi_fields self <> [] ->
  exists secured w',
    _secure_phi_data self data w = (Ok (self, secured), w')
    /\ log w' = (log w ++ [applied_message (phi_fields self)])%list.
Proof.
  intros Hne. rewrite secure_phi_data_run. cbv zeta.
  rewrite resolved_fields_nonempty by exact Hne.
  destruct self as [mode fields key]. cbn [secure_mode phi_fields cipher] in *.
  destruct fields as [| f fields]; [congruence |].
  eexists. eexists. split; reflexivity.
Qed.

(** C7, as the code has it: a call made while the handler's field list is
    empty infers the list from the first record of that call, and logs it; a
    call made while the list is not empty leaves the handler as it is and
    logs no inference; so from the first call that finds the list non-empty
    on, no sequence of calls changes it or infers again. *)
Theorem phi_fields_fixed_once_nonempty :
  (forall self data w,
     phi_fields self = [] ->
     exists self' secured w',
       _secure_phi_data self data w = (Ok (self', secured), w')
       /\ phi_fields self'
          = match data with
            | [] => []
            | sample :: _ => List.filter is_phi_name (Py.keys (deref (heap w) sample))
            end
       /\ log w' = (log w ++ [detected_message (phi_fields self');
                              applied_message (phi_fields self')])%list)
  /\ (forall self data w,
        phi_fields self <> [] ->
        exists secured w',
          _secure_phi_data self data w = (Ok (self, secured), w')
          /\ log w' = (log w ++ [applied_message (phi_fields self)])%list)
  /\ (forall calls self w,
        phi_fields self <> [] ->
        exists w',
          secure_calls self calls w = (Ok self, w')
          /\ (forall entry, In entry (log w') ->
                            In entry (log w)
                            \/ entry = applied_message (phi_fields self))).
Proof.
  split; [| split].
  - intros self data w Hempty. rewrite secure_phi_data_run. cbv zeta.
    unfold resolved_fields. rewrite Hempty.
    eexists. eexists. eexists. split; [reflexivity |]. split; reflexivity.
  - apply secure_phi_data_keeps_fields.
  - induction calls as [| data calls IH]; intros self w Hne.
    + exists w. split; [reflexivity | auto].
    + destruct (secure_phi_data_keeps_fields self data w Hne) as (secured & w1 & Hrun & Hlog).
      destruct (IH self w1 Hne) as (w' & Hrest & Hentries).
      exists w'. split.
      * cbn [secure_calls]. unfold bind. rewrite Hrun. exact Hrest.
      * intros entry Hin. destruct (Hentries entry Hin) as [H | H]; [| auto].
        rewrite Hlog in H. apply in_app_or in H. destruct H as [H | [<- | []]]; auto.
Qed.

End FieldListFacts.

(** ** Encrypted siblings *)

Section EncryptionFacts.
Context {RT : PyRuntime}.
Import Security.

Lemma get_set_same {V} k (v : V) d : Py.get k (Py.set k v d) = Some v.
Proof.
  induction d as [| [k' v'] d IH]; simpl.
  - rewrite String.eqb_refl. reflexivity.
  - destruct (String.eqb k k') eqn:E; simpl; rewrite E; [reflexivity | exact IH].
Qed.

Lemma get_set_other {V} k k' (v : V) d : k <> k' -> Py.get k (Py.set k' v d) = Py.get k d.
Proof.
  intros Hne. apply String.eqb_neq in Hne.
  induction d as [| [k0 v0] d IH]; simpl.
  - rewrite Hne. reflexivity.
  - destruct (String.eqb k' k0) eqn:E; simpl.
    + apply String.eqb_eq in E. subst k0. rewrite Hne. reflexivity.
    + destruct (String.eqb k k0); [reflexivity | exact IH].
Qed.

Lemma str_app_inj_l (s : string) : forall a b, a ++ s = b ++ s -> a = b.
Proof.
  assert (H : forall a b, String.length a = String.length b -> a ++ s = b ++ s -> a = b).
  { induction a as [| x a IH]; intros [| y b] Hlen E; simpl in *; try lia.
    - reflexivity.
    - inversion E. f_equal. apply IH; [lia | assumption]. }
  intros a b E. apply H; [| exact E].
  apply (f_equal String.length) in E. rewrite !str_length_app in E. lia.
Qed.

Lemma str_app_neq_self (f s : string) : s <> "" -> f ++ s <> f.
Proof.
  intros Hs E. apply (f_equal String.length) in E. rewrite str_length_app in E.
  pose proof (length_nonempty Hs). lia.
Qed.

(** A field the loop body is not working on, and that is not the sibling it
    writes, keeps its value. *)
Lemma secure_field_pure_other self g k st :
  k <> g -> k <> g ++ "_encrypted" ->
  Py.get k (fst (secure_field_pure self g st)) = Py.get k (fst st).
Proof.
  intros H1 H2. destruct st as [d r]. unfold secure_field_pure.
  destruct (Py.get g d) as [v |]; [| reflexivity].
  destruct (Py.truthy v); [| reflexivity].
  destruct (cipher self); cbn [fst].
  - rewrite !get_set_other by assumption. reflexivity.
  - rewrite get_set_other by assumption. reflexivity.
Qed.

Lemma secure_fields_pure_other self fields : forall k st,
  (forall g, In g fields -> k <> g /\ k <> g ++ "_encrypted") ->
  Py.get k (fst (secure_fields_pure self fields st)) = Py.get k (fst st).
Proof.
  induction fields as [| g fields IH]; intros k st Hk; [reflexivity |].
  rewrite secure_fields_pure_cons, IH.
  - apply secure_field_pure_other; apply (Hk g); left; reflexivity.
  - intros g' Hg'. apply Hk. right. exact Hg'.
Qed.

Lemma secure_fields_pure_field self key fields : forall d r f v,
  cipher self = Some key ->
  NoDup fields -> In f fields ->
  (forall g, In g fields -> g <> f ++ "_encrypted" /\ f <> g ++ "_encrypted") ->
  Py.get f d = Some v -> Py.truthy v = true ->
  let d' := fst (secure_fields_pure self fields (d, r)) in
  exists r0,
    Py.get (f ++ "_encrypted") d' = Some (VStr (fernet_encrypt key r0 (Py.str v)))
    /\ Py.get f d' = Some (VStr (_redact_phi (Py.str v))).
Proof.
  induction fields as [| g fields IH]; intros d r f v Hkey Hnodup Hin Hsib Hget Htruthy;
    [destruct Hin |].
  cbv zeta. rewrite secure_fields_pure_cons.
  inversion Hnodup as [| ? ? Hnotin Hnodup']; subst.
  destruct (string_dec f g) as [-> | Hne].
  - exists r.
    assert (Hrest : forall k, k = g \/ k = g ++ "_encrypted" ->
                    forall g', In g' fields -> k <> g' /\ k <> g' ++ "_encrypted").
    { intros k Hk g' Hg'.
      assert (Hgg : g <> g') by (intros ->; contradiction).
      destruct (Hsib g' (or_intror Hg')) as [H1 H2].
      destruct Hk as [-> | ->]; split; auto.
      intros E. apply str_app_inj_l in E. congruence. }
    rewrite !secure_fields_pure_other by (apply Hrest; auto).
    unfold secure_field_pure. rewrite Hget, Htruthy, Hkey. cbn [fst]. split.
    + rewrite get_set_other by (apply str_app_neq_self; discriminate).
      apply get_set_same.
    + apply get_set_same.
  - destruct Hin as [-> | Hin]; [congruence |].
    destruct (secure_field_pure self g (d, r)) as [d1 r1] eqn:Estep.
    apply (IH d1 r1 f v); auto.
    + intros g' Hg'. apply Hsib. right. exact Hg'.
    + replace d1 with (fst (secure_field_pure self g (d, r))) by (rewrite Estep; reflexivity).
      rewrite secure_field_pure_other; [exact Hget | exact Hne |].
      apply (Hsib g). left. reflexivity.
Qed.

Lemma secured_dicts_spec self data : forall h0 extra r,
  Forall (fun a => (a < List.length h0)%nat) data ->
  Forall2 (fun record d =>
             exists r', d = fst (secure_fields_pure self (phi_fields self)
                                   (deref h0 record, r')))
          data (fst (secured_dicts self data (h0 ++ extra) r)).
Proof.
  induction data as [| record data IH]; intros h0 extra r Hvalid; [constructor |].
  inversion Hvalid as [| ? ? Hrecord Hvalid']; subst.
  cbn [secured_dicts]. rewrite deref_app by exact Hrecord.
  destruct (secure_fields_pure self (phi_fields self) (deref h0 record, r))
    as [d r1] eqn:Ed.
  rewrite <- app_assoc.
  specialize (IH h0 (extra ++ [d])%list r1 Hvalid').
  destruct (secured_dicts self data (h0 ++ extra ++ [d]) r1) as [ds r2].
  cbn [fst] in *. constructor; [| exact IH].
  exists r. rewrite Ed. reflexivity.
Qed.

Lemma Forall2_new_objects {A} (Q : A -> pydict -> Prop) data ds :
  Forall2 Q data ds ->
  forall pre,
    Forall2 (fun record out => Q record (deref (pre ++ ds) out))
            data (seq (List.length pre) (List.length data)).
Proof.
  induction 1 as [| record d data ds HQ _ IH]; intros pre; [constructor |].
  cbn [List.length seq]. constructor.
  - unfold deref. rewrite nth_middle. exact HQ.
  - specialize (IH (pre ++ [d])%list).
    rewrite <- app_assoc, length_app in IH. cbn [List.length app] in IH.
    replace (List.length pre + 1)%nat with (S (List.length pre)) in IH by lia.
    exact IH.
Qed.

(** C2, as the code has it: in a handler with a cipher, called on records of
    the store, when the field list the call works with has no repeats and no
    name that is another listed name followed by [_encrypted], every record
    returned holds, for every listed field whose value in the input record
    is truthy, the sibling [<field>_encrypted] with a token that
    [decrypt_field] of the same handler turns back into the text of the
    original value, and under the field's own name the redacted text. *)
Theorem secured_field_round_trip self key data w self' secured w' :
  cipher self = Some key ->
  Forall (fun a => (a < List.length (heap w))%nat) data ->
  _secure_phi_data self data w = (Ok (self', secured), w') ->
  distinct_siblings (phi_fields self') ->
  Forall2
    (fun record out =>
       forall field v,
         In field (phi_fields self') ->
         Py.get field (deref (heap w) record) = Some v ->
         Py.truthy v = true ->
         exists token,
           Py.get (field ++ "_encrypted") (deref (heap w') out) = Some (VStr token)
           /\ (forall w'', decrypt_field self' token w'' = (Ok (Py.str v), w''))
           /\ Py.get field (deref (heap w') out)
              = Some (VStr (_redact_phi (Py.str v))))
    data secured.
Proof.
  intros Hkey Hvalid Hrun [Hnodup Hsib].
  rewrite secure_phi_data_run in Hrun. cbv zeta in Hrun.
  inversion Hrun as [[Hself Hsecured Hw']]. clear Hrun.
  set (fields := resolved_fields self data (heap w)) in *.
  set (handler := mkhandler (secure_mode self) fields (cipher self)) in *.
  assert (Hfields : phi_fields self' = fields) by (rewrite <- Hself; reflexivity).
  rewrite Hfields in *.
  pose proof (@secured_dicts_spec handler data (heap w) [] (entropy w) Hvalid) as Hspec.
  rewrite app_nil_r in Hspec.
  apply Forall2_new_objects with (pre := heap w) in Hspec.
  cbn [heap].
  eapply Forall2_impl; [| exact Hspec].
  intros record out (r' & Hd) field v Hin Hget Htruthy.
  destruct (@secure_fields_pure_field handler key fields (deref (heap w) record) r' field v)
    as (r0 & Henc & Hred); try assumption.
  { intros g Hg. split; [apply Hsib | intros E; apply (Hsib g field)]; auto. }
  cbv zeta in Henc, Hred.
  exists (fernet_encrypt key r0 (Py.str v)). rewrite Hd.
  split; [exact Henc |]. split; [| exact Hred].
  intros w''. unfold decrypt_field. cbn [cipher handler]. rewrite Hkey.
  rewrite fernet_round_trip. reflexivity.
Qed.

End EncryptionFacts.

(** ** The mapper's transforms *)

Unset Implicit Arguments.

Section MapperFacts.
Context {RT : PyRuntime}.
Import Mapper.

Lemma find_code_first value options before code label after :
  options = (before ++ (code, label) :: after)%list ->
  option_matches value (code, label) = true ->
  (forall o, In o before -> option_matches value o = false) ->
  find_code value options = Some code.
Proof.
  intros -> Hmatch. induction before as [| [c l] before IH]; intros Hbefore; simpl.
  - unfold option_matches in Hmatch. simpl in Hmatch. rewrite Hmatch. reflexivity.
  - pose proof (Hbefore (c, l) (or_introl eq_refl)) as Hc.
    unfold option_matches in Hc. simpl in Hc. rewrite Hc.
    apply IH. intros o Ho. apply Hbefore. right. exact Ho.
Qed.

Lemma find_code_none value options :
  (forall o, In o options -> option_matches value o = false) ->
  find_code value options = None.
Proof.
  induction options as [| [c l] options IH]; intros Hall; simpl; [reflexivity |].
  pose proof (Hall (c, l) (or_introl eq_refl)) as Hc.
  unfold option_matches in Hc. simpl in Hc. rewrite Hc.
  apply IH. intros o Ho. apply Hall. right. exact Ho.
Qed.

Ltac returns := do 2 eexists; reflexivity.

(** What the guard comes to on a value that is no list. *)
Lemma missing_or_empty_scalar value :
  is_list value = false ->
  missing_or_empty value = Ok (Py.isna value || Py.eq value (VStr "")).
Proof. destruct value; try discriminate; reflexivity. Qed.

(** The guard on a list of two items or more, none of them a list. *)
Lemma missing_or_empty_ambiguous x y items :
  existsb is_list (x :: y :: items) = false ->
  missing_or_empty (VList (x :: y :: items))
  = Raise (ValueErrorOf (array_truth_message (x :: y :: items))).
Proof.
  intros Hflat. unfold missing_or_empty. cbn [Py.isna_truth].
  rewrite (array_truth_ambiguous _ _ _ Hflat). reflexivity.
Qed.

(** C3, as the code has it: the guard [pd.isna(value) or value == ''] comes
    first, outside any [try].  When it holds, the result is the empty
    string; when it raises, which it does on a list of two items or more
    (the [ValueError] of numpy), the transform raises what it raised and
    logs nothing.  Any other value gives the code of the first option, in
    the order of the options mapping, whose label or whose code equals it,
    so an earlier option that matches by code wins over a later one that
    matches by label; when no option matches, the empty string and a
    warning.  On a value that is no list and that [str] prints the transform
    never raises; and a dropdown is a radio. *)
Theorem format_radio_first_match value options w :
  (missing_or_empty value = Ok true ->
   _format_radio value options w = (Ok (VStr ""), w))
  /\ (missing_or_empty value = Ok false ->
      (forall before code label after,
         options = (before ++ (code, label) :: after)%list ->
         option_matches value (code, label) = true ->
         (forall o, In o before -> option_matches value o = false) ->
         _format_radio value options w = (Ok (VStr code), w))
      /\ (Py.printable value = true ->
          (forall o, In o options -> option_matches value o = false) ->
          _format_radio value options w
          = (Ok (VStr ""),
             warned w ("Radio value '" ++ Py.str value ++ "' not found in options"))))
  /\ (forall e, missing_or_empty value = Raise e ->
                _format_radio value options w = (Raise e, w))
  /\ (forall x y items,
        value = VList (x :: y :: items) ->
        existsb is_list (x :: y :: items) = false ->
        _format_radio value options w
        = (Raise (ValueErrorOf (array_truth_message (x :: y :: items))), w))
  /\ (is_list value = false -> Py.printable value = true ->
      missing_or_empty value = Ok (Py.isna value || Py.eq value (VStr ""))
      /\ exists r w', _format_radio value options w = (Ok r, w'))
  /\ _format_dropdown value options w = _format_radio value options w.
Proof.
  unfold _format_dropdown, _format_radio, bind, lift.
  split; [intros ->; reflexivity |].
  split.
  { intros ->. split.
    - intros before code label after Hopts Hmatch Hbefore.
      rewrite (find_code_first _ _ _ _ _ _ Hopts Hmatch Hbefore). reflexivity.
    - intros _ Hnone. rewrite (find_code_none _ _ Hnone). reflexivity. }
  split; [intros e ->; reflexivity |].
  split.
  { intros x y items -> Hflat. rewrite (missing_or_empty_ambiguous _ _ _ Hflat).
    reflexivity. }
  split; [| reflexivity].
  intros Hscalar _. pose proof (missing_or_empty_scalar value Hscalar) as E.
  split; [exact E |]. rewrite E.
  destruct (Py.isna value || Py.eq value (VStr "")); [returns |].
  destruct (find_code value options); returns.
Qed.

Lemma format_radio_returns value options w :
  is_list value = false -> exists r w', _format_radio value options w = (Ok r, w').
Proof.
  intros Hscalar. unfold _format_radio, bind, lift.
  rewrite (missing_or_empty_scalar value Hscalar).
  destruct (Py.isna value || Py.eq value (VStr "")); [returns |].
  destruct (find_code value options); returns.
Qed.

Lemma format_date_returns value date_format w :
  is_list value = false -> exists r w', _format_date value date_format w = (Ok r, w').
Proof.
  intros Hscalar. unfold _format_date, bind, lift.
  rewrite (missing_or_empty_scalar value Hscalar).
  destruct (Py.isna value || Py.eq value (VStr "")); [returns |].
  destruct date_format as [[| c fmt] |];
    try (destruct (first_parse (Py.str value) date_formats); returns).
  destruct (Py.strptime_str (Py.str value) (String c fmt)); returns.
Qed.



End MapperFacts.

(** * Further properties *)

(** ** Loops: invariants, returns, exceptions *)

Section Loops.
Context {A St : Type}.

Lemma for_each_invariant (body : A -> St -> result St) (I : St -> Prop) l :
  (forall x s s', In x l -> I s -> body x s = Ok s' -> I s') ->
  forall s s', I s -> for_each body l s = Ok s' -> I s'.
Proof.
  induction l as [| x l IH]; simpl; intros Hb s s' Hs H.
  - injection H as <-. exact Hs.
  - apply rbind_Ok in H. destruct H as (s1 & H1 & H2).
    apply (IH (fun y t t' Hy => Hb y t t' (or_intror Hy)) s1 s'); [| exact H2].
    apply (Hb x s s1); auto.
Qed.

Lemma for_enumerate_invariant_from (body : nat -> A -> St -> result St)
    (I : St -> Prop) data :
  (forall i x s s', nth_error data i = Some x -> I s -> body i x s = Ok s' -> I s') ->
  forall l i,
    (forall j x, nth_error l j = Some x -> nth_error data (i + j) = Some x) ->
    forall s s', I s -> for_enumerate body i l s = Ok s' -> I s'.
Proof.
  intros Hb. induction l as [| x l IH]; simpl; intros i Hl s s' Hs H.
  - injection H as <-. exact Hs.
  - apply rbind_Ok in H. destruct H as (s1 & H1 & H2).
    apply (IH (S i)) with (s := s1); [| | exact H2].
    + intros j y Hj. replace (S i + j)%nat with (i + S j)%nat by lia.
      apply Hl. exact Hj.
    + apply (Hb i x s s1); auto.
      specialize (Hl 0%nat x eq_refl). rewrite Nat.add_0_r in Hl. exact Hl.
Qed.

Lemma for_enumerate_invariant (body : nat -> A -> St -> result St)
    (I : St -> Prop) data :
  (forall i x s s', nth_error data i = Some x -> I s -> body i x s = Ok s' -> I s') ->
  forall s s', I s -> for_enumerate body 0 data s = Ok s' -> I s'.
Proof.
  intros Hb. apply (for_enumerate_invariant_from body I data Hb data 0%nat).
  intros j x Hj. exact Hj.
Qed.

Lemma for_each_returns (body : A -> St -> result St) (I : St -> Prop) l :
  (forall x s, In x l -> I s -> exists s', body x s = Ok s' /\ I s') ->
  forall s, I s -> exists s', for_each body l s = Ok s' /\ I s'.
Proof.
  induction l as [| x l IH]; simpl; intros Hb s Hs.
  - exists s. auto.
  - destruct (Hb x s (or_introl eq_refl) Hs) as (s1 & -> & Hs1). simpl.
    apply IH; auto.
Qed.

Lemma for_enumerate_returns_from (body : nat -> A -> St -> result St)
    (I : St -> Prop) data :
  (forall i x s, nth_error data i = Some x -> I s -> exists s', body i x s = Ok s' /\ I s') ->
  forall l i,
    (forall j x, nth_error l j = Some x -> nth_error data (i + j) = Some x) ->
    forall s, I s -> exists s', for_enumerate body i l s = Ok s' /\ I s'.
Proof.
  intros Hb. induction l as [| x l IH]; simpl; intros i Hl s Hs.
  - exists s. auto.
  - destruct (Hb i x s) as (s1 & -> & Hs1); auto.
    { specialize (Hl 0%nat x eq_refl). rewrite Nat.add_0_r in Hl. exact Hl. }
    simpl. apply IH; auto.
    intros j y Hj. replace (S i + j)%nat with (i + S j)%nat by lia.
    apply Hl. exact Hj.
Qed.

Lemma for_enumerate_returns (body : nat -> A -> St -> result St)
    (I : St -> Prop) data :
  (forall i x s, nth_error data i = Some x -> I s -> exists s', body i x s = Ok s' /\ I s') ->
  forall s, I s -> exists s', for_enumerate body 0 data s = Ok s' /\ I s'.
Proof.
  intros Hb. apply (for_enumerate_returns_from body I data Hb data 0%nat).
  intros j x Hj. exact Hj.
Qed.

Lemma raises_only_rbind {B} (P : exn -> Prop) (r : result A) (k : A -> result B) :
  raises_only P r -> (forall a, raises_only P (k a)) -> raises_only P (rbind r k).
Proof. destruct r; simpl; auto. Qed.

Lemma for_each_raises_only (P : exn -> Prop) (body : A -> St -> result St) l :
  (forall x s, raises_only P (body x s)) ->
  forall s, raises_only P (for_each body l s).
Proof.
  intros Hb. induction l as [| x l IH]; simpl; intros s; [exact I |].
  specialize (Hb x s). destruct (body x s); simpl in *; auto.
Qed.

Lemma for_enumerate_raises_only (P : exn -> Prop)
    (body : nat -> A -> St -> result St) l :
  (forall i x s, raises_only P (body i x s)) ->
  forall i s, raises_only P (for_enumerate body i l s).
Proof.
  intros Hb. induction l as [| x l IH]; simpl; intros i s; [exact I |].
  specialize (Hb i x s). destruct (body i x s); simpl in *; auto.
Qed.

End Loops.

(** ** The checks, one record at a time *)

Section CheckFacts.
Context {RT : PyRuntime}.
Import Validator.

Lemma strptime_cases v fmt :
  (exists d, Py.strptime v fmt = Ok d)
  \/ Py.strptime v fmt = Raise ValueError
  \/ Py.strptime v fmt = Raise TypeError.
Proof.
  destruct v; cbn [Py.strptime]; auto.
  destruct (Py.strptime_str s fmt); eauto.
Qed.

Lemma strptime_text s fmt :
  (exists d, Py.strptime (VStr s) fmt = Ok d) \/ Py.strptime (VStr s) fmt = Raise ValueError.
Proof. cbn [Py.strptime]. destruct (Py.strptime_str s fmt); eauto. Qed.

Lemma float_cases v :
  (exists f, Py.float v = Ok f)
  \/ Py.float v = Raise ValueError
  \/ Py.float v = Raise TypeError
  \/ Py.float v = Raise OverflowError.
Proof.
  destruct v; cbn [Py.float]; eauto.
  - destruct (float_of_int z); eauto.
  - destruct (float_of_str s); eauto.
Qed.

Lemma float_convertible v :
  convertible v -> (exists f, Py.float v = Ok f) \/ Py.float v = Raise ValueError.
Proof.
  intros [Ht Ho].
  destruct (float_cases v) as [H | [H | [H | H]]]; auto; contradiction.
Qed.

Lemma outcome_same rid res : check_outcome rid res (Ok res).
Proof. left. reflexivity. Qed.

Lemma outcome_issue rid res t message :
  check_outcome rid res (_add_record_issue res rid t message).
Proof. right. left. eauto. Qed.

Lemma outcome_raise rid res e :
  validator_exn e -> check_outcome rid res (Raise e).
Proof. right. right. eauto. Qed.

Create HintDb outcome.
#[local] Hint Resolve outcome_same outcome_issue outcome_raise : outcome.
#[local] Hint Extern 1 (validator_exn _) => simpl; auto : outcome.

Lemma check_required_outcome required i record res :
  check_outcome (record_id_of i record) res (check_required required i record res).
Proof.
  unfold check_required.
  destruct (List.filter _ required); auto with outcome.
Qed.

Lemma valid_date_raises v : raises_only validator_exn (_is_valid_date v).
Proof.
  unfold _is_valid_date.
  destruct (strptime_cases v "%Y-%m-%d") as [[d H] | [H | H]]; rewrite H; exact I.
Qed.

Lemma valid_email_raises v : raises_only validator_exn (_is_valid_email v).
Proof.
  destruct v; simpl; auto.
  - destruct (Py.has "@" d); exact I.
  - destruct (existsb _ items); exact I.
Qed.

Lemma valid_phone_raises v : raises_only validator_exn (_is_valid_phone v).
Proof. destruct v; simpl; auto. destruct (texts items); exact I. Qed.

Lemma fails_raises format_rule kind check value :
  raises_only validator_exn (check value) ->
  raises_only validator_exn (fails format_rule kind check value).
Proof.
  unfold fails. intros H. destruct (Py.eq format_rule (VStr kind)); [| exact I].
  destruct (check value); simpl; auto.
Qed.

Lemma check_format_outcome record rid rule res :
  check_outcome rid res (check_format record rid rule res).
Proof.
  destruct rule as [field format_rule]. unfold check_format.
  destruct (Py.get field record) as [value |]; auto with outcome.
  destruct (Py.truthy value); auto with outcome.
  pose proof (fails_raises format_rule "date" _is_valid_date value
                (valid_date_raises value)) as Hd.
  destruct (fails format_rule "date" _is_valid_date value) as [[|] | e];
    cbn [rbind]; auto with outcome.
  pose proof (fails_raises format_rule "email" _is_valid_email value
                (valid_email_raises value)) as He.
  destruct (fails format_rule "email" _is_valid_email value) as [[|] | e];
    cbn [rbind]; auto with outcome.
  pose proof (fails_raises format_rule "phone" _is_valid_phone value
                (valid_phone_raises value)) as Hp.
  destruct (fails format_rule "phone" _is_valid_phone value) as [[|] | e];
    cbn [rbind]; auto with outcome.
Qed.

Lemma index_bound k (rule : pydict) :
  k = "min" \/ k = "max" ->
  (exists v, Py.index k rule = Ok v) \/ (Py.index k rule = Raise (KeyError k)).
Proof. intros _. unfold Py.index. destruct (Py.get k rule); eauto. Qed.

Lemma except_issue res rid t message (handler : result results) :
  except_ValueError (_add_record_issue res rid t message) handler
  = _add_record_issue res rid t message.
Proof. unfold _add_record_issue. destruct (Py.hashable rid); reflexivity. Qed.

Lemma check_date_range_outcome record rid rule res :
  check_outcome rid res (check_date_range record rid rule res).
Proof.
  destruct rule as [field range_rule]. unfold check_date_range.
  destruct (Py.get field record) as [value |]; auto with outcome.
  destruct (Py.truthy value); auto with outcome.
  destruct (strptime_cases value "%Y-%m-%d") as [[d H] | [H | H]]; rewrite H;
    cbn [rbind except_ValueError]; auto with outcome.
  destruct (strptime_cases (Py.get_default "min" (VStr "1900-01-01") range_rule)
              "%Y-%m-%d") as [[lo H1] | [H1 | H1]]; rewrite H1;
    cbn [rbind except_ValueError]; auto with outcome.
  destruct (strptime_cases (Py.get_default "max" (VStr "2100-12-31") range_rule)
              "%Y-%m-%d") as [[hi H2] | [H2 | H2]]; rewrite H2;
    cbn [rbind except_ValueError]; auto with outcome.
  destruct (Py.date_lt d lo).
  - unfold Py.index. destruct (Py.get "min" range_rule) as [bound |]; cbn [rbind].
    + rewrite except_issue. apply outcome_issue.
    + apply outcome_raise. simpl. auto.
  - destruct (Py.date_lt hi d); auto with outcome.
    unfold Py.index. destruct (Py.get "max" range_rule) as [bound |]; cbn [rbind].
    + rewrite except_issue. apply outcome_issue.
    + apply outcome_raise. simpl. auto.
Qed.

Lemma check_numeric_range_outcome record rid rule res :
  check_outcome rid res (check_numeric_range record rid rule res).
Proof.
  destruct rule as [field range_rule]. unfold check_numeric_range.
  destruct (Py.get field record) as [raw |]; auto with outcome.
  destruct (Py.truthy raw); auto with outcome.
  destruct (float_cases raw) as [[v H] | [H | [H | H]]]; rewrite H;
    cbn [rbind except_ValueError]; auto with outcome.
  destruct (float_cases (Py.get_default "min" (VFloat (FInf true)) range_rule))
    as [[lo H1] | [H1 | [H1 | H1]]]; rewrite H1;
    cbn [rbind except_ValueError]; auto with outcome.
  destruct (float_cases (Py.get_default "max" (VFloat (FInf false)) range_rule))
    as [[hi H2] | [H2 | [H2 | H2]]]; rewrite H2;
    cbn [rbind except_ValueError]; auto with outcome.
  destruct (Py.flt v lo); [rewrite except_issue; auto with outcome |].
  destruct (Py.flt hi v); [rewrite except_issue; auto with outcome |].
  auto with outcome.
Qed.

Lemma check_presence_outcome all i record res :
  check_outcome (record_id_of i record) res (check_presence all i record res).
Proof.
  unfold check_presence. destruct (missing_fields all record); auto with outcome.
Qed.

Lemma outcome_raises rid res r :
  check_outcome rid res r -> raises_only validator_exn r.
Proof.
  intros [-> | [(t & message & ->) | (e & -> & He)]]; simpl; auto.
  unfold _add_record_issue. destruct (Py.hashable rid); simpl; auto.
Qed.

Lemma append_issue_nonempty t message entry :
  issue_errors (append_issue t message entry) <> []
  \/ issue_warnings (append_issue t message entry) <> [].
Proof.
  destruct t; [left | right]; simpl; intros H; apply app_eq_nil in H;
    destruct H; discriminate.
Qed.

Lemma add_issue_entry_entries data rid t message d :
  (exists i record, nth_error data i = Some record /\ rid = record_id_of i record) ->
  Forall (entry_of data) d ->
  Forall (entry_of data) (add_issue_entry rid t message d).
Proof.
  intros Hrid. induction 1 as [| [k entry] d [Hk Hentry] Hd IH]; simpl.
  - constructor; [| constructor]. split; [exact Hrid | apply append_issue_nonempty].
  - destruct (Py.same rid k); constructor; auto.
    + split; [exact Hk | apply append_issue_nonempty].
    + split; assumption.
Qed.

Lemma running_step data global rid res r res' :
  (exists i record, nth_error data i = Some record /\ rid = record_id_of i record) ->
  running data global res -> check_outcome rid res r -> r = Ok res' ->
  running data global res'.
Proof.
  intros Hrid Hrun [-> | [(t & message & ->) | (e & -> & _)]] H.
  - injection H as <-. exact Hrun.
  - unfold _add_record_issue in H. destruct (Py.hashable rid); [| discriminate].
    injection H as <-. destruct Hrun as (He & Hw & Hs & Hd).
    repeat split; auto. simpl. apply add_issue_entry_entries; assumption.
  - discriminate.
Qed.

(** Each of the four per-record checks keeps the running results. *)
Lemma required_running rules data global res res' :
  running data global res ->
  _check_required_fields rules data res = Ok res' -> running data global res'.
Proof.
  unfold _check_required_fields. intros Hrun H.
  destruct (required_fields rules) as [| f required]; [injection H as <-; exact Hrun |].
  revert res res' Hrun H. apply for_enumerate_invariant.
  intros i record s s' Hi Hs Hbody.
  eapply running_step; [| exact Hs | apply check_required_outcome | exact Hbody]; eauto.
Qed.

Lemma formats_running rules data global res res' :
  running data global res ->
  _check_field_formats rules data res = Ok res' -> running data global res'.
Proof.
  unfold _check_field_formats. intros Hrun H.
  destruct (field_formats rules) as [| f formats]; [injection H as <-; exact Hrun |].
  revert res res' Hrun H. apply for_enumerate_invariant.
  intros i record s s' Hi. apply for_each_invariant.
  intros rule t t' _ Ht Hbody.
  eapply running_step; [| exact Ht | apply check_format_outcome | exact Hbody]; eauto.
Qed.

Lemma date_ranges_running rules data global res res' :
  running data global res ->
  _check_date_ranges rules data res = Ok res' -> running data global res'.
Proof.
  unfold _check_date_ranges. intros Hrun H.
  destruct (date_range rules) as [| f ranges]; [injection H as <-; exact Hrun |].
  revert res res' Hrun H. apply for_enumerate_invariant.
  intros i record s s' Hi. apply for_each_invariant.
  intros rule t t' _ Ht Hbody.
  eapply running_step; [| exact Ht | apply check_date_range_outcome | exact Hbody]; eauto.
Qed.

Lemma numeric_ranges_running rules data global res res' :
  running data global res ->
  _check_numeric_ranges rules data res = Ok res' -> running data global res'.
Proof.
  unfold _check_numeric_ranges. intros Hrun H.
  destruct (numeric_range rules) as [| f ranges]; [injection H as <-; exact Hrun |].
  revert res res' Hrun H. apply for_enumerate_invariant.
  intros i record s s' Hi. apply for_each_invariant.
  intros rule t t' _ Ht Hbody.
  eapply running_step; [| exact Ht | apply check_numeric_range_outcome | exact Hbody]; eauto.
Qed.

Lemma duplicates_running data global dups : forall res,
  running data global res ->
  running data (global ++ map duplicate_message dups)%list
    (fold_left (fun res dup_id =>
                  with_errors res (errors res ++ [duplicate_message dup_id]))
               dups res).
Proof.
  revert global. induction dups as [| d dups IH]; intros global res Hrun; simpl.
  - rewrite app_nil_r. exact Hrun.
  - replace (global ++ duplicate_message d :: map duplicate_message dups)%list
      with ((global ++ [duplicate_message d]) ++ map duplicate_message dups)%list
      by (rewrite <- app_assoc; reflexivity).
    apply IH. destruct Hrun as (He & Hw & Hs & Hd).
    repeat split; simpl; auto. rewrite He. reflexivity.
Qed.

Lemma consistency_running data res res' :
  running data [] res ->
  _check_data_consistency data res = Ok res' ->
  exists dups, duplicate_ids data = Ok dups
               /\ running data (map duplicate_message dups) res'.
Proof.
  unfold _check_data_consistency. intros Hrun H.
  apply rbind_Ok in H. destruct H as (dups & Hdups & H).
  exists dups. split; [exact Hdups |].
  apply (duplicates_running data [] dups) in Hrun. cbn [app] in Hrun.
  revert Hrun H. apply for_enumerate_invariant.
  intros i record s s' Hi Hs Hbody.
  eapply running_step; [| exact Hs | apply check_presence_outcome | exact Hbody]; eauto.
Qed.

(** What [validate] returns on records: the results the checks leave, with
    the statistics counted from them. *)
Lemma validate_run rules data r :
  validate rules data = Ok (Full r) ->
  exists res dups,
    duplicate_ids data = Ok dups
    /\ running data (map duplicate_message dups) res
    /\ r = mkresults (count_errors (errors res) (record_issues res) =? 0)%nat
             (errors res) (warnings res) (record_issues res)
             (mkstats (List.length data) (List.length (record_issues res))
                (count_errors (errors res) (record_issues res))
                (count_warnings (warnings res) (record_issues res))).
Proof.
  destruct data as [| record data]; [discriminate |].
  unfold validate. intros H.
  apply rbind_Ok in H. destruct H as (res1 & H1 & H).
  apply rbind_Ok in H. destruct H as (res2 & H2 & H).
  apply rbind_Ok in H. destruct H as (res3 & H3 & H).
  apply rbind_Ok in H. destruct H as (res4 & H4 & H).
  apply rbind_Ok in H. destruct H as (res5 & H5 & H).
  assert (Hrun : running (record :: data) [] res4).
  { eapply numeric_ranges_running; [| exact H4].
    eapply date_ranges_running; [| exact H3].
    eapply formats_running; [| exact H2].
    eapply required_running; [| exact H1].
    repeat split; auto. }
  destruct (consistency_running _ _ _ Hrun H5) as (dups & Hdups & Hrun5).
  exists res5, dups. split; [exact Hdups |]. split; [exact Hrun5 |].
  injection H as <-. destruct Hrun5 as (_ & _ & Hs & _). rewrite Hs. reflexivity.
Qed.

Lemma entries_counted data d :
  Forall (entry_of data) d -> (List.length d <= error_sum d + warning_sum d)%nat.
Proof.
  induction 1 as [| [k entry] d [_ Hentry] _ IH]; simpl; [lia |].
  unfold error_sum, warning_sum in *. cbn [map sum fold_right snd] in *.
  assert (1 <= List.length (issue_errors entry) + List.length (issue_warnings entry))%nat.
  { destruct Hentry as [Hentry | Hentry].
    - destruct (issue_errors entry); [contradiction | simpl; lia].
    - destruct (issue_warnings entry); [contradiction | simpl; lia]. }
  unfold sum in *. lia.
Qed.

Lemma dedup_nil {A} (eqb : A -> A -> bool) l : dedup eqb l = [] -> l = [].
Proof. destruct l; [reflexivity | discriminate]. Qed.

Lemma duplicate_ids_origin data dups d :
  duplicate_ids data = Ok dups -> In d dups ->
  In d (record_ids data) /\ (2 <= count Py.same d (record_ids data))%nat.
Proof.
  unfold duplicate_ids. destruct (forallb _ _); [| discriminate].
  intros H Hd. injection H as <-. apply dedup_incl in Hd.
  unfold repeated_ids in Hd. apply filter_In in Hd. destruct Hd as [Hin Hcount].
  split; [exact Hin |]. apply Nat.ltb_lt in Hcount. lia.
Qed.

Lemma duplicate_ids_none data :
  duplicate_ids data = Ok [] <-> distinct_ids data.
Proof.
  unfold duplicate_ids, distinct_ids, repeated_ids. split.
  - destruct (forallb _ _); [| discriminate]. intros H v Hv.
    injection H as H. apply dedup_nil in H.
    destruct (1 <? count Py.same v (record_ids data))%nat eqn:E.
    + assert (Hin : In v (List.filter
                            (fun rid => (1 <? count Py.same rid (record_ids data))%nat)
                            (record_ids data)))
        by (apply filter_In; auto).
      rewrite H in Hin. destruct Hin.
    + apply Nat.ltb_ge in E. exact E.
  - intros H.
    assert (E : List.filter (fun rid => (1 <? count Py.same rid (record_ids data))%nat)
                  (record_ids data) = []).
    { destruct (List.filter _ _) as [| v l] eqn:E; [reflexivity |].
      assert (Hin : In v (v :: l)) by (left; reflexivity).
      rewrite <- E in Hin. apply filter_In in Hin. destruct Hin as [Hin Hcount].
      apply Nat.ltb_lt in Hcount. specialize (H v Hin). lia. }
    rewrite E. reflexivity.
Qed.

End CheckFacts.

(** ** The verdict *)

Section VerdictFacts.
Context {RT : PyRuntime}.
Import Validator.

(** X1: on records whose cells are values [str] prints, what gets out of
    [validate] is never a [ValueError]: an exception it raises is a
    [TypeError], an [AttributeError], an [OverflowError], or the [KeyError]
    of a date bound. *)
Theorem validate_raises_only rules data :
  printable_records data = true ->
  raises_only validator_exn (validate rules data).
Proof.
  intros _. destruct data as [| record data]; [exact I |].
  unfold validate.
  apply raises_only_rbind.
  { unfold _check_required_fields. destruct (required_fields rules); [exact I |].
    apply for_enumerate_raises_only. intros i x st.
    eapply outcome_raises. apply check_required_outcome. }
  intros res1. apply raises_only_rbind.
  { unfold _check_field_formats. destruct (field_formats rules); [exact I |].
    apply for_enumerate_raises_only. intros i x st.
    apply for_each_raises_only. intros rule t.
    eapply outcome_raises. apply check_format_outcome. }
  intros res2. apply raises_only_rbind.
  { unfold _check_date_ranges. destruct (date_range rules); [exact I |].
    apply for_enumerate_raises_only. intros i x st.
    apply for_each_raises_only. intros rule t.
    eapply outcome_raises. apply check_date_range_outcome. }
  intros res3. apply raises_only_rbind.
  { unfold _check_numeric_ranges. destruct (numeric_range rules); [exact I |].
    apply for_enumerate_raises_only. intros i x st.
    apply for_each_raises_only. intros rule t.
    eapply outcome_raises. apply check_numeric_range_outcome. }
  intros res4. apply raises_only_rbind; [| intros res5; exact I].
  unfold _check_data_consistency. apply raises_only_rbind.
  { unfold duplicate_ids. destruct (forallb _ _); exact I. }
  intros dups. apply for_enumerate_raises_only. intros i x st.
  eapply outcome_raises. apply check_presence_outcome.
Qed.

(** X2: in the dictionary [validate] returns on records, the global warning
    list is empty and every global error names an identifier that stands on
    two records or more, as the same object or as equal values; every entry of [record_issues] is keyed by the
    identifier of a record of the data (its [record_id], or [Record_i]) and
    holds at least one message; the statistics count the records handed in,
    the entries, the errors and the warnings, and there are no more entries
    than messages. *)
Theorem validate_verdict_invariants rules data r :
  validate rules data = Ok (Full r) ->
  warnings r = []
  /\ (forall message, In message (errors r) ->
        exists d, In d (record_ids data)
                  /\ (2 <= count Py.same d (record_ids data))%nat
                  /\ message = duplicate_message d)
  /\ Forall (entry_of data) (record_issues r)
  /\ total_records (stats r) = List.length data
  /\ records_with_issues (stats r) = List.length (record_issues r)
  /\ total_errors (stats r)
     = (List.length (errors r) + error_sum (record_issues r))%nat
  /\ total_warnings (stats r) = warning_sum (record_issues r)
  /\ (records_with_issues (stats r)
      <= error_sum (record_issues r) + total_warnings (stats r))%nat.
Proof.
  intros H. apply validate_run in H.
  destruct H as (res & dups & Hdups & (He & Hw & Hs & Hd) & ->). cbn.
  split; [exact Hw |]. split.
  { rewrite He. intros message Hin. apply in_map_iff in Hin.
    destruct Hin as (d & <- & Hin).
    destruct (duplicate_ids_origin _ _ _ Hdups Hin) as [Hid Hcount]. eauto. }
  split; [exact Hd |]. split; [reflexivity |]. split; [reflexivity |].
  split; [reflexivity |].
  assert (Hcw : count_warnings (warnings res) (record_issues res)
                = warning_sum (record_issues res))
    by (unfold count_warnings; rewrite Hw; reflexivity).
  split; [exact Hcw |]. rewrite Hcw. apply (entries_counted data). exact Hd.
Qed.

End VerdictFacts.

(** ** When the checks return *)

Section ReturnFacts.
Context {RT : PyRuntime}.
Import Validator.

Lemma text_record_id i record :
  text_record record -> exists s, record_id_of i record = VStr s.
Proof.
  unfold record_id_of, Py.get_default. intros H.
  destruct (Py.get "record_id" record) as [v |] eqn:E; eauto.
Qed.

Lemma text_records_hashable data : Forall text_record data -> hashable_ids data.
Proof.
  intros H i record Hi. apply nth_error_In in Hi.
  rewrite Forall_forall in H.
  destruct (text_record_id i record (H _ Hi)) as [s ->]. reflexivity.
Qed.

Lemma add_record_issue_text res s t message :
  exists res', _add_record_issue res (VStr s) t message = Ok res'.
Proof. eexists. reflexivity. Qed.

Lemma check_required_returns required i record res :
  text_record record -> exists res', check_required required i record res = Ok res'.
Proof.
  intros H. unfold check_required. destruct (text_record_id i record H) as [s ->].
  destruct (List.filter _ required); eauto using add_record_issue_text.
Qed.

Lemma fails_returns format_rule kind check value :
  (exists b, check value = Ok b) ->
  exists b, fails format_rule kind check value = Ok b.
Proof.
  intros [b H]. unfold fails. rewrite H.
  destruct (Py.eq format_rule (VStr kind)); simpl; eauto.
Qed.

Lemma check_format_returns record s rule res :
  text_record record -> exists res', check_format record (VStr s) rule res = Ok res'.
Proof.
  intros Htext. destruct rule as [field format_rule]. unfold check_format.
  destruct (Py.get field record) as [value |] eqn:E; [| eauto].
  destruct (Htext _ _ E) as [t ->].
  destruct (Py.truthy (VStr t)); [| eauto].
  destruct (fails_returns format_rule "date" _is_valid_date (VStr t)) as [b ->].
  { unfold _is_valid_date.
    destruct (strptime_text t "%Y-%m-%d") as [[d H] | H]; rewrite H; eauto. }
  cbn [rbind]. destruct b; [apply add_record_issue_text |].
  destruct (fails_returns format_rule "email" _is_valid_email (VStr t)) as [b ->].
  { eexists. reflexivity. }
  cbn [rbind]. destruct b; [apply add_record_issue_text |].
  destruct (fails_returns format_rule "phone" _is_valid_phone (VStr t)) as [b ->].
  { eexists. reflexivity. }
  cbn [rbind]. destruct b; [apply add_record_issue_text | eauto].
Qed.

Lemma check_date_range_returns record s field rule res :
  text_record record -> text_bounds rule ->
  exists res', check_date_range record (VStr s) (field, rule) res = Ok res'.
Proof.
  intros Htext [[lo Hlo] [hi Hhi]]. unfold check_date_range.
  destruct (Py.get field record) as [value |] eqn:E; [| eauto].
  destruct (Htext _ _ E) as [t ->].
  destruct (Py.truthy (VStr t)); [| eauto].
  unfold Py.get_default, Py.index. rewrite Hlo, Hhi.
  destruct (strptime_text t "%Y-%m-%d") as [[d H] | H]; rewrite H;
    cbn [rbind except_ValueError]; [| apply add_record_issue_text].
  destruct (strptime_text lo "%Y-%m-%d") as [[dlo H1] | H1]; rewrite H1;
    cbn [rbind except_ValueError]; [| apply add_record_issue_text].
  destruct (strptime_text hi "%Y-%m-%d") as [[dhi H2] | H2]; rewrite H2;
    cbn [rbind except_ValueError]; [| apply add_record_issue_text].
  destruct (Py.date_lt d dlo);
    [cbn [rbind]; rewrite except_issue; apply add_record_issue_text |].
  destruct (Py.date_lt dhi d);
    [cbn [rbind]; rewrite except_issue; apply add_record_issue_text |].
  eexists. reflexivity.
Qed.

Lemma float_text s :
  (exists f, Py.float (VStr s) = Ok f) \/ Py.float (VStr s) = Raise ValueError.
Proof. cbn [Py.float]. destruct (float_of_str s); eauto. Qed.

Lemma numeric_bounds_convertible rule :
  numeric_bounds rule ->
  convertible (Py.get_default "min" (VFloat (FInf true)) rule)
  /\ convertible (Py.get_default "max" (VFloat (FInf false)) rule).
Proof.
  intros H. unfold Py.get_default. split.
  - destruct (Py.get "min" rule) as [v |] eqn:E; [apply H; auto |].
    split; discriminate.
  - destruct (Py.get "max" rule) as [v |] eqn:E; [apply H; auto |].
    split; discriminate.
Qed.

Lemma check_numeric_range_returns record s field rule res :
  text_record record -> numeric_bounds rule ->
  exists res', check_numeric_range record (VStr s) (field, rule) res = Ok res'.
Proof.
  intros Htext Hrule. unfold check_numeric_range.
  destruct (Py.get field record) as [raw |] eqn:E; [| eauto].
  destruct (Htext _ _ E) as [t ->].
  destruct (Py.truthy (VStr t)); [| eauto].
  destruct (numeric_bounds_convertible rule Hrule) as [Hlo Hhi].
  apply float_convertible in Hlo, Hhi.
  destruct (float_text t) as [[v H] | H]; rewrite H;
    cbn [rbind except_ValueError]; [| apply add_record_issue_text].
  destruct Hlo as [[lo H1] | H1]; rewrite H1;
    cbn [rbind except_ValueError]; [| apply add_record_issue_text].
  destruct Hhi as [[hi H2] | H2]; rewrite H2;
    cbn [rbind except_ValueError]; [| apply add_record_issue_text].
  destruct (Py.flt v lo); [rewrite except_issue; apply add_record_issue_text |].
  destruct (Py.flt hi v); [rewrite except_issue; apply add_record_issue_text |].
  eexists. reflexivity.
Qed.

Lemma text_record_nth data i record :
  Forall text_record data -> nth_error data i = Some record -> text_record record.
Proof.
  intros H Hi. rewrite Forall_forall in H. apply H. eapply nth_error_In. exact Hi.
Qed.

(** X3: [validate] returns, whatever the record set, when every cell is text
    and the rules are usable: a date rule names both of its bounds, as text,
    and a numeric rule's bounds are values [float] takes or refuses with
    [ValueError]. *)
Theorem validate_returns_on_text_records rules data :
  usable_rules rules -> Forall text_record data ->
  exists v, validate rules data = Ok v.
Proof.
  intros [Hdates Hnumbers] Htext.
  destruct data as [| record0 data0]; [eexists; reflexivity |].
  set (data := record0 :: data0) in *.
  unfold validate. cbv iota. fold data.
  set (res0 := mkresults true [] [] [] (mkstats (List.length data) 0 0 0)).
  clearbody res0.
  assert (H1 : exists res1, _check_required_fields rules data res0 = Ok res1).
  { unfold _check_required_fields. destruct (required_fields rules) as [| f l]; [eauto |].
    destruct (for_enumerate_returns (check_required (f :: l)) (fun _ => True) data)
      with (s := res0) as (res1 & H & _); [| exact I | eauto].
    intros i x st Hi _.
    destruct (check_required_returns (f :: l) i x st) as [st' H];
      [eapply text_record_nth; eauto | eauto]. }
  destruct H1 as [res1 ->]. cbn [rbind].
  assert (H2 : exists res2, _check_field_formats rules data res1 = Ok res2).
  { unfold _check_field_formats. destruct (field_formats rules) as [| f l]; [eauto |].
    destruct (for_enumerate_returns
                (fun i record res =>
                   for_each (check_format record (record_id_of i record)) (f :: l) res)
                (fun _ => True) data)
      with (s := res1) as (res2 & H & _); [| exact I | eauto].
    intros i x st Hi _.
    assert (Hx : text_record x) by (eapply text_record_nth; eauto).
    destruct (text_record_id i x Hx) as [id ->].
    apply for_each_returns; [| exact I].
    intros rule t _ _. destruct (check_format_returns x id rule t Hx) as [t' H]. eauto. }
  destruct H2 as [res2 ->]. cbn [rbind].
  assert (H3 : exists res3, _check_date_ranges rules data res2 = Ok res3).
  { unfold _check_date_ranges. destruct (date_range rules) as [| f l] eqn:E; [eauto |].
    destruct (for_enumerate_returns
                (fun i record res =>
                   for_each (check_date_range record (record_id_of i record)) (f :: l) res)
                (fun _ => True) data)
      with (s := res2) as (res3 & H & _); [| exact I | eauto].
    intros i x st Hi _.
    assert (Hx : text_record x) by (eapply text_record_nth; eauto).
    destruct (text_record_id i x Hx) as [id ->].
    apply for_each_returns; [| exact I].
    intros [field rule] t Hin _.
    destruct (check_date_range_returns x id field rule t Hx) as [t' H]; [| eauto].
    apply (Hdates field). exact Hin. }
  destruct H3 as [res3 ->]. cbn [rbind].
  assert (H4 : exists res4, _check_numeric_ranges rules data res3 = Ok res4).
  { unfold _check_numeric_ranges. destruct (numeric_range rules) as [| f l] eqn:E; [eauto |].
    destruct (for_enumerate_returns
                (fun i record res =>
                   for_each (check_numeric_range record (record_id_of i record)) (f :: l) res)
                (fun _ => True) data)
      with (s := res3) as (res4 & H & _); [| exact I | eauto].
    intros i x st Hi _.
    assert (Hx : text_record x) by (eapply text_record_nth; eauto).
    destruct (text_record_id i x Hx) as [id ->].
    apply for_each_returns; [| exact I].
    intros [field rule] t Hin _.
    destruct (check_numeric_range_returns x id field rule t Hx) as [t' H]; [| eauto].
    apply (Hnumbers field). exact Hin. }
  destruct H4 as [res4 ->]. cbn [rbind].
  assert (H5 : exists res5, _check_data_consistency data res4 = Ok res5).
  { unfold _check_data_consistency.
    pose proof (text_records_hashable data Htext) as Hids.
    destruct (@duplicate_ids_spec data Hids) as (dups & -> & _). cbn [rbind].
    destruct (@presence_loop (all_fields data) data 0%nat
                (fold_left (fun res dup_id =>
                              with_errors res (errors res ++ [duplicate_message dup_id]))
                           dups res4)) as (res5 & H & _); [| eauto].
    intros j record Hj. apply Hids. exact Hj. }
  destruct H5 as [res5 ->]. cbn [rbind]. eexists. reflexivity.
Qed.

End ReturnFacts.

(** ** Required fields, identifiers, bounds *)

Section RuleFacts.
Context {RT : PyRuntime}.
Import Validator Security.

Lemma sum_issue_errors k entry d :
  error_sum ((k, entry) :: d) = (List.length (issue_errors entry) + error_sum d)%nat.
Proof. reflexivity. Qed.

Lemma sum_issue_warnings k entry d :
  warning_sum ((k, entry) :: d) = (List.length (issue_warnings entry) + warning_sum d)%nat.
Proof. reflexivity. Qed.

Lemma add_issue_entry_errors rid message d :
  error_sum (add_issue_entry rid Errors message d) = S (error_sum d)
  /\ warning_sum (add_issue_entry rid Errors message d) = warning_sum d.
Proof.
  induction d as [| [k entry] d [IHe IHw]]; cbn [add_issue_entry].
  - split; reflexivity.
  - destruct (Py.same rid k).
    + rewrite !sum_issue_errors, !sum_issue_warnings. cbn [append_issue issue_errors issue_warnings].
      rewrite length_app. cbn [List.length]. split; lia.
    + rewrite !sum_issue_errors, !sum_issue_warnings, IHe, IHw. split; lia.
Qed.

Lemma add_issue_entry_has rid t message d :
  exists k entry,
    In (k, entry) (add_issue_entry rid t message d)
    /\ (k = rid \/ Py.eq rid k = true)
    /\ In message (issue_list t entry).
Proof.
  induction d as [| [k entry] d IH]; cbn [add_issue_entry].
  - exists rid, (append_issue t message (mkissues [] [])).
    split; [left; reflexivity |]. split; [auto |]. destruct t; simpl; auto.
  - destruct (Py.same rid k) eqn:E.
    + exists k, (append_issue t message entry).
      split; [left; reflexivity |]. split; [destruct (same_cases _ _ E); auto |].
      destruct t; simpl; apply in_or_app; right; left; reflexivity.
    + destruct IH as (k' & entry' & Hin & Hk & Hm).
      exists k', entry'. split; [right; exact Hin | auto].
Qed.

Lemma add_issue_entry_still rid t message d k entry t' m :
  In (k, entry) d -> In m (issue_list t' entry) ->
  exists entry',
    In (k, entry') (add_issue_entry rid t message d) /\ In m (issue_list t' entry').
Proof.
  induction d as [| [k0 entry0] d IH]; cbn [add_issue_entry]; intros Hin Hm; [destruct Hin |].
  destruct Hin as [Heq | Hin].
  - injection Heq as -> ->. destruct (Py.same rid k).
    + exists (append_issue t message entry). split; [left; reflexivity |].
      destruct t, t'; simpl in *; auto; apply in_or_app; left; exact Hm.
    + exists entry. split; [left; reflexivity | exact Hm].
  - destruct (Py.same rid k0).
    + exists entry. split; [right; exact Hin | exact Hm].
    + destruct (IH Hin Hm) as (entry' & Hin' & Hm').
      exists entry'. split; [right; exact Hin' | exact Hm'].
Qed.

Lemma lacks_filter required record :
  lacks required record
  = match List.filter (fun field => negb (present field record)) required with
    | [] => false
    | _ => true
    end.
Proof.
  unfold lacks. induction required as [| f required IH]; simpl; [reflexivity |].
  destruct (negb (present f record)); simpl; [reflexivity | exact IH].
Qed.

Lemma check_required_step required i record res res' :
  check_required required i record res = Ok res' ->
  (lacks required record = false /\ res' = res)
  \/ (lacks required record = true
      /\ res' = with_record_issues res
                  (add_issue_entry (record_id_of i record) Errors
                     (required_message required record) (record_issues res))).
Proof.
  unfold check_required, required_message. rewrite lacks_filter.
  destruct (List.filter _ required) as [| f l]; intros H.
  - left. injection H as <-. auto.
  - right. unfold _add_record_issue in H.
    destruct (Py.hashable (record_id_of i record)); [| discriminate].
    injection H as <-. auto.
Qed.

Lemma required_loop required data : forall i res res',
  for_enumerate (check_required required) i data res = Ok res' ->
  error_sum (record_issues res')
  = (error_sum (record_issues res) + List.length (List.filter (lacks required) data))%nat
  /\ warning_sum (record_issues res') = warning_sum (record_issues res)
  /\ errors res' = errors res
  /\ warnings res' = warnings res
  /\ (forall j record,
        nth_error data j = Some record -> lacks required record = true ->
        exists k entry,
          In (k, entry) (record_issues res')
          /\ (k = record_id_of (i + j) record
              \/ Py.eq (record_id_of (i + j) record) k = true)
          /\ In (required_message required record) (issue_errors entry))
  /\ (forall k entry m,
        In (k, entry) (record_issues res) -> In m (issue_errors entry) ->
        exists entry', In (k, entry') (record_issues res') /\ In m (issue_errors entry')).
Proof.
  induction data as [| record data IH]; intros i res res' H; cbn [for_enumerate] in H.
  - injection H as <-. cbn. repeat split; try lia.
    + intros [| j] record H; discriminate.
    + intros k entry m Hin Hm. eauto.
  - apply rbind_Ok in H. destruct H as (res1 & Hstep & Hrest).
    destruct (IH _ _ _ Hrest) as (He & Hw & Herr & Hwarn & Hnew & Hold). clear IH.
    apply check_required_step in Hstep.
    destruct Hstep as [[Hlack ->] | [Hlack ->]]; cbn [List.filter]; rewrite Hlack.
    + repeat split; auto.
      intros [| j] r Hj Hr.
      * injection Hj as <-. congruence.
      * replace (i + S j)%nat with (S i + j)%nat by lia. apply Hnew; assumption.
    + cbn [with_record_issues record_issues errors warnings] in *.
      destruct (add_issue_entry_errors (record_id_of i record)
                  (required_message required record) (record_issues res)) as [Ee Ew].
      rewrite Ee in He. rewrite Ew in Hw. cbn [List.length].
      repeat split; auto; try lia.
      * intros [| j] r Hj Hr.
        -- injection Hj as <-. rewrite Nat.add_0_r.
           destruct (add_issue_entry_has (record_id_of i record) Errors
                       (required_message required record) (record_issues res))
             as (k & entry & Hin & Hk & Hm).
           destruct (Hold k entry _ Hin Hm) as (entry' & Hin' & Hm').
           exists k, entry'. auto.
        -- replace (i + S j)%nat with (S i + j)%nat by lia. apply Hnew; assumption.
      * intros k entry m Hin Hm.
        destruct (add_issue_entry_still (record_id_of i record) Errors
                    (required_message required record) (record_issues res)
                    k entry Errors m Hin Hm) as (entry1 & Hin1 & Hm1).
        apply (Hold k entry1 m Hin1 Hm1).
Qed.

(** X4: the required-fields check, when it returns, has put exactly one
    error on every record that lacks a required field (a field that is
    absent, or whose value is falsy), however many fields the record lacks:
    the per-record errors grow by the number of such records, the message
    under the record's identifier lists the lacking fields in the order of
    the rule, and no warning and no global message is added. *)
Theorem required_check_one_error_per_record rules data res res' :
  _check_required_fields rules data res = Ok res' ->
  error_sum (record_issues res')
  = (error_sum (record_issues res)
     + List.length (List.filter (lacks (required_fields rules)) data))%nat
  /\ warning_sum (record_issues res') = warning_sum (record_issues res)
  /\ errors res' = errors res
  /\ warnings res' = warnings res
  /\ (forall i record,
        nth_error data i = Some record ->
        lacks (required_fields rules) record = true ->
        exists k entry,
          In (k, entry) (record_issues res')
          /\ (k = record_id_of i record \/ Py.eq (record_id_of i record) k = true)
          /\ In (required_message (required_fields rules) record) (issue_errors entry)).
Proof.
  unfold _check_required_fields.
  destruct (required_fields rules) as [| f required] eqn:E; intros H.
  - injection H as <-.
    assert (Hnone : List.filter (lacks []) data = []).
    { induction data as [| r data IH]; [reflexivity | exact IH]. }
    rewrite Hnone. cbn [List.length]. repeat split; try lia.
    intros i record _ Hlack. discriminate.
  - destruct (required_loop (f :: required) data 0%nat res res' H)
      as (He & Hw & Herr & Hwarn & Hnew & _).
    repeat split; auto.
Qed.

(** X5: a verdict on records that is valid means that no identifier stands
    on two records and that no entry of [record_issues] holds an error; and
    with no rule configured, [validate] is valid as soon as no identifier
    stands on two records. *)
Theorem valid_verdict_distinct_ids rules data r :
  validate rules data = Ok (Full r) ->
  (is_valid r = true ->
   distinct_ids data
   /\ Forall (fun entry => issue_errors (snd entry) = []) (record_issues r))
  /\ (required_fields rules = [] -> field_formats rules = [] ->
      date_range rules = [] -> numeric_range rules = [] ->
      distinct_ids data -> is_valid r = true).
Proof.
  intros Hrun. split.
  - apply validate_run in Hrun.
    destruct Hrun as (res & dups & Hdups & (He & Hw & Hs & Hd) & ->).
    cbn [is_valid record_issues]. intros Hvalid.
    apply Nat.eqb_eq in Hvalid. unfold count_errors in Hvalid.
    assert (Hnone : dups = []).
    { rewrite He, length_map in Hvalid. destruct dups; [reflexivity | simpl in Hvalid; lia]. }
    subst dups. split; [apply duplicate_ids_none; exact Hdups |].
    assert (Hsum : sum (map (fun e => List.length (issue_errors (snd e)))
                          (record_issues res)) = 0%nat) by lia.
    clear - Hsum. induction (record_issues res) as [| [k entry] d IH]; constructor.
    + cbn in Hsum |- *. destruct (issue_errors entry); [reflexivity | simpl in Hsum; lia].
    + apply IH. cbn in Hsum. unfold sum. lia.
  - intros Hreq Hfmt Hdate Hnum Hdistinct.
    destruct data as [| record data]; [discriminate |].
    unfold validate, _check_required_fields, _check_field_formats,
      _check_date_ranges, _check_numeric_ranges in Hrun.
    rewrite Hreq, Hfmt, Hdate, Hnum in Hrun. cbn [rbind] in Hrun.
    apply rbind_Ok in Hrun. destruct Hrun as (res5 & H5 & Hrun).
    injection Hrun as <-. cbn [is_valid]. apply Nat.eqb_eq.
    unfold _check_data_consistency in H5.
    apply duplicate_ids_none in Hdistinct. rewrite Hdistinct in H5.
    cbn [rbind fold_left] in H5.
    assert (Hinv : errors res5 = [] /\ error_sum (record_issues res5) = 0%nat).
    { revert H5.
      apply (for_enumerate_invariant (check_presence (all_fields (record :: data)))
               (fun res => errors res = [] /\ error_sum (record_issues res) = 0%nat));
        [| split; reflexivity].
      intros i x s s' _ [He Hsum] Hbody. unfold check_presence in Hbody.
      destruct (missing_fields _ x); [injection Hbody as <-; auto |].
      unfold _add_record_issue in Hbody.
      destruct (Py.hashable (record_id_of i x)); [| discriminate].
      injection Hbody as <-. cbn [errors record_issues with_record_issues].
      rewrite add_issue_entry_error_sum. auto. }
    destruct Hinv as [He Hsum]. cbn [total_errors]. unfold count_errors. rewrite He.
    unfold error_sum in Hsum. cbn [List.length]. exact Hsum.
Qed.

Lemma default_min_date :
  Py.strptime (VStr "1900-01-01") "%Y-%m-%d" = Ok (mkdate 1900 1 1).
Proof. reflexivity. Qed.

Lemma default_max_date :
  Py.strptime (VStr "2100-12-31") "%Y-%m-%d" = Ok (mkdate 2100 12 31).
Proof. reflexivity. Qed.

(** X6: a date rule that leaves a bound out compares with the default bound
    (1900-01-01, 2100-12-31) and then looks the bound up in the rule to write
    the message.  On a text value that parses: with no [min], a date before
    1900 raises [KeyError('min')]; with no [max], a date after 2100 that the
    lower bound lets through raises [KeyError('max')]; with neither, a date
    from 1900-01-01 to 2100-12-31 passes with nothing reported. *)
Theorem date_range_absent_bound record rid field rule res s d :
  (Py.get field record = Some (VStr s) -> s <> "" ->
   Py.strptime_str s "%Y-%m-%d" = Some d ->
   Py.get "min" rule = None ->
   forall hi,
     Py.strptime (Py.get_default "max" (VStr "2100-12-31") rule) "%Y-%m-%d" = Ok hi ->
     Py.date_lt d (mkdate 1900 1 1) = true ->
     check_date_range record rid (field, rule) res = Raise (KeyError "min"))
  /\ (Py.get field record = Some (VStr s) -> s <> "" ->
      Py.strptime_str s "%Y-%m-%d" = Some d ->
      Py.get "max" rule = None ->
      forall lo,
        Py.strptime (Py.get_default "min" (VStr "1900-01-01") rule) "%Y-%m-%d" = Ok lo ->
        Py.date_lt d lo = false ->
        Py.date_lt (mkdate 2100 12 31) d = true ->
        check_date_range record rid (field, rule) res = Raise (KeyError "max"))
  /\ (Py.get field record = Some (VStr s) -> s <> "" ->
      Py.strptime_str s "%Y-%m-%d" = Some d ->
      Py.get "min" rule = None -> Py.get "max" rule = None ->
      Py.date_lt d (mkdate 1900 1 1) = false ->
      Py.date_lt (mkdate 2100 12 31) d = false ->
      check_date_range record rid (field, rule) res = Ok res).
Proof.
  assert (Htruthy : s <> "" -> Py.truthy (VStr s) = true).
  { intros Hs. simpl. destruct (String.eqb_spec s ""); [contradiction | reflexivity]. }
  assert (Hvalue : Py.strptime_str s "%Y-%m-%d" = Some d ->
                   Py.strptime (VStr s) "%Y-%m-%d" = Ok d).
  { intros H. cbn [Py.strptime]. rewrite H. reflexivity. }
  split; [| split].
  - intros Hget Hs Hd Hmin hi Hhi Hlt. unfold check_date_range.
    rewrite Hget, (Htruthy Hs), (Hvalue Hd), Hhi.
    unfold Py.get_default at 1. rewrite Hmin, default_min_date.
    cbn [rbind]. rewrite Hlt. unfold Py.index. rewrite Hmin. reflexivity.
  - intros Hget Hs Hd Hmax lo Hlo Hge Hgt. unfold check_date_range.
    rewrite Hget, (Htruthy Hs), (Hvalue Hd), Hlo.
    unfold Py.get_default at 1. rewrite Hmax, default_max_date.
    cbn [rbind]. rewrite Hge, Hgt. unfold Py.index. rewrite Hmax. reflexivity.
  - intros Hget Hs Hd Hmin Hmax Hge Hle. unfold check_date_range.
    rewrite Hget, (Htruthy Hs), (Hvalue Hd).
    unfold Py.get_default. rewrite Hmin, Hmax, default_min_date, default_max_date.
    cbn [rbind]. rewrite Hge, Hle. reflexivity.
Qed.

(** X7: on text the email test returns, and accepts exactly the texts with an
    [@] whose next piece, up to a further [@] or the end, holds a dot; the
    phone test accepts exactly the texts with ten digits or more.  A text the
    email test accepts is one the redaction treats as an address: the piece
    between the first [@] and the next one (or the end) stays in clear behind
    a masked local part of the same length, and what follows a second [@] is
    dropped, so that ["a@b.c@d"] becomes ["*@b.c"]. *)
Theorem email_test_accepts s :
  (_is_valid_email (VStr s) = Ok true <-> email_shaped s)
  /\ (_is_valid_email (VStr s) = Ok false <-> ~ email_shaped s)
  /\ (_is_valid_phone (VStr s) = Ok true
      <-> (10 <= String.length (Str.filter Str.is_digit s))%nat)
  /\ (forall local domain rest,
        s = local ++ "@" ++ domain ++ rest ->
        Str.mem "@" local = false -> Str.mem "@" domain = false ->
        Str.mem "." domain = true ->
        rest = "" \/ (exists r, rest = String "@" r) ->
        _is_valid_email (VStr s) = Ok true
        /\ exists masked,
             _redact_phi s = masked ++ "@" ++ domain
             /\ String.length masked = String.length local)
  /\ _is_valid_email (VStr "a@b.c@d") = Ok true
  /\ _redact_phi "a@b.c@d" = "*@b.c".
Proof.
  split; [| split; [| split; [| split; [| split; reflexivity]]]];
    revert s; intros s;
    pose proof (email_test_iff s) as Hiff; cbn [_is_valid_email _is_valid_phone];
    destruct (Str.mem "@" s && Str.mem "." (nth 1 (Str.split "@" s) "")) eqn:E.
  - tauto.
  - split; [discriminate |]. intros H. apply Hiff in H. discriminate.
  - split; [discriminate |]. intros Hn. exfalso. apply Hn. apply Hiff. reflexivity.
  - split; [intros _ H; apply Hiff in H; discriminate | reflexivity].
  - split; [intros H; injection H as H; apply Nat.leb_le; exact H |].
    intros H. apply Nat.leb_le in H. rewrite H. reflexivity.
  - split; [intros H; injection H as H; apply Nat.leb_le; exact H |].
    intros H. apply Nat.leb_le in H. rewrite H. reflexivity.
  - intros local domain rest Hs Hl Hd Hdot Hrest. split; [reflexivity |].
    destruct (@split_email local domain rest Hl Hd Hrest) as (_ & H0 & H1).
    rewrite <- Hs in H0, H1.
    unfold _redact_phi. rewrite E, H0, H1.
    destruct (String.eqb_spec s "") as [-> | Hne]; [discriminate |].
    eexists. split; [reflexivity |]. clear.
    destruct (2 <? String.length local)%nat eqn:El.
    + apply Nat.ltb_lt in El. rewrite !str_length_app, str_length_stars.
      destruct local as [| a [| b local]]; cbn [String.length] in El; try lia.
      cbn [Str.take String.length]. unfold Str.take_last.
      cbn [String.length]. replace (S (S (String.length local)) - 1)%nat
        with (S (String.length local)) by lia.
      cbn [Str.drop].
      assert (Hdrop : forall (t : string) c,
                 String.length (Str.drop (String.length t) (String c t)) = 1%nat).
      { clear. induction t as [| x t IH]; intros c; [reflexivity |].
        cbn [String.length Str.drop]. apply IH. }
      rewrite Hdrop. lia.
    + apply str_length_stars.
  - intros local domain rest Hs Hl Hd Hdot Hrest. exfalso.
    assert (Hshape : email_shaped s) by (exists local, domain, rest; auto).
    apply Hiff in Hshape. discriminate.
Qed.

End RuleFacts.

(** ** Names the patterns know *)

Section DetectionFacts.
Import Security.

Lemma prefix_iff p : forall s, String.prefix p s = true <-> exists r, s = p ++ r.
Proof.
  induction p as [| c p IH]; intros s.
  - split; [intros _; exists s; reflexivity | destruct s; reflexivity].
  - destruct s as [| d s]; cbn [String.prefix].
    + split; [discriminate | intros [r H]; discriminate].
    + destruct (ascii_dec c d) as [-> | Hne].
      * rewrite IH. split; intros [r H]; exists r; [rewrite H; reflexivity |].
        injection H as H. exact H.
      * split; [discriminate |]. intros [r H]. injection H as H _. congruence.
Qed.

Lemma contains_iff p : forall s,
  Str.contains p s = true <-> exists a b, s = a ++ p ++ b.
Proof.
  intros s. split.
  - induction s as [| c s IH]; cbn [Str.contains]; intros H.
    + rewrite orb_false_r in H. apply prefix_iff in H. destruct H as [r H].
      exists "", r. exact H.
    + apply orb_true_iff in H. destruct H as [H | H].
      * apply prefix_iff in H. destruct H as [r H]. exists "", r. exact H.
      * destruct (IH H) as (a & b & ->). exists (String c a), b. reflexivity.
  - intros (a & b & ->). induction a as [| c a IH].
    + cbn [append]. destruct (p ++ b) eqn:E; cbn [Str.contains]; rewrite <- E;
        rewrite str_prefix_app; reflexivity.
    + cbn [append Str.contains]. rewrite IH. apply orb_true_r.
Qed.

Lemma lower_app a b : Str.lower (a ++ b) = Str.lower a ++ Str.lower b.
Proof. induction a as [| c a IH]; simpl; [reflexivity | rewrite IH; reflexivity]. Qed.

Lemma lower_char_idem c : Str.lower_char (Str.lower_char c) = Str.lower_char c.
Proof. destruct c as [[] [] [] [] [] [] [] []]; reflexivity. Qed.

Lemma lower_idem s : Str.lower (Str.lower s) = Str.lower s.
Proof.
  induction s as [| c s IH]; simpl; [reflexivity |].
  rewrite lower_char_idem, IH. reflexivity.
Qed.

Lemma contains_app p pre s suf :
  Str.contains p s = true -> Str.contains p (pre ++ s ++ suf) = true.
Proof.
  intros H. apply contains_iff in H. destruct H as (a & b & ->).
  apply contains_iff. exists (pre ++ a), (b ++ suf).
  rewrite !str_app_assoc. reflexivity.
Qed.

Lemma is_phi_name_app pre field suf :
  is_phi_name field = true -> is_phi_name (pre ++ field ++ suf) = true.
Proof.
  unfold is_phi_name, re_search. intros H.
  apply existsb_exists in H. destruct H as (pattern & Hp & H).
  apply existsb_exists in H. destruct H as (word & Hw & H).
  apply existsb_exists. exists pattern. split; [exact Hp |].
  apply existsb_exists. exists word. split; [exact Hw |].
  rewrite !lower_app. apply contains_app. exact H.
Qed.

(** X8: a column name is taken for PHI when it holds one of the words of the
    patterns, in any case and anywhere in the name.  So a name that holds a
    detected name is detected: the sibling [<field>_encrypted] of a detected
    field, and every name with [id] in it; and the case of the letters does
    not matter. *)
Theorem phi_name_detection_closed field :
  (forall pre suf,
     is_phi_name field = true -> is_phi_name (pre ++ field ++ suf) = true)
  /\ (is_phi_name field = true -> is_phi_name (field ++ "_encrypted") = true)
  /\ is_phi_name (Str.lower field) = is_phi_name field
  /\ (Str.contains "id" (Str.lower field) = true -> is_phi_name field = true)
  /\ (forall keys,
        In field (List.filter is_phi_name keys) ->
        In (field ++ "_encrypted") keys ->
        In (field ++ "_encrypted") (List.filter is_phi_name keys)).
Proof.
  split; [intros pre suf; apply is_phi_name_app |].
  split; [intros H; apply (is_phi_name_app "" field "_encrypted" H) |].
  split; [unfold is_phi_name, re_search; rewrite lower_idem; reflexivity |].
  split.
  - intros H. unfold is_phi_name, re_search. cbn [phi_field_patterns existsb].
    rewrite H. rewrite !orb_true_r. reflexivity.
  - intros keys Hin Hsib. apply filter_In in Hin. destruct Hin as [_ Hname].
    apply filter_In. split; [exact Hsib |].
    apply (is_phi_name_app "" field "_encrypted" Hname).
Qed.

End DetectionFacts.

(** ** What the secure operation leaves of a record *)

Section PassThroughFacts.
Context {RT : PyRuntime}.
Import Security.

Lemma keys_set {V} k (v : V) d :
  Py.keys (Py.set k v d) = if Py.has k d then Py.keys d else (Py.keys d ++ [k])%list.
Proof.
  unfold Py.has, Py.keys.
  induction d as [| [k' v'] d IH]; cbn [Py.set Py.get]; [reflexivity |].
  destruct (String.eqb k k'); [reflexivity |].
  cbn [map fst]. rewrite IH.
  destruct (Py.get k d); reflexivity.
Qed.

Lemma has_get {V} k (d : list (string * V)) v : Py.get k d = Some v -> Py.has k d = true.
Proof. unfold Py.has. intros ->. reflexivity. Qed.

Lemma has_set_kept {V} k g (v : V) d : Py.has k d = true -> Py.has k (Py.set g v d) = true.
Proof.
  unfold Py.has. destruct (String.eqb_spec k g) as [-> | Hne].
  - rewrite get_set_same. reflexivity.
  - rewrite get_set_other by exact Hne. auto.
Qed.

Lemma secure_field_pure_keys self g st :
  exists extra,
    Py.keys (fst (secure_field_pure self g st)) = (Py.keys (fst st) ++ extra)%list
    /\ (cipher self = None -> extra = [])
    /\ (forall k, In k extra -> k = g ++ "_encrypted").
Proof.
  destruct st as [d r]. unfold secure_field_pure.
  assert (Hnone : exists extra : list string,
             Py.keys d = (Py.keys d ++ extra)%list
             /\ (cipher self = None -> extra = [])
             /\ (forall k, In k extra -> k = g ++ "_encrypted")).
  { exists []. rewrite app_nil_r. split; [reflexivity |]. split; [auto |].
    intros k []. }
  destruct (Py.get g d) as [v |] eqn:E; [| exact Hnone].
  destruct (Py.truthy v); [| exact Hnone].
  apply has_get in E.
  destruct (cipher self) as [key |]; cbn [fst].
  - rewrite keys_set, has_set_kept by exact E. rewrite keys_set.
    destruct (Py.has (g ++ "_encrypted") d).
    + exists []. rewrite app_nil_r. split; [reflexivity |]. split; [auto |].
      intros k [].
    + exists [g ++ "_encrypted"]. split; [reflexivity |]. split; [discriminate |].
      intros k [<- | []]. reflexivity.
  - rewrite keys_set, E. exact Hnone.
Qed.

Lemma secure_fields_pure_keys self fields : forall st,
  exists extra,
    Py.keys (fst (secure_fields_pure self fields st)) = (Py.keys (fst st) ++ extra)%list
    /\ (cipher self = None -> extra = [])
    /\ (forall k, In k extra -> exists g, In g fields /\ k = g ++ "_encrypted").
Proof.
  induction fields as [| g fields IH]; intros st.
  - exists []. rewrite app_nil_r. split; [reflexivity |]. split; [auto |].
    intros k [].
  - rewrite secure_fields_pure_cons.
    destruct (IH (secure_field_pure self g st)) as (extra2 & Hk2 & Hn2 & Ho2).
    destruct (secure_field_pure_keys self g st) as (extra1 & Hk1 & Hn1 & Ho1).
    exists (extra1 ++ extra2)%list. rewrite Hk2, Hk1, app_assoc.
    split; [reflexivity |]. split.
    + intros Hc. rewrite (Hn1 Hc), (Hn2 Hc). reflexivity.
    + intros k Hin. apply in_app_or in Hin. destruct Hin as [Hin | Hin].
      * exists g. split; [left; reflexivity | apply Ho1; exact Hin].
      * destruct (Ho2 k Hin) as (g' & Hg' & ->). exists g'. split; [right |]; auto.
Qed.

(** X9: what the secure operation returns is one new record per input
    record, in the same order; a field that is neither a listed PHI field nor
    a listed field's [_encrypted] sibling has in it the value it had; the
    keys of the input record come first, in their order, followed only by
    siblings of listed fields, and by none when the handler has no cipher. *)
Theorem secure_phi_data_keeps_other_fields self data w self' secured w' :
  Forall (fun a => (a < List.length (heap w))%nat) data ->
  _secure_phi_data self data w = (Ok (self', secured), w') ->
  Forall2
    (fun record out =>
       (forall k, untouched (phi_fields self') k ->
                  Py.get k (deref (heap w') out) = Py.get k (deref (heap w) record))
       /\ (exists extra,
             Py.keys (deref (heap w') out)
             = (Py.keys (deref (heap w) record) ++ extra)%list
             /\ (cipher self = None -> extra = [])
             /\ (forall k, In k extra ->
                           exists g, In g (phi_fields self') /\ k = g ++ "_encrypted")))
    data secured.
Proof.
  intros Hvalid Hrun.
  rewrite secure_phi_data_run in Hrun. cbv zeta in Hrun.
  inversion Hrun as [[Hself Hsecured Hw']]. clear Hrun.
  set (fields := resolved_fields self data (heap w)) in *.
  set (handler := mkhandler (secure_mode self) fields (cipher self)) in *.
  pose proof (@secured_dicts_spec RT handler data (heap w) [] (entropy w) Hvalid) as Hspec.
  rewrite app_nil_r in Hspec.
  apply Forall2_new_objects with (pre := heap w) in Hspec.
  cbn [heap phi_fields].
  eapply Forall2_impl; [| exact Hspec].
  intros record out (r' & Hd). rewrite Hd. cbn [phi_fields handler]. split.
  - intros k Hk. rewrite secure_fields_pure_other; [reflexivity | exact Hk].
  - destruct (secure_fields_pure_keys handler fields (deref (heap w) record, r'))
      as (extra & Hkeys & Hplain & Horigin).
    exists extra. split; [exact Hkeys |]. split; [exact Hplain | exact Horigin].
Qed.

End PassThroughFacts.

(** ** How much a redacted value shows *)

Section MaskFacts.
Import Security.

Lemma length_take n : forall s, String.length (Str.take n s) = Nat.min n (String.length s).
Proof.
  induction n as [| n IH]; intros [| c s]; cbn [Str.take String.length]; auto.
  rewrite IH. reflexivity.
Qed.

Lemma length_drop n : forall s, String.length (Str.drop n s) = (String.length s - n)%nat.
Proof.
  induction n as [| n IH]; intros [| c s]; cbn [Str.drop String.length]; auto.
Qed.

Lemma length_take_last n s :
  String.length (Str.take_last n s) = Nat.min n (String.length s).
Proof. unfold Str.take_last. rewrite length_drop. lia. Qed.

Lemma filter_app p a b : Str.filter p (a ++ b) = Str.filter p a ++ Str.filter p b.
Proof.
  induction a as [| c a IH]; cbn [append Str.filter]; [reflexivity |].
  destruct (p c); rewrite IH; reflexivity.
Qed.

Lemma length_filter_le p s : (String.length (Str.filter p s) <= String.length s)%nat.
Proof.
  induction s as [| c s IH]; cbn [Str.filter String.length]; [lia |].
  destruct (p c); cbn [String.length]; lia.
Qed.

Lemma visible_app a b : visible (a ++ b) = (visible a + visible b)%nat.
Proof. unfold visible. rewrite filter_app, str_length_app. reflexivity. Qed.

Lemma visible_stars n : visible (Str.stars n) = 0%nat.
Proof. unfold visible. induction n as [| n IH]; [reflexivity | exact IH]. Qed.

Lemma visible_le s : (visible s <= String.length s)%nat.
Proof. apply length_filter_le. Qed.

(** Keeping [k] characters at either end of a text around a masked middle. *)
Lemma mask_ends k s :
  (2 * k <= String.length s)%nat ->
  let masked := Str.take k s ++ Str.stars (String.length s - 2 * k) ++ Str.take_last k s in
  String.length masked = String.length s /\ (visible masked <= 2 * k)%nat.
Proof.
  intros Hlen masked. unfold masked. split.
  - rewrite !str_length_app, str_length_stars, length_take, length_take_last. lia.
  - rewrite !visible_app, visible_stars.
    pose proof (visible_le (Str.take k s)) as H1.
    pose proof (visible_le (Str.take_last k s)) as H2.
    rewrite length_take in H1. rewrite length_take_last in H2. lia.
Qed.

Lemma redact_phi_shown value :
  (String.length (_redact_phi value) <= String.length value)%nat
  /\ (~ email_shaped value -> (visible (_redact_phi value) <= 4)%nat)
  /\ (email_shaped value ->
      exists masked,
        _redact_phi value = masked ++ "@" ++ nth 1 (Str.split "@" value) ""
        /\ (visible masked <= 2)%nat).
Proof.
  pose proof (email_test_iff value) as Hiff. unfold _redact_phi.
  destruct (String.eqb_spec value "") as [-> | Hne].
  { split; [reflexivity |]. split; [intros _; cbn; lia |].
    intros H. apply Hiff in H. discriminate. }
  destruct (Str.mem "@" value && Str.mem "." (nth 1 (Str.split "@" value) "")) eqn:E.
  - assert (Hshape : email_shaped value) by (apply Hiff; reflexivity).
    set (local := nth 0 (Str.split "@" value) "").
    set (domain := nth 1 (Str.split "@" value) "").
    set (masked := if (2 <? String.length local)%nat
                   then Str.take 1 local ++ Str.stars (String.length local - 2)
                        ++ Str.take_last 1 local
                   else Str.stars (String.length local)).
    assert (Hmasked : String.length masked = String.length local
                      /\ (visible masked <= 2)%nat).
    { unfold masked. destruct (2 <? String.length local)%nat eqn:El.
      - apply Nat.ltb_lt in El. apply (mask_ends 1 local). lia.
      - rewrite str_length_stars, visible_stars. split; [reflexivity | lia]. }
    destruct Hmasked as [Hlen Hvis].
    split; [| split; [intros Hn; contradiction | exists masked; auto]].
    destruct Hshape as (l & d & rest & Hvalue & Hl & Hd & _ & Hrest).
    destruct (@split_email l d rest Hl Hd Hrest) as (_ & H0 & H1).
    rewrite <- Hvalue in H0, H1.
    rewrite !str_length_app, Hlen. unfold local, domain. rewrite H0, H1.
    rewrite Hvalue, !str_length_app. lia.
  - assert (Hshape : ~ email_shaped value)
      by (intros H; apply Hiff in H; discriminate).
    assert (Hgoal : forall masked,
               (String.length masked <= String.length value)%nat ->
               (visible masked <= 4)%nat ->
               (String.length masked <= String.length value)%nat
               /\ (~ email_shaped value -> (visible masked <= 4)%nat)
               /\ (email_shaped value ->
                   exists m, masked = m ++ "@" ++ nth 1 (Str.split "@" value) ""
                             /\ (visible m <= 2)%nat)).
    { intros masked Hl Hv. split; [exact Hl |]. split; [auto |].
      intros H. contradiction. }
    destruct (matches_phone value).
    + set (digits := Str.filter Str.is_digit value).
      pose proof (length_filter_le Str.is_digit value) as Hd. fold digits in Hd.
      destruct (4 <? String.length digits)%nat eqn:El; apply Hgoal.
      * apply Nat.ltb_lt in El.
        destruct (mask_ends 2 digits) as [H _]; [lia |].
        cbn [Nat.mul Nat.add] in H. rewrite H. exact Hd.
      * apply Nat.ltb_lt in El. destruct (mask_ends 2 digits) as [_ H]; [lia |].
        exact H.
      * rewrite str_length_stars. exact Hd.
      * rewrite visible_stars. lia.
    + destruct (6 <? String.length value)%nat eqn:El; apply Hgoal.
      * apply Nat.ltb_lt in El. destruct (mask_ends 2 value) as [H _]; [lia |].
        cbn [Nat.mul Nat.add] in H. rewrite H. lia.
      * apply Nat.ltb_lt in El. destruct (mask_ends 2 value) as [_ H]; [lia |].
        exact H.
      * rewrite str_length_stars. lia.
      * rewrite visible_stars. lia.
Qed.

(** X10: redaction never lengthens a value.  Of a value that is not
    email-shaped it leaves at most four characters that are no [*]; of an
    email-shaped one it leaves at most two of the local part, and the piece
    between the first [@] and the next one (or the end): what follows a
    second [@] is dropped. *)
Theorem redact_phi_reveals_little value :
  (String.length (_redact_phi value) <= String.length value)%nat
  /\ (~ email_shaped value -> (visible (_redact_phi value) <= 4)%nat)
  /\ (forall local domain rest,
        value = local ++ "@" ++ domain ++ rest ->
        Str.mem "@" local = false -> Str.mem "@" domain = false ->
        Str.mem "." domain = true ->
        rest = "" \/ (exists r, rest = String "@" r) ->
        exists masked,
          _redact_phi value = masked ++ "@" ++ domain
          /\ (visible masked <= 2)%nat).
Proof.
  destruct (redact_phi_shown value) as (Hlen & Hplain & Hemail).
  split; [exact Hlen |]. split; [exact Hplain |].
  intros local domain rest Hv Hl Hd Hdot Hrest.
  destruct Hemail as (masked & Hmasked & Hvis).
  { exists local, domain, rest. auto. }
  destruct (@split_email local domain rest Hl Hd Hrest) as (_ & _ & H1).
  rewrite <- Hv in H1. rewrite H1 in Hmasked. exists masked. auto.
Qed.

Lemma redact_phi_plain value :
  ~ email_shaped value -> ~ phone_shaped value ->
  _redact_phi value
  = if String.eqb value "" then value
    else if (6 <? String.length value)%nat
         then Str.take 2 value ++ Str.stars (String.length value - 4)
              ++ Str.take_last 2 value
         else Str.stars (String.length value).
Proof.
  intros He Hp. unfold _redact_phi.
  destruct (Str.mem "@" value && Str.mem "." (nth 1 (Str.split "@" value) "")) eqn:E.
  { exfalso. apply He. apply email_test_iff. exact E. }
  destruct (matches_phone value) eqn:Ep; [| reflexivity].
  exfalso. apply Hp. apply matches_phone_iff. exact Ep.
Qed.

(** X11: redaction does not tell values apart.  Two values that are neither
    email- nor phone-shaped and have the same length are redacted to the
    same text when the length is at most six, and also when they are longer
    and agree on their first two and their last two characters: two such
    identifiers cannot be told apart once redacted. *)
Theorem redaction_merges_values s t :
  ~ email_shaped s -> ~ phone_shaped s ->
  ~ email_shaped t -> ~ phone_shaped t ->
  String.length s = String.length t ->
  ((String.length s <= 6)%nat -> _redact_phi s = _redact_phi t)
  /\ (Str.take 2 s = Str.take 2 t -> Str.take_last 2 s = Str.take_last 2 t ->
      _redact_phi s = _redact_phi t).
Proof.
  intros Hes Hps Het Hpt Hlen.
  rewrite (redact_phi_plain s Hes Hps), (redact_phi_plain t Het Hpt), <- Hlen.
  assert (Hempty : String.eqb s "" = String.eqb t "").
  { destruct s, t; try discriminate; reflexivity. }
  rewrite <- Hempty.
  destruct (String.eqb_spec s "") as [-> | Hne].
  { destruct t; [| discriminate]. split; intros; reflexivity. }
  split.
  - intros Hshort. apply Nat.ltb_ge in Hshort. rewrite Hshort. reflexivity.
  - intros Hhead Htail. rewrite Hhead, Htail. reflexivity.
Qed.

End MaskFacts.

(** ** The PHI report *)

Section ReportFacts.
Context {AR : PyArith}.
Import Security PhiReport.

Lemma has_set_present {V} f g (v : V) counts :
  Py.has f counts = true -> Py.has g (Py.set f v counts) = Py.has g counts.
Proof.
  unfold Py.has. intros Hf. destruct (String.eqb_spec g f) as [-> | Hne].
  - rewrite get_set_same. exact (eq_sym Hf).
  - rewrite get_set_other by exact Hne. reflexivity.
Qed.

Lemma zero_counts_from fields : forall acc f,
  Py.get f (fold_left (fun counts field => Py.set field 0%nat counts) fields acc)
  = if Py.mem f fields then Some 0%nat else Py.get f acc.
Proof.
  induction fields as [| g fields IH]; intros acc f; cbn [fold_left]; [reflexivity |].
  rewrite IH. unfold Py.mem. cbn [existsb].
  destruct (existsb (String.eqb f) fields); [rewrite orb_true_r; reflexivity |].
  rewrite orb_false_r. destruct (String.eqb_spec f g) as [-> | Hne].
  - apply get_set_same.
  - apply get_set_other. exact Hne.
Qed.

Lemma zero_counts_get fields f :
  Py.get f (zero_counts fields) = if Py.mem f fields then Some 0%nat else None.
Proof. apply zero_counts_from. Qed.

Lemma has_bump record counts f g :
  Py.has f counts = true -> Py.has g (bump record counts f) = Py.has g counts.
Proof.
  intros Hf. unfold bump. destruct (holds f record); [| reflexivity].
  apply has_set_present. exact Hf.
Qed.

Lemma has_bumps record fields : forall counts g,
  (forall f, In f fields -> Py.has f counts = true) ->
  Py.has g (fold_left (bump record) fields counts) = Py.has g counts.
Proof.
  induction fields as [| f fields IH]; intros counts g Hcover; cbn [fold_left];
    [reflexivity |].
  rewrite IH.
  - apply has_bump. apply Hcover. left. reflexivity.
  - intros f' Hf'. rewrite has_bump by (apply Hcover; left; reflexivity).
    apply Hcover. right. exact Hf'.
Qed.

Lemma get_bumps record fields : forall counts g n,
  Py.get g counts = Some n ->
  Py.get g (fold_left (bump record) fields counts)
  = Some (n + (if holds g record then count_occ string_dec fields g else 0))%nat.
Proof.
  induction fields as [| f fields IH]; intros counts g n Hg; cbn [fold_left count_occ].
  - rewrite Hg. f_equal. destruct (holds g record); lia.
  - unfold bump at 2. destruct (holds f record) eqn:Hf.
    + destruct (string_dec f g) as [-> | Hne].
      * rewrite (IH _ g (S n)).
        -- rewrite Hf. f_equal. lia.
        -- unfold Py.get_default. rewrite Hg. apply get_set_same.
      * rewrite (IH _ g n); [reflexivity |].
        rewrite get_set_other by congruence. exact Hg.
    + destruct (string_dec f g) as [-> | Hne].
      * rewrite (IH _ g n Hg), Hf. reflexivity.
      * apply IH. exact Hg.
Qed.

Lemma count_fields_run record fields : forall counts has_phi,
  (forall f, In f fields -> Py.has f counts = true) ->
  for_each (count_field record) fields (counts, has_phi)
  = Ok (fold_left (bump record) fields counts, has_phi || holds_any fields record).
Proof.
  induction fields as [| f fields IH]; intros counts has_phi Hcover;
    cbn [for_each fold_left].
  - unfold holds_any. cbn [existsb]. rewrite orb_false_r. reflexivity.
  - assert (Hf : Py.has f counts = true) by (apply Hcover; left; reflexivity).
    unfold holds_any. cbn [existsb]. unfold count_field at 1, bump at 2.
    destruct (holds f record) eqn:Hholds.
    + unfold Py.index, Py.get_default. unfold Py.has in Hf.
      destruct (Py.get f counts) as [n |] eqn:En; [| discriminate].
      cbn [rbind]. rewrite IH.
      * rewrite orb_true_r. reflexivity.
      * intros f' Hf'. rewrite has_set_present by (unfold Py.has; rewrite En; reflexivity).
        apply Hcover. right. exact Hf'.
    + cbn [rbind]. rewrite IH; [reflexivity |].
      intros f' Hf'. apply Hcover. right. exact Hf'.
Qed.

Lemma count_records_run fields data : forall st,
  (forall f, In f fields -> Py.has f (fst st) = true) ->
  for_each (count_record fields) data st = Ok (fold_left (tally fields) data st).
Proof.
  induction data as [| record data IH]; intros [counts n] Hcover;
    cbn [for_each fold_left]; [reflexivity |].
  unfold count_record at 1. cbn [fst] in Hcover.
  rewrite count_fields_run by exact Hcover. cbn [rbind orb].
  apply IH. cbn [tally fst]. intros f Hf.
  rewrite has_bumps by exact Hcover. apply Hcover. exact Hf.
Qed.

Lemma tally_counts fields data : forall st g n,
  (forall f, In f fields -> Py.has f (fst st) = true) ->
  Py.get g (fst st) = Some n ->
  Py.get g (fst (fold_left (tally fields) data st))
  = Some (n + count_occ string_dec fields g
              * List.length (List.filter (holds g) data))%nat.
Proof.
  induction data as [| record data IH]; intros st g n Hcover Hg;
    cbn [fold_left List.filter].
  - rewrite Hg. f_equal. cbn [List.length]. lia.
  - rewrite (IH _ g (n + (if holds g record then count_occ string_dec fields g else 0))%nat).
    + f_equal. destruct (holds g record); cbn [List.length]; lia.
    + cbn [tally fst]. intros f Hf. rewrite has_bumps by exact Hcover.
      apply Hcover. exact Hf.
    + cbn [tally fst]. apply get_bumps. exact Hg.
Qed.

Lemma tally_keys fields data : forall st g,
  (forall f, In f fields -> Py.has f (fst st) = true) ->
  Py.has g (fst (fold_left (tally fields) data st)) = Py.has g (fst st).
Proof.
  induction data as [| record data IH]; intros st g Hcover; cbn [fold_left];
    [reflexivity |].
  rewrite IH.
  - cbn [tally fst]. apply has_bumps. exact Hcover.
  - cbn [tally fst]. intros f Hf. rewrite has_bumps by exact Hcover.
    apply Hcover. exact Hf.
Qed.

Lemma tally_records fields data : forall st,
  snd (fold_left (tally fields) data st)
  = (snd st + List.length (List.filter (holds_any fields) data))%nat.
Proof.
  induction data as [| record data IH]; intros st; cbn [fold_left List.filter].
  - cbn [List.length]. lia.
  - rewrite IH. cbn [tally snd].
    destruct (holds_any fields record); cbn [List.length]; lia.
Qed.

Lemma filter_length_le {A} (p : A -> bool) l :
  (List.length (List.filter p l) <= List.length l)%nat.
Proof.
  induction l as [| x l IH]; cbn [List.filter List.length]; [lia |].
  destruct (p x); cbn [List.length]; lia.
Qed.

Lemma filter_length_mono {A} (p q : A -> bool) l :
  (forall x, p x = true -> q x = true) ->
  (List.length (List.filter p l) <= List.length (List.filter q l))%nat.
Proof.
  intros H. induction l as [| x l IH]; cbn [List.filter List.length]; [lia |].
  destruct (p x) eqn:Ep.
  - rewrite (H x Ep). cbn [List.length]. lia.
  - destruct (q x); cbn [List.length]; lia.
Qed.

(** X12: the PHI report.  On no record it is the two-key dictionary with an
    empty field list, whatever the handler lists.  On records it returns
    without a [KeyError]: [total_records] is their number;
    [records_with_phi] is the number of records that hold a truthy value
    under a listed field, so it is at most [total_records]; [phi_counts] has
    the listed fields as its keys, and the count of a field is the number of
    records that hold a truthy value under it, times the number of times the
    field is listed; with no field listed twice, no count exceeds
    [records_with_phi]. *)
Theorem phi_report_counts self record data :
  generate_phi_report self [] = Ok (Brief [] [])
  /\ exists counts with_phi,
       generate_phi_report self (record :: data)
       = Ok (Counted (phi_fields self) counts with_phi (List.length (record :: data))
               (float_mul_int
                  (int_truediv (Z.of_nat with_phi)
                     (Z.of_nat (List.length (record :: data)))) 100))
       /\ with_phi = List.length (List.filter (holds_any (phi_fields self)) (record :: data))
       /\ (with_phi <= List.length (record :: data))%nat
       /\ (forall f, Py.has f counts = true <-> In f (phi_fields self))
       /\ (forall f, In f (phi_fields self) ->
                     Py.get f counts
                     = Some (count_occ string_dec (phi_fields self) f
                             * List.length (List.filter (holds f) (record :: data)))%nat)
       /\ (NoDup (phi_fields self) ->
           forall f, In f (phi_fields self) ->
                     exists n, Py.get f counts = Some n /\ (n <= with_phi)%nat).
Proof.
  split; [reflexivity |].
  set (all := record :: data). set (fields := phi_fields self).
  assert (Hcover : forall f, In f fields -> Py.has f (zero_counts fields) = true).
  { intros f Hf. unfold Py.has. rewrite zero_counts_get.
    apply mem_In in Hf. rewrite Hf. reflexivity. }
  set (final := fold_left (tally fields) all (zero_counts fields, 0%nat)).
  assert (Hcounts : forall f, In f fields ->
            Py.get f (fst final)
            = Some (count_occ string_dec fields f
                    * List.length (List.filter (holds f) all))%nat).
  { intros f Hf. unfold final.
    rewrite (tally_counts fields all (zero_counts fields, 0%nat) f 0%nat);
      [reflexivity | exact Hcover |].
    cbn [fst]. rewrite zero_counts_get. apply mem_In in Hf. rewrite Hf. reflexivity. }
  assert (Hwith : snd final = List.length (List.filter (holds_any fields) all)).
  { unfold final. rewrite tally_records. reflexivity. }
  exists (fst final), (snd final).
  split.
  { unfold generate_phi_report. fold fields all. unfold all at 1.
    rewrite (count_records_run fields all (zero_counts fields, 0%nat) Hcover).
    fold final. cbn [rbind]. destruct final as [counts n]. reflexivity. }
  split; [exact Hwith |].
  split; [rewrite Hwith; apply filter_length_le |].
  split.
  { intros f. unfold final. rewrite tally_keys by exact Hcover.
    cbn [fst]. unfold Py.has. rewrite zero_counts_get.
    rewrite <- mem_In. destruct (Py.mem f fields); split; auto; discriminate. }
  split; [exact Hcounts |].
  intros Hnodup f Hf. eexists. split; [apply Hcounts; exact Hf |].
  rewrite (proj1 (NoDup_count_occ' string_dec fields) Hnodup f Hf), Hwith, Nat.mul_1_l.
  apply filter_length_mono. intros r Hr.
  unfold holds_any. apply existsb_exists. exists f. auto.
Qed.

End ReportFacts.

(** ** Checkboxes *)

Section CheckboxFacts.
Context {RT : PyRuntime}.
Import Mapper.

Lemma checkbox_flags_from values options : forall acc,
  NoDup (Py.keys acc ++ map fst options)%list ->
  let flags := fold_left
                 (fun result '(code, label) =>
                    Py.set code
                      (if existsb (Py.same label) values
                          || existsb (Py.same (VStr code)) values
                       then "1" else "0") result)
                 options acc in
  Py.keys flags = (Py.keys acc ++ map fst options)%list
  /\ (forall code label, In (code, label) options ->
        Py.get code flags = Some (if ticked values (code, label) then "1" else "0"))
  /\ (forall k, In k (Py.keys acc) -> Py.get k flags = Py.get k acc).
Proof.
  induction options as [| [code label] options IH]; intros acc Hnodup; cbn [fold_left].
  - cbn [map]. rewrite app_nil_r. split; [reflexivity |]. split; [intros ? ? [] | auto].
  - cbn [map fst] in Hnodup.
    assert (Hfresh : Py.has code acc = false).
    { destruct (Py.has code acc) eqn:E; [| reflexivity].
      apply has_In_keys in E. apply NoDup_remove_2 in Hnodup.
      exfalso. apply Hnodup. apply in_or_app. left. exact E. }
    set (flag := if existsb (Py.same label) values || existsb (Py.same (VStr code)) values
                 then "1" else "0").
    specialize (IH (Py.set code flag acc)).
    rewrite keys_set, Hfresh in IH.
    rewrite <- app_assoc in IH. cbn [app] in IH.
    destruct (IH Hnodup) as (Hkeys & Hflags & Hacc). clear IH.
    split; [exact Hkeys |]. split.
    + intros c l [Heq | Hin].
      * injection Heq as <- <-. rewrite Hacc.
        -- apply get_set_same.
        -- apply in_or_app. right. left. reflexivity.
      * apply Hflags. exact Hin.
    + intros k Hk. rewrite Hacc by (apply in_or_app; left; exact Hk).
      apply get_set_other. intros ->. apply has_In_keys in Hk. congruence.
Qed.

Lemma isna_truth_scalar value :
  is_list value = false -> Py.isna_truth value = Ok (Py.isna value).
Proof. destruct value; try discriminate; reflexivity. Qed.

(** X13: the checkbox transform starts with the test [pd.isna(value)].  When
    the test holds the result is the empty dictionary; when it raises, which
    it does on a list of two items or more (the [ValueError] of numpy), the
    transform raises what it raised.  Otherwise the cell becomes one flag
    per option, under the option's code and in the order of the options,
    each flag ["1"] or ["0"]: ["1"] exactly when the option's label or its
    code is among the cell's values (for text, the pieces between commas,
    stripped; for a list, its items); a value that names no option gives all
    flags ["0"], with no warning.  On a cell that is no list the test is
    [pandas.isna] of the cell, and nothing is raised.  (The codes of an
    options mapping are distinct.) *)
Theorem format_checkbox_flags value options :
  NoDup (map fst options) ->
  (Py.isna_truth value = Ok true -> _format_checkbox value options = Ok (VDict []))
  /\ (Py.isna_truth value = Ok false ->
      exists flags,
        _format_checkbox value options = Ok (VDict flags)
        /\ Py.keys flags = map fst options
        /\ (forall code label,
              In (code, label) options ->
              Py.get code flags
              = Some (if ticked (checkbox_values value) (code, label)
                      then "1" else "0"))
        /\ (forall code piece pieces,
              value = VStr pieces ->
              In (code, VStr (Str.strip piece)) options ->
              In piece (Str.split "," pieces) ->
              Py.get code flags = Some "1")
        /\ (forall code label items,
              value = VList items ->
              In (code, label) options ->
              In (VStr code) items ->
              Py.get code flags = Some "1")
        /\ ((forall o, In o options -> ticked (checkbox_values value) o = false) ->
            forall code, In code (map fst options) -> Py.get code flags = Some "0"))
  /\ (forall e, Py.isna_truth value = Raise e -> _format_checkbox value options = Raise e)
  /\ (forall x y items,
        value = VList (x :: y :: items) ->
        existsb is_list (x :: y :: items) = false ->
        _format_checkbox value options
        = Raise (ValueErrorOf (array_truth_message (x :: y :: items))))
  /\ (is_list value = false ->
      Py.isna_truth value = Ok (Py.isna value)
      /\ exists flags, _format_checkbox value options = Ok (VDict flags)).
Proof.
  intros Hnodup. unfold _format_checkbox.
  split; [intros ->; reflexivity |]. split.
  { intros ->. cbn [rbind]. fold (checkbox_values value). unfold checkbox_flags.
    destruct (checkbox_flags_from (checkbox_values value) options [] Hnodup)
      as (Hkeys & Hflags & _).
    eexists. split; [reflexivity |]. split; [exact Hkeys |]. split; [exact Hflags |].
    split; [| split].
    - intros code piece pieces -> Hin Hpiece. rewrite (Hflags _ _ Hin).
      assert (Hticked : ticked (checkbox_values (VStr pieces))
                          (code, VStr (Str.strip piece)) = true).
      { unfold ticked. cbn [snd checkbox_values]. apply orb_true_iff. left.
        apply existsb_exists. exists (VStr (Str.strip piece)). split.
        - apply in_map_iff. exists piece. auto.
        - unfold Py.same. cbn [Py.same_nan Py.eq orb]. apply String.eqb_refl. }
      rewrite Hticked. reflexivity.
    - intros code label items -> Hin Hitem. rewrite (Hflags _ _ Hin).
      assert (Hticked : ticked (checkbox_values (VList items)) (code, label) = true).
      { unfold ticked. cbn [fst snd checkbox_values]. apply orb_true_iff. right.
        apply existsb_exists. exists (VStr code). split; [exact Hitem |].
        unfold Py.same. cbn [Py.same_nan Py.eq orb]. apply String.eqb_refl. }
      rewrite Hticked. reflexivity.
    - intros Hnone code Hcode. apply in_map_iff in Hcode.
      destruct Hcode as ([c label] & <- & Hin). cbn [fst].
      rewrite (Hflags _ _ Hin), (Hnone _ Hin). reflexivity. }
  split; [intros e ->; reflexivity |]. split.
  { intros x y items -> Hflat. cbn [Py.isna_truth].
    rewrite (array_truth_ambiguous _ _ _ Hflat). reflexivity. }
  intros Hscalar. rewrite (isna_truth_scalar value Hscalar).
  split; [reflexivity |]. cbn [rbind]. destruct (Py.isna value); eexists; reflexivity.
Qed.

End CheckboxFacts.

(** ** The records the mapper builds *)

Section MapDataFacts.
Context {RT : PyRuntime}.
Import Validator Mapper.

Lemma only_logs_ret {A} (a : A) : only_logs (ret a).
Proof. intros w. reflexivity. Qed.

Lemma only_logs_raise {A} e : only_logs (@raise A e).
Proof. intros w. reflexivity. Qed.

Lemma only_logs_lift {A} (r : result A) : only_logs (lift r).
Proof. intros w. reflexivity. Qed.

Lemma only_logs_warn {A} l message (a : A) :
  only_logs (bind (logger l message) (fun _ => ret a)).
Proof. intros w. reflexivity. Qed.

Lemma only_logs_guard {A B} (r : result A) (k : A -> M B) :
  (forall a, only_logs (k a)) -> only_logs (bind (lift r) k).
Proof.
  intros Hk w. unfold bind, lift. destruct r as [a | e]; [apply Hk | reflexivity].
Qed.

Lemma format_date_only_logs value date_format :
  only_logs (_format_date value date_format).
Proof.
  unfold _format_date. apply only_logs_guard. intros [|]; [apply only_logs_ret |].
  destruct date_format as [[| c fmt] |].
  - destruct (first_parse _ _); [apply only_logs_ret | apply only_logs_warn].
  - destruct (Py.strptime_str _ _); [apply only_logs_ret | apply only_logs_warn].
  - destruct (first_parse _ _); [apply only_logs_ret | apply only_logs_warn].
Qed.

Lemma format_radio_only_logs value options : only_logs (_format_radio value options).
Proof.
  unfold _format_radio. apply only_logs_guard. intros [|]; [apply only_logs_ret |].
  destruct (find_code value options); [apply only_logs_ret | apply only_logs_warn].
Qed.

Lemma apply_calculation_only_logs row formula :
  only_logs (_apply_calculation row formula).
Proof.
  unfold _apply_calculation. destruct formula as [[| c f] |]; try apply only_logs_ret.
  destruct (py_eval _);
    [apply only_logs_ret | apply only_logs_warn | apply only_logs_raise].
Qed.

(** One rule on one row: whether it returns or raises, the store is as it
    was but for the target field of the record under construction. *)
Lemma map_field_run field_map row a w :
  exists r w',
    _map_field field_map row a w = (r, w')
    /\ (heap w' = heap w
        \/ exists v, heap w' = update a (Py.set (target_field field_map) v) (heap w)).
Proof.
  unfold _map_field. destruct (Py.get (source_field field_map) row) as [value |].
  - cbv zeta.
    match goal with
    | |- context [bind ?m _] =>
        assert (Hm : only_logs m);
        [| specialize (Hm w); unfold bind; destruct (m w) as [[v | e] w1] eqn:E ]
    end.
    { repeat match goal with
             | |- only_logs (if ?b then _ else _) => destruct b
             end;
        auto using format_date_only_logs, format_radio_only_logs,
          apply_calculation_only_logs, only_logs_ret, only_logs_lift. }
    + cbn [snd] in Hm. do 2 eexists. split; [reflexivity |].
      right. exists v. cbn [heap]. rewrite Hm. reflexivity.
    + cbn [snd] in Hm. do 2 eexists. split; [reflexivity |]. left. exact Hm.
  - do 2 eexists. split; [reflexivity | left; reflexivity].
Qed.

Lemma map_fields_run (P : pydict -> Prop) row a field_maps :
  (forall field_map d v, In field_map field_maps -> P d ->
                         P (Py.set (target_field field_map) v d)) ->
  forall w,
    (a < List.length (heap w))%nat -> P (deref (heap w) a) ->
    exists r w',
      for_each_M (fun field_map => _map_field field_map row a) field_maps w = (r, w')
      /\ List.length (heap w') = List.length (heap w)
      /\ firstn a (heap w') = firstn a (heap w)
      /\ P (deref (heap w') a).
Proof.
  induction field_maps as [| fm fms IH]; intros Hset w Ha HP; cbn [for_each_M].
  - exists (Ok tt), w. auto.
  - destruct (map_field_run fm row a w) as (r1 & w1 & Hrun & Hheap).
    unfold bind. rewrite Hrun.
    assert (H1 : List.length (heap w1) = List.length (heap w)
                 /\ firstn a (heap w1) = firstn a (heap w)
                 /\ P (deref (heap w1) a)).
    { destruct Hheap as [-> | [v ->]]; [auto |].
      rewrite length_update, firstn_update by lia.
      split; [reflexivity |]. split; [reflexivity |].
      rewrite deref_update_same by exact Ha. apply Hset; [left; reflexivity | exact HP]. }
    destruct H1 as (Hlen & Hfirst & HP1).
    destruct r1 as [[] | e]; [| exists (Raise e), w1; auto].
    destruct (IH (fun f d v Hf => Hset f d v (or_intror Hf)) w1)
      as (r2 & w2 & Hrun2 & Hlen2 & Hfirst2 & HP2).
    { rewrite Hlen. exact Ha. }
    { exact HP1. }
    exists r2, w2. split; [exact Hrun2 |]. split; [congruence |].
    split; [congruence | exact HP2].
Qed.

Lemma has_set_cases {V} k t (v : V) d :
  Py.has k (Py.set t v d) = true -> k = t \/ Py.has k d = true.
Proof.
  unfold Py.has. destruct (String.eqb_spec k t) as [-> | Hne]; [auto |].
  rewrite get_set_other by exact Hne. auto.
Qed.

Lemma mapped_record_set mapping cell field_map d v :
  In field_map (fields mapping) ->
  mapped_record mapping cell d ->
  mapped_record mapping cell (Py.set (target_field field_map) v d).
Proof.
  intros Hin (Hid & Hkeys & Hvalue). split; [| split].
  - apply has_set_kept. exact Hid.
  - intros k Hk. apply has_set_cases in Hk. destruct Hk as [-> | Hk].
    + right. apply in_map. exact Hin.
    + apply Hkeys. exact Hk.
  - intros Hspares. rewrite get_set_other; [apply Hvalue; exact Hspares |].
    intros E. apply (Hspares field_map Hin). symmetry. exact E.
Qed.

Lemma firstn_prefix {A} (h extra : list A) : firstn (List.length h) (h ++ extra) = h.
Proof.
  rewrite firstn_app, Nat.sub_diag, firstn_all. cbn [firstn]. apply app_nil_r.
Qed.

(** One row: whether the rules return or one of them raises, one object is
    created, and it is the record of the row when the row has the
    identifier column. *)
Lemma map_row_run mapping row w :
  exists r w',
    map_row mapping row w = (r, w')
    /\ List.length (heap w') = S (List.length (heap w))
    /\ firstn (List.length (heap w)) (heap w') = heap w
    /\ match Py.get (record_id_field mapping) row with
       | Some cell =>
           mapped_record mapping cell (deref (heap w') (List.length (heap w)))
           /\ (forall out, r = Ok out -> out = [List.length (heap w)])
       | None => r = Ok []
       end.
Proof.
  unfold map_row. cbv zeta.
  destruct (Py.get (record_id_field mapping) row) as [cell |].
  - unfold bind, alloc, write. cbn [heap log entropy].
    match goal with
    | |- context [for_each_M ?f ?l ?w1] =>
        destruct (map_fields_run (mapped_record mapping cell) row
                    (List.length (heap w)) (fields mapping)
                    (fun fm d v Hin => mapped_record_set mapping cell fm d v Hin) w1)
          as (r2 & w2 & Hrun & Hlen & Hfirst & HP)
    end.
    { cbn [heap]. rewrite length_update, length_app. cbn [List.length]. lia. }
    { cbn [heap]. rewrite deref_update_same
        by (rewrite length_app; cbn [List.length]; lia).
      rewrite deref_last. split; [reflexivity |]. split.
      - intros k Hk. left. unfold Py.has in Hk. cbn [Py.set Py.get] in Hk.
        destruct (String.eqb_spec k "record_id"); [assumption | discriminate].
      - intros _. reflexivity. }
    rewrite Hrun. cbn [heap] in Hlen, Hfirst.
    rewrite length_update, length_app in Hlen. cbn [List.length] in Hlen.
    rewrite firstn_update, firstn_prefix in Hfirst by lia.
    destruct r2 as [[] | e]; do 2 eexists; (split; [reflexivity |]);
      (split; [lia |]); (split; [exact Hfirst |]); (split; [exact HP |]).
    + intros out H. injection H as <-. reflexivity.
    + intros out H. discriminate.
  - do 2 eexists. split; [reflexivity |]. cbn [heap]. split.
    + rewrite length_app. cbn [List.length]. lia.
    + split; [apply firstn_prefix | reflexivity].
Qed.

Lemma firstn_deref (h h' : list pydict) n a :
  firstn n h' = h -> (a < List.length h)%nat -> deref h' a = deref h a.
Proof.
  intros <- Ha. unfold deref. revert h' a Ha.
  induction n as [| n IH]; intros [| d h'] a Ha; cbn [firstn List.length] in *;
    try lia; try reflexivity.
  destruct a as [| a]; [reflexivity |]. cbn [nth]. apply IH. lia.
Qed.

(** The rows, one after the other: when the loop returns, what it returns
    is one record for each row that has the identifier column. *)
Lemma map_rows_run mapping rows : forall w,
  exists r w',
    collect_M (map_row mapping) rows w = (r, w')
    /\ (List.length (heap w) <= List.length (heap w'))%nat
    /\ firstn (List.length (heap w)) (heap w') = heap w
    /\ (forall out,
          r = Ok out ->
          Forall2 (fun cell a => mapped_record mapping cell (deref (heap w') a))
                  (id_cells mapping rows) out).
Proof.
  induction rows as [| row rows IH]; intros w; cbn [collect_M].
  - exists (Ok []), w. split; [reflexivity |]. split; [lia |].
    split; [apply firstn_all |]. intros out H. injection H as <-. constructor.
  - destruct (map_row_run mapping row w) as (r1 & w1 & Hrun & Hlen & Hfirst & Hrow).
    unfold bind. rewrite Hrun.
    destruct r1 as [ys | e].
    2:{ exists (Raise e), w1. split; [reflexivity |]. split; [lia |].
        split; [exact Hfirst |]. intros out H. discriminate. }
    destruct (IH w1) as (r2 & w2 & Hrest & Hle & Hfirst2 & Hall). rewrite Hrest.
    assert (Hfirst' : firstn (List.length (heap w)) (heap w2) = heap w).
    { rewrite <- Hfirst2 in Hfirst. rewrite firstn_firstn in Hfirst.
      rewrite Nat.min_l in Hfirst by lia. exact Hfirst. }
    destruct r2 as [zs | e].
    2:{ exists (Raise e), w2. split; [reflexivity |]. split; [lia |].
        split; [exact Hfirst' |]. intros out H. discriminate. }
    exists (Ok (ys ++ zs)%list), w2. cbn [ret].
    split; [reflexivity |]. split; [lia |]. split; [exact Hfirst' |].
    intros out H. injection H as <-.
    unfold id_cells. cbn [flat_map]. fold (id_cells mapping rows).
    destruct (Py.get (record_id_field mapping) row) as [cell |].
    + destruct Hrow as [HP Hout]. rewrite (Hout ys eq_refl). cbn [app].
      constructor; [| apply Hall; reflexivity].
      rewrite (firstn_deref (heap w1) (heap w2) (List.length (heap w1))
                 (List.length (heap w)) Hfirst2) by lia.
      exact HP.
    + injection Hrow as ->. cbn [app]. apply Hall. reflexivity.
Qed.

Lemma mapped_records_hashable mapping cells h : forall out,
  spares_record_id mapping ->
  Forall2 (fun cell a => mapped_record mapping cell (deref h a)) cells out ->
  hashable_ids (map (deref h) out).
Proof.
  intros out Hspares Hall i record Hi.
  apply nth_error_In in Hi. apply in_map_iff in Hi. destruct Hi as (a & <- & Ha).
  assert (Hid : exists cell, mapped_record mapping cell (deref h a)).
  { clear - Hall Ha. induction Hall as [| cell b cells out Hb _ IH]; [destruct Ha |].
    destruct Ha as [-> | Ha]; eauto. }
  destruct Hid as (cell & _ & _ & Hvalue).
  unfold record_id_of, Py.get_default. rewrite (Hvalue Hspares). reflexivity.
Qed.

(** What [map_data] returns, when it returns. *)
Lemma map_data_csv mapping source_data w redcap_data w' :
  map_data mapping source_data w = (Ok redcap_data, w') ->
  source_type mapping = "csv"
  /\ Forall2 (fun cell a => mapped_record mapping cell (deref (heap w') a))
       (id_cells mapping (frame_rows (map (deref (heap w)) source_data)))
       redcap_data.
Proof.
  unfold map_data, bind, logger, try_except.
  destruct (String.eqb_spec (source_type mapping) "csv") as [Hcsv | Hne].
  - unfold read_all. cbn [heap log entropy].
    match goal with
    | |- context [collect_M (map_row mapping) ?rows ?w1] =>
        destruct (map_rows_run mapping rows w1) as (r & w2 & Hrun & _ & _ & Hall)
    end.
    rewrite Hrun. destruct r as [out | e].
    + cbn [ret]. intros H. injection H as <- <-. split; [exact Hcsv |].
      cbn [heap]. apply Hall. reflexivity.
    + destruct (is_exception e); discriminate.
  - cbn. discriminate.
Qed.

(** *** When the mapper returns *)

Lemma plain_cell rows row k v :
  plain_rows rows = true -> In row rows -> Py.get k row = Some v ->
  is_list v = false.
Proof.
  unfold plain_rows. rewrite forallb_forall. intros Hrows Hrow Hget.
  specialize (Hrows row Hrow). rewrite forallb_forall in Hrows.
  assert (Hin : exists k', In (k', v) row).
  { clear - Hget. induction row as [| [k' v'] row IH]; [discriminate |].
    cbn [Py.get] in Hget. destruct (String.eqb k k').
    - injection Hget as ->. exists k'. left. reflexivity.
    - destruct (IH Hget) as [k'' H]. exists k''. right. exact H. }
  destruct Hin as [k' Hin]. specialize (Hrows _ Hin). unfold plain in Hrows.
  cbn [snd] in Hrows. apply andb_true_iff in Hrows. destruct Hrows as [H _].
  apply negb_true_iff in H. exact H.
Qed.

Lemma map_field_returns field_map row a w :
  String.eqb (field_type field_map) "calculated" = false ->
  (forall value, Py.get (source_field field_map) row = Some value ->
                 is_list value = false) ->
  exists w', _map_field field_map row a w = (Ok tt, w').
Proof.
  intros Hcalc Hflat. unfold _map_field.
  destruct (Py.get (source_field field_map) row) as [value |];
    [| eexists; reflexivity].
  specialize (Hflat value eq_refl). cbv zeta. rewrite Hcalc. unfold bind.
  destruct (String.eqb (field_type field_map) "date").
  { destruct (format_date_returns value (date_format field_map) w Hflat)
      as (r & w1 & ->). eexists. reflexivity. }
  destruct (String.eqb (field_type field_map) "checkbox").
  { unfold lift, _format_checkbox. rewrite (isna_truth_scalar value Hflat).
    cbn [rbind]. destruct (Py.isna value); eexists; reflexivity. }
  destruct (String.eqb (field_type field_map) "radio").
  { destruct (format_radio_returns value (options field_map) w Hflat)
      as (r & w1 & ->). eexists. reflexivity. }
  destruct (String.eqb (field_type field_map) "dropdown").
  { unfold _format_dropdown.
    destruct (format_radio_returns value (options field_map) w Hflat)
      as (r & w1 & ->). eexists. reflexivity. }
  eexists. reflexivity.
Qed.

Lemma map_fields_returns row a field_maps :
  forallb (fun fm => negb (String.eqb (field_type fm) "calculated")) field_maps = true ->
  (forall k value, Py.get k row = Some value -> is_list value = false) ->
  forall w,
    exists w',
      for_each_M (fun field_map => _map_field field_map row a) field_maps w = (Ok tt, w').
Proof.
  intros Hcalc Hflat.
  induction field_maps as [| fm fms IH]; intros w; cbn [for_each_M].
  - exists w. reflexivity.
  - cbn [forallb] in Hcalc. apply andb_true_iff in Hcalc. destruct Hcalc as [Hfm Hfms].
    apply negb_true_iff in Hfm.
    destruct (map_field_returns fm row a w Hfm) as (w1 & Hrun).
    { intros value. apply Hflat. }
    unfold bind. rewrite Hrun. apply IH. exact Hfms.
Qed.

Lemma map_rows_returns mapping rows :
  no_calculation mapping = true -> plain_rows rows = true ->
  forall w, exists out w', collect_M (map_row mapping) rows w = (Ok out, w').
Proof.
  intros Hcalc Hplain.
  assert (Hrows : forall row, In row rows ->
            forall k value, Py.get k row = Some value -> is_list value = false).
  { intros row Hrow k value. apply (plain_cell rows row k value Hplain Hrow). }
  clear Hplain. induction rows as [| row rows IH]; intros w; cbn [collect_M].
  - do 2 eexists. reflexivity.
  - assert (Hrow : exists out w1, map_row mapping row w = (Ok out, w1)).
    { unfold map_row. cbv zeta. unfold bind, alloc. cbn [heap log entropy].
      destruct (Py.get (record_id_field mapping) row) as [cell |];
        [| do 2 eexists; reflexivity].
      unfold write at 1. cbn [heap log entropy].
      match goal with
      | |- context [for_each_M ?f ?l ?w1] =>
          destruct (map_fields_returns row (List.length (heap w)) (fields mapping)
                      Hcalc (Hrows row (or_introl eq_refl)) w1) as (w2 & ->)
      end.
      do 2 eexists. reflexivity. }
    destruct Hrow as (ys & w1 & Hrun). unfold bind. rewrite Hrun.
    destruct (IH (fun r Hr => Hrows r (or_intror Hr)) w1) as (zs & w2 & ->).
    do 2 eexists. reflexivity.
Qed.

Lemma map_data_returns mapping source_data w :
  source_type mapping = "csv" ->
  no_calculation mapping = true ->
  plain_rows (frame_rows (map (deref (heap w)) source_data)) = true ->
  exists redcap_data w', map_data mapping source_data w = (Ok redcap_data, w').
Proof.
  intros Hcsv Hcalc Hplain. unfold map_data, bind, logger, try_except, read_all.
  rewrite Hcsv. change (String.eqb "csv" "csv") with true. cbv iota.
  cbn [heap log entropy].
  match goal with
  | |- context [collect_M (map_row mapping) ?rows ?w1] =>
      destruct (map_rows_returns mapping rows Hcalc Hplain w1) as (out & w2 & ->)
  end.
  do 2 eexists. reflexivity.
Qed.

(** *** When the mapper raises *)




Lemma validate_returns_hashable rules data :
  hashable_ids data ->
  field_formats rules = [] -> date_range rules = [] -> numeric_range rules = [] ->
  exists v, validate rules data = Ok v.
Proof.
  intros Hids Hfmt Hdate Hnum.
  destruct data as [| record0 data0]; [eexists; reflexivity |].
  set (data := record0 :: data0) in *.
  unfold validate. cbv iota. fold data.
  set (res0 := mkresults true [] [] [] (mkstats (List.length data) 0 0 0)).
  clearbody res0.
  unfold _check_field_formats, _check_date_ranges, _check_numeric_ranges.
  rewrite Hfmt, Hdate, Hnum.
  assert (H1 : exists res1, _check_required_fields rules data res0 = Ok res1).
  { unfold _check_required_fields. destruct (required_fields rules) as [| f l]; [eauto |].
    destruct (for_enumerate_returns (check_required (f :: l)) (fun _ => True) data)
      with (s := res0) as (res1 & H & _); [| exact I | eauto].
    intros i x st Hi _. unfold check_required.
    destruct (List.filter _ (f :: l)); [eauto |].
    unfold _add_record_issue. rewrite (Hids i x Hi). eauto. }
  destruct H1 as [res1 ->]. cbn [rbind].
  unfold _check_data_consistency.
  destruct (@duplicate_ids_spec data Hids) as (dups & -> & _). cbn [rbind].
  destruct (@presence_loop (all_fields data) data 0%nat
              (fold_left (fun res dup_id =>
                            with_errors res (errors res ++ [duplicate_message dup_id]))
                         dups res1)) as (res5 & -> & _).
  { intros j record Hj. apply Hids. exact Hj. }
  cbn [rbind]. eexists. reflexivity.
Qed.

(** X15: mapping, then validating.  Under a mapping none of whose rules
    writes to [record_id], whatever [map_data] returns can be handed to
    [validate] with required-field rules and the cross-record check only (no
    format, date or number rule), and [validate] returns.  So the two calls
    return, one after the other, with no exception, when the mapping is of
    source type [csv] with no formula to evaluate and every cell of the
    frame is no list and a value [str] prints. *)
Theorem mapped_records_validate mapping source_data w rules :
  spares_record_id mapping ->
  field_formats rules = [] -> date_range rules = [] -> numeric_range rules = [] ->
  (forall redcap_data w',
     map_data mapping source_data w = (Ok redcap_data, w') ->
     exists v, validate rules (map (deref (heap w')) redcap_data) = Ok v)
  /\ (source_type mapping = "csv" ->
      no_calculation mapping = true ->
      plain_rows (frame_rows (map (deref (heap w)) source_data)) = true ->
      exists redcap_data w' v,
        map_data mapping source_data w = (Ok redcap_data, w')
        /\ validate rules (map (deref (heap w')) redcap_data) = Ok v).
Proof.
  intros Hspares Hfmt Hdate Hnum.
  assert (Hvalid : forall redcap_data w',
            map_data mapping source_data w = (Ok redcap_data, w') ->
            exists v, validate rules (map (deref (heap w')) redcap_data) = Ok v).
  { intros out w' Hrun.
    destruct (map_data_csv mapping source_data w out w' Hrun) as [_ Hall].
    apply validate_returns_hashable; auto.
    eapply mapped_records_hashable; eauto. }
  split; [exact Hvalid |].
  intros Hcsv Hcalc Hplain.
  destruct (map_data_returns mapping source_data w Hcsv Hcalc Hplain)
    as (out & w' & Hrun).
  destruct (Hvalid out w' Hrun) as [v Hv]. exists out, w', v. auto.
Qed.

(** X17: a missing cell.  The cell pandas gives a record that lacks a column
    is NaN, and a text rule of the mapper writes it through as it is.  The
    validator takes such a value for present (NaN is truthy): the
    required-fields check does not report it; a numeric range passes it when
    both bounds convert, and reports that the value could not be parsed when
    a bound is text that [float] refuses; a date, email or phone format rule
    and a date range on the field raise [TypeError], which [validate] does
    not catch. *)
Theorem missing_cell_checks record rid field res obj :
  Py.get field record = Some (VFloat (FNaN obj)) ->
  present field record = true
  /\ (forall required,
        ~ In field (List.filter (fun f => negb (present f record)) required))
  /\ (forall rule lo hi,
        Py.float (Py.get_default "min" (VFloat (FInf true)) rule) = Ok lo ->
        Py.float (Py.get_default "max" (VFloat (FInf false)) rule) = Ok hi ->
        check_numeric_range record rid (field, rule) res = Ok res)
  /\ (forall rule,
        Py.float (Py.get_default "min" (VFloat (FInf true)) rule) = Raise ValueError
        \/ (exists lo,
              Py.float (Py.get_default "min" (VFloat (FInf true)) rule) = Ok lo
              /\ Py.float (Py.get_default "max" (VFloat (FInf false)) rule)
                 = Raise ValueError) ->
        check_numeric_range record rid (field, rule) res
        = _add_record_issue res rid Errors
            ("Could not parse numeric value in field '" ++ field ++ "': "
             ++ Py.str (VFloat (FNaN obj))))
  /\ (forall rule, check_date_range record rid (field, rule) res = Raise TypeError)
  /\ (forall format_rule,
        Py.eq format_rule (VStr "date") = true
        \/ Py.eq format_rule (VStr "email") = true
        \/ Py.eq format_rule (VStr "phone") = true ->
        check_format record rid (field, format_rule) res = Raise TypeError)
  /\ (forall field_map row a w,
        Py.get (source_field field_map) row = Some (VFloat (FNaN obj)) ->
        field_type field_map = "text" ->
        _map_field field_map row a w
        = write a (target_field field_map) (VFloat (FNaN obj)) w).
Proof.
  intros Hget.
  assert (Hpresent : present field record = true)
    by (unfold present; rewrite Hget; reflexivity).
  split; [exact Hpresent |]. split.
  { intros required Hin. apply filter_In in Hin. destruct Hin as [_ Hin].
    rewrite Hpresent in Hin. discriminate. }
  split.
  { intros rule lo hi Hlo Hhi. unfold check_numeric_range.
    rewrite Hget. cbn [Py.truthy Py.float rbind]. rewrite Hlo, Hhi. cbn [rbind].
    destruct hi as [i | [|] | q]; reflexivity. }
  split.
  { intros rule Hbound. unfold check_numeric_range.
    rewrite Hget. cbn [Py.truthy Py.float rbind].
    destruct Hbound as [Hlo | (lo & Hlo & Hhi)].
    - rewrite Hlo. reflexivity.
    - rewrite Hlo. cbn [rbind]. rewrite Hhi. reflexivity. }
  split.
  { intros rule. unfold check_date_range. rewrite Hget. reflexivity. }
  split.
  { intros format_rule Hrule. unfold check_format. rewrite Hget.
    cbn [Py.truthy]. unfold fails.
    destruct (Py.eq format_rule (VStr "date")); [reflexivity |].
    cbn [rbind]. destruct (Py.eq format_rule (VStr "email")); [reflexivity |].
    cbn [rbind]. destruct (Py.eq format_rule (VStr "phone")); [reflexivity |].
    destruct Hrule as [H | [H | H]]; discriminate. }
  intros field_map row a w Hcell Htext. unfold _map_field.
  rewrite Hcell, Htext. reflexivity.
Qed.

End MapDataFacts.

(** ** Dates: from the mapper to the validator *)

Section DateRoundTrip.
Context {RT : PyRuntime}.
Import Validator Mapper.

Lemma years_print : forallb year_prints (seq 0 (90 * 100)) = true.
Proof. vm_compute. reflexivity. Qed.

Lemma year_digits y :
  (1000 <= y <= 9999)%Z ->
  exists a b c e,
    Str.of_Z y = String a (String b (String c (String e "")))
    /\ Str.is_digit a && Str.is_digit b && Str.is_digit c && Str.is_digit e = true
    /\ (1000 * Py.digit_val a + 100 * Py.digit_val b
        + 10 * Py.digit_val c + Py.digit_val e)%Z = y.
Proof.
  intros Hy. pose proof years_print as H. rewrite forallb_forall in H.
  specialize (H (Z.to_nat (y - 1000))).
  assert (Hin : In (Z.to_nat (y - 1000)) (seq 0 (90 * 100))) by (apply in_seq; lia).
  specialize (H Hin). unfold year_prints in H.
  replace (1000 + Z.of_nat (Z.to_nat (y - 1000)))%Z with y in H by lia.
  destruct (Str.of_Z y) as [| a [| b [| c [| e [| ? ?]]]]]; try discriminate.
  apply andb_true_iff in H. destruct H as [Hd Hv]. apply Z.eqb_eq in Hv.
  exists a, b, c, e. auto.
Qed.

Lemma month_day_parse y m d :
  (1 <= m <= 12)%Z -> (1 <= d <= 31)%Z ->
  exists rest,
    Py.match_directives [Py.DLit "-"; Py.Dm; Py.DLit "-"; Py.Dd]
      (Py.mkfields (Some y) None None)
      ("-" ++ Py.pad2 m ++ "-" ++ Py.pad2 d)
    = (Py.mkfields (Some y) (Some m) (Some d), "") :: rest.
Proof.
  intros Hm Hd.
  assert (Em : In m [1; 2; 3; 4; 5; 6; 7; 8; 9; 10; 11; 12]%Z) by (simpl; lia).
  assert (Ed : In d [1; 2; 3; 4; 5; 6; 7; 8; 9; 10; 11; 12; 13; 14; 15; 16; 17; 18;
                     19; 20; 21; 22; 23; 24; 25; 26; 27; 28; 29; 30; 31]%Z)
    by (simpl; lia).
  clear Hm Hd. cbn [In] in Em, Ed.
  repeat (destruct Em as [<- | Em]); try (exfalso; exact Em);
    repeat (destruct Ed as [<- | Ed]); try (exfalso; exact Ed);
    eexists; reflexivity.
Qed.

Lemma days_in_month_le y m : (Py.days_in_month y m <= 31)%Z.
Proof.
  unfold Py.days_in_month.
  destruct (m =? 2)%Z; [destruct (Py.is_leap y); lia |].
  destruct ((m =? 4) || (m =? 6) || (m =? 9) || (m =? 11))%Z; lia.
Qed.

Lemma strftime_strptime d :
  four_digit_date d ->
  Py.strptime_str (Py.strftime_ymd d) "%Y-%m-%d" = Some d.
Proof.
  intros (Hy & Hm & Hd). destruct d as [y m dd]. cbn [year month day] in *.
  unfold Py.strftime_ymd. cbn [year month day].
  rewrite (@strftime_year_digits RT y Hy).
  destruct (year_digits y Hy) as (a & b & c & e & -> & Hdigits & Hvalue).
  unfold Py.strptime_str.
  change (Py.compile [] "%Y-%m-%d")
    with (Some [Py.DY; Py.DLit "-"; Py.Dm; Py.DLit "-"; Py.Dd]).
  unfold Py.strptime_directives.
  change (Py.match_directives [Py.DY; Py.DLit "-"; Py.Dm; Py.DLit "-"; Py.Dd]
            (Py.mkfields None None None)
            (String a (String b (String c (String e ""))) ++ "-" ++ Py.pad2 m
             ++ "-" ++ Py.pad2 dd))
    with (flat_map (fun '(f', s') =>
                      Py.match_directives [Py.DLit "-"; Py.Dm; Py.DLit "-"; Py.Dd] f' s')
            (if Str.is_digit a && Str.is_digit b && Str.is_digit c && Str.is_digit e
             then [(Py.mkfields
                      (Some (1000 * Py.digit_val a + 100 * Py.digit_val b
                             + 10 * Py.digit_val c + Py.digit_val e)%Z) None None,
                    "-" ++ Py.pad2 m ++ "-" ++ Py.pad2 dd)]
             else [])).
  rewrite Hdigits, Hvalue. cbn [flat_map]. rewrite app_nil_r.
  pose proof (days_in_month_le y m) as Hle.
  destruct (month_day_parse y m dd Hm) as [rest ->]; [lia |].
  unfold Py.make_date. cbn [Py.fY Py.fm Py.fd].
  replace ((1 <=? y) && (y <=? 9999) && (1 <=? m) && (m <=? 12) && (1 <=? dd)
           && (dd <=? Py.days_in_month y m))%Z with true; [reflexivity |].
  symmetry. repeat (apply andb_true_iff; split); apply Z.leb_le; lia.
Qed.







(** X16: the dates the mapper writes pass the validator.  A date of the
    calendar with a year of four digits, printed as the mapper prints it
    ([%Y-%m-%d]), parses back to the same date; so the validator's date
    format check accepts it, and mapping it a second time leaves it as it
    is, with no warning. *)
Theorem formatted_date_round_trip d w :
  four_digit_date d ->
  Py.strptime_str (Py.strftime_ymd d) "%Y-%m-%d" = Some d
  /\ _is_valid_date (VStr (Py.strftime_ymd d)) = Ok true
  /\ _format_date (VStr (Py.strftime_ymd d)) None w
     = (Ok (VStr (Py.strftime_ymd d)), w).
Proof.
  intros Hd. pose proof (strftime_strptime d Hd) as Hparse.
  split; [exact Hparse |]. split.
  - unfold _is_valid_date. cbn [Py.strptime]. rewrite Hparse. reflexivity.
  - unfold _format_date.
    assert (Hne : Py.strftime_ymd d <> "").
    { intros E. rewrite E in Hparse. discriminate. }
    unfold bind, lift, missing_or_empty. cbn [Py.isna_truth Py.isna rbind orb Py.eq].
    destruct (String.eqb_spec (Py.strftime_ymd d) ""); [contradiction |].
    cbn [Py.str date_formats first_parse]. rewrite Hparse. reflexivity.
Qed.

End DateRoundTrip.

(** * The statements at concrete inputs *)

Section Witnesses.
Import Validator Security Mapper Sample.

Lemma validate_valid_iff_no_errors_witness :
  verdict_is_valid two_records_verdict = true
  <-> (List.length (verdict_errors two_records_verdict)
       + record_error_count two_records_verdict = 0)%nat.
Proof.
  apply (proj1 (@validate_valid_iff_no_errors Demo.runtime no_rules two_records
                  two_records_verdict eq_refl)).
Defined.

Lemma validate_empty_verdict_shape_witness :
  verdict_keys two_records_verdict
  = ["is_valid"; "errors"; "warnings"; "record_issues"; "stats"].
Proof.
  apply (proj2 (proj2 (@validate_empty_verdict_shape Demo.runtime no_rules))
           two_records two_records_verdict).
  - discriminate.
  - reflexivity.
Defined.



(** C6 as the spec has it fails twice: a text of digits and hyphens longer
    than four characters with at most four digits shows no digit, and an
    email-shaped text with a local part of two characters shows none of
    them. *)
Lemma redact_phi_counterexample :
  phone_shaped "1-2-3" /\ (4 < String.length "1-2-3")%nat
  /\ _redact_phi "1-2-3" = "***"
  /\ email_shaped "ab@x.com"
  /\ _redact_phi "ab@x.com" = "**@x.com".
Proof.
  split; [| split; [| split; [| split]]].
  - apply matches_phone_iff. reflexivity.
  - simpl. lia.
  - reflexivity.
  - apply email_test_iff. reflexivity.
  - reflexivity.
Qed.

Lemma redact_phi_cases_witness : _redact_phi "123-45-6789" = "12*****89".
Proof.
  destruct (redact_phi_cases "123-45-6789") as (_ & _ & Hphone & _).
  destruct Hphone as [Hlong _].
  - intros H. apply email_test_iff in H. discriminate.
  - apply matches_phone_iff. reflexivity.
  - apply (Hlong "1"%char "2"%char "34567" "8"%char "9"%char);
      [reflexivity | discriminate].
Defined.

Lemma stages_leave_inputs_unchanged_witness :
  nth_error (heap (snd (@_secure_phi_data Demo.runtime protected_handler [0] one_patient))) 0
  = Some patient
  /\ nth_error (heap (snd (@map_data Demo.runtime visit_mapping [0] one_patient))) 0
     = Some patient.
Proof.
  destruct (@stages_leave_inputs_unchanged Demo.runtime) as [Hsecure Hmap]. split.
  - apply (proj1 (Hsecure protected_handler [0] one_patient) 0). simpl. lia.
  - apply (proj1 (Hmap visit_mapping [0] one_patient) 0). simpl. lia.
Defined.

(** C7 as the spec has it fails: a handler made without a field list, called
    on a record with no name a pattern knows, infers the empty list; called
    again, on another record, it infers again and its list changes. *)
Lemma phi_fields_reinferred_counterexample :
  fst (@secure_calls Demo.runtime protected_handler [[0]] visit_then_name)
  = Ok (mkhandler true [] (Some "k"))
  /\ fst (@secure_calls Demo.runtime protected_handler [[0]; [1]] visit_then_name)
     = Ok (mkhandler true ["name"] (Some "k"))
  /\ log (snd (@secure_calls Demo.runtime protected_handler [[0]; [1]] visit_then_name))
     = [ (Info, "Automatically detected potential PHI fields: ");
         (Info, "Applied security measures to 0 PHI fields");
         (Info, "Automatically detected potential PHI fields: name");
         (Info, "Applied security measures to 1 PHI fields") ].
Proof. repeat split. Qed.

Lemma phi_fields_fixed_once_nonempty_witness :
  exists secured w',
    @_secure_phi_data Demo.runtime ssn_handler [0] one_patient
    = (Ok (ssn_handler, secured), w')
    /\ log w' = [@applied_message ["ssn"]].
Proof.
  destruct (@phi_fields_fixed_once_nonempty Demo.runtime) as (_ & Hfixed & _).
  apply (Hfixed ssn_handler [0] one_patient). discriminate.
Defined.

(** C2 as the spec has it fails: on a record that already carries
    [ssn_encrypted], the inferred field list holds both [ssn] and
    [ssn_encrypted]; the sibling written for [ssn] is then itself redacted,
    so what it holds is the mask of a token, and decrypting it does not give
    the original value. *)
Lemma encrypted_sibling_counterexample :
  exists self' out w',
    @_secure_phi_data Demo.runtime protected_handler [0] secured_before
    = (Ok (self', [out]), w')
    /\ In "ssn" (phi_fields self')
    /\ Py.get "ssn" (deref (heap secured_before) 0) = Some (VStr "123-45-6789")
    /\ Py.get "ssn_encrypted" (deref (heap w') out)
       = Some (VStr (_redact_phi (Demo.fernet_encrypt "k" 0 "123-45-6789")))
    /\ fst (@decrypt_field Demo.runtime self'
              (_redact_phi (Demo.fernet_encrypt "k" 0 "123-45-6789")) w')
       <> Ok "123-45-6789".
Proof.
  eexists. eexists. eexists.
  split; [vm_compute; reflexivity |].
  split; [left; reflexivity |].
  split; [reflexivity |].
  split; [vm_compute; reflexivity |].
  vm_compute. discriminate.
Qed.

Lemma secured_field_round_trip_witness :
  exists token w',
    Py.get "ssn_encrypted" (deref (heap w') 1) = Some (VStr token)
    /\ @decrypt_field Demo.runtime ssn_handler token w' = (Ok "123-45-6789", w').
Proof.
  pose proof (@secured_field_round_trip Demo.runtime ssn_handler "k" [0] one_patient
                ssn_handler [1]
                (snd (@_secure_phi_data Demo.runtime ssn_handler [0] one_patient)))
    as H.
  assert (Hall : Forall2
            (fun record out =>
               forall field v,
                 In field (phi_fields ssn_handler) ->
                 Py.get field (deref (heap one_patient) record) = Some v ->
                 Py.truthy v = true ->
                 exists token,
                   Py.get (field ++ "_encrypted")
                     (deref (heap (snd (@_secure_phi_data Demo.runtime ssn_handler [0]
                                          one_patient))) out)
                   = Some (VStr token)
                   /\ (forall w'', @decrypt_field Demo.runtime ssn_handler token w''
                                   = (Ok (@Py.str Demo.runtime v), w''))
                   /\ Py.get field
                        (deref (heap (snd (@_secure_phi_data Demo.runtime ssn_handler [0]
                                             one_patient))) out)
                      = Some (VStr (_redact_phi (@Py.str Demo.runtime v))))
            [0] [1]).
  { apply H.
    - reflexivity.
    - constructor; [simpl; lia | constructor].
    - reflexivity.
    - split.
      + constructor; [intros [] | constructor].
      + intros f g [<- | []] [<- | []]. discriminate. }
  inversion Hall as [| ? ? ? ? Hhead _]; subst.
  destruct (Hhead "ssn" (VStr "123-45-6789")) as (token & Hget & Hdecrypt & _).
  - left. reflexivity.
  - reflexivity.
  - reflexivity.
  - exists token. eexists. split; [exact Hget | apply Hdecrypt].
Defined.

(** C3 as the spec has it fails twice: with the value ["2"], the code of
    the first option and the label of the second, the label match would give
    ["1"], and the mapper gives ["2"]; and on a cell that is a list of two
    values the mapper raises [ValueError]. *)
Lemma format_radio_counterexample :
  label_first_code (VStr "2") [("2", VStr "No"); ("1", VStr "2")] = Some "1"
  /\ @_format_radio Demo.runtime (VStr "2") [("2", VStr "No"); ("1", VStr "2")] one_patient
     = (Ok (VStr "2"), one_patient)
  /\ @_format_radio Demo.runtime (VList [VStr "Yes"; VStr "No"])
       [("1", VStr "Yes"); ("2", VStr "No")] one_patient
     = (Raise (ValueErrorOf MoreSample.ambiguous), one_patient).
Proof. repeat split. Qed.

Lemma format_radio_first_match_witness :
  @_format_radio Demo.runtime (VStr "Female")
    [("1", VStr "Male"); ("2", VStr "Female")] one_patient
  = (Ok (VStr "2"), one_patient).
Proof.
  destruct (@format_radio_first_match Demo.runtime (VStr "Female")
              [("1", VStr "Male"); ("2", VStr "Female")] one_patient)
    as (_ & Hvalue & _).
  apply (proj1 (Hvalue eq_refl) [("1", VStr "Male")] "2" (VStr "Female") []).
  - reflexivity.
  - reflexivity.
  - intros o [<- | []]. reflexivity.
Defined.



(** A checkbox value that is one option's label sets that option's flag. *)
Example format_checkbox_label :
  @_format_checkbox Demo.runtime (VStr "Yes") [("1", VStr "Yes"); ("2", VStr "No")]
  = Ok (VDict [("1", "1"); ("2", "0")]).
Proof. reflexivity. Qed.

(** One NaN object on two records is a shared identifier: the set of the
    repeated identifiers finds it twice by [is].  Two NaN objects are two
    identifiers. *)
Example validate_shared_nan :
  @validate Demo.runtime no_rules MoreSample.nan_ids
  = Ok (Full (mkresults false ["Duplicate record ID found: nan"] [] []
                (mkstats 2 0 1 0)))
  /\ @validate Demo.runtime no_rules
       [ [("record_id", VFloat (FNaN 0))]; [("record_id", VFloat (FNaN 1))] ]
     = Ok (Full (mkresults true [] [] [] (mkstats 2 0 0 0))).
Proof. split; reflexivity. Qed.

(** A weight below the range is an error on its record, one inside is
    none. *)
Example validate_weight_range :
  @validate Demo.runtime
    (mkrules [] [] [] [("weight", [("min", VInt 30); ("max", VInt 300)])])
    [ [("record_id", VStr "A"); ("weight", VStr "25")];
      [("record_id", VStr "B"); ("weight", VStr "150")] ]
  = Ok (Full (mkresults false [] []
                [(VStr "A",
                  mkissues ["Value in field 'weight' is below minimum: 25.0 < 30.0"] [])]
                (mkstats 2 1 1 0))).
Proof. reflexivity. Qed.

End Witnesses.

(** * Further statements at concrete inputs *)

Section ValidatorWitnesses.
Import Validator Security Sample MoreSample.

Lemma validate_verdict_invariants_witness :
  warnings two_records_results = []
  /\ Forall (entry_of two_records) (record_issues two_records_results)
  /\ (records_with_issues (stats two_records_results) <= 0 + 1)%nat.
Proof.
  destruct (@validate_verdict_invariants Demo.runtime no_rules two_records
              two_records_results eq_refl)
    as (Hw & _ & Hentries & _ & _ & _ & _ & Hcount).
  split; [exact Hw |]. split; [exact Hentries | exact Hcount].
Defined.

Lemma validate_returns_on_text_records_witness :
  exists v, @validate Demo.runtime visit_rules visits = Ok v.
Proof.
  apply (@validate_returns_on_text_records Demo.runtime visit_rules visits).
  - split; intros field rule [H | []]; injection H as <- <-.
    + split; eexists; reflexivity.
    + intros v [H | H]; [| discriminate]. injection H as <-. split; discriminate.
  - repeat constructor; intros k v H; simpl in H;
      repeat (destruct (String.eqb k _); [injection H as <-; eexists; reflexivity |]);
      discriminate.
Defined.

Lemma required_check_one_error_per_record_witness :
  exists res',
    _check_required_fields visit_rules visits fresh_results = Ok res'
    /\ error_sum (record_issues res') = 1%nat.
Proof.
  eexists. split; [reflexivity |].
  destruct (required_check_one_error_per_record visit_rules visits
              fresh_results _ eq_refl) as [H _].
  exact H.
Defined.

Lemma validate_raises_only_witness :
  raises_only validator_exn
    (@validate Demo.runtime (mkrules [] [("visit", VStr "date")] [] [])
       [ [("record_id", VStr "A"); ("visit", VInt 20230315)] ]).
Proof.
  apply (@validate_raises_only Demo.runtime). vm_compute. reflexivity.
Defined.

Lemma valid_verdict_distinct_ids_witness : distinct_ids visits.
Proof.
  apply (proj1 (@valid_verdict_distinct_ids Demo.runtime no_rules visits
                  visits_results eq_refl)).
  reflexivity.
Defined.

Lemma date_range_absent_bound_witness :
  @check_date_range Demo.runtime [("dob", VStr "1800-01-01")] (VStr "P001")
    ("dob", [("max", VStr "2000-01-01")]) fresh_results
  = Raise (KeyError "min").
Proof.
  destruct (@date_range_absent_bound Demo.runtime [("dob", VStr "1800-01-01")]
              (VStr "P001") "dob" [("max", VStr "2000-01-01")] fresh_results
              "1800-01-01" (mkdate 1800 1 1)) as (H & _).
  apply (H eq_refl ltac:(discriminate) eq_refl eq_refl (mkdate 2000 1 1) eq_refl eq_refl).
Defined.

End ValidatorWitnesses.

Section SecurityWitnesses.
Import Security PhiReport Sample SecuritySample.

Lemma secure_phi_data_keeps_other_fields_witness :
  Py.get "visit"
    (deref (heap (snd (@_secure_phi_data Demo.runtime ssn_handler [0%nat] one_patient)))
           1)
  = Some (VStr "03/15/2023").
Proof.
  pose proof (@secure_phi_data_keeps_other_fields Demo.runtime ssn_handler [0%nat]
                one_patient ssn_handler [1%nat]
                (snd (@_secure_phi_data Demo.runtime ssn_handler [0%nat] one_patient)))
    as H.
  assert (Hall : Forall2
            (fun record out =>
               (forall k, untouched (phi_fields ssn_handler) k ->
                          Py.get k
                            (deref (heap (snd (@_secure_phi_data Demo.runtime ssn_handler
                                                 [0%nat] one_patient))) out)
                          = Py.get k (deref (heap one_patient) record))
               /\ (exists extra,
                     Py.keys
                       (deref (heap (snd (@_secure_phi_data Demo.runtime ssn_handler
                                            [0%nat] one_patient))) out)
                     = (Py.keys (deref (heap one_patient) record) ++ extra)%list
                     /\ (cipher ssn_handler = None -> extra = [])
                     /\ (forall k, In k extra ->
                                   exists g, In g (phi_fields ssn_handler)
                                             /\ k = g ++ "_encrypted")))
            [0%nat] [1%nat]).
  { apply H.
    - constructor; [simpl; lia | constructor].
    - reflexivity. }
  inversion Hall as [| ? ? ? ? [Hhead _] _]; subst.
  apply (Hhead "visit").
  intros g [<- | []]. split; discriminate.
Defined.

Lemma redaction_merges_values_witness : _redact_phi "P001" = _redact_phi "P002".
Proof.
  assert (Hemail : forall v,
             Str.mem "@" v && Str.mem "." (nth 1 (Str.split "@" v) "") = false ->
             ~ email_shaped v).
  { intros v E H. apply email_test_iff in H. congruence. }
  assert (Hphone : forall v, matches_phone v = false -> ~ phone_shaped v).
  { intros v E H. apply matches_phone_iff in H. congruence. }
  apply (proj1 (redaction_merges_values "P001" "P002"
                  (Hemail "P001" eq_refl) (Hphone "P001" eq_refl)
                  (Hemail "P002" eq_refl) (Hphone "P002" eq_refl) eq_refl)).
  simpl. lia.
Defined.

(** The report on three contacts, of which two hold a name and one a
    telephone number. *)
Example phi_report_contacts :
  @generate_phi_report demo_arith contact_handler contacts
  = Ok (Counted ["name"; "phone"] [("name", 2%nat); ("phone", 1%nat)] 2 3
          (FFin (200 # 3))).
Proof. reflexivity. Qed.

End SecurityWitnesses.

Section MapperWitnesses.
Import Validator Mapper Sample.

Lemma format_checkbox_flags_witness :
  Py.get "2" (checkbox_flags [VStr "Yes"; VStr "Maybe"]
                [("1", VStr "No"); ("2", VStr "Maybe")])
  = Some "1".
Proof.
  destruct (@format_checkbox_flags Demo.runtime (VStr "Yes, Maybe")
              [("1", VStr "No"); ("2", VStr "Maybe")]) as (_ & H & _).
  { repeat constructor; simpl; intuition discriminate. }
  destruct (H eq_refl) as (flags & Hflags & _ & _ & Hpiece & _).
  injection Hflags as <-.
  apply (Hpiece "2" " Maybe" "Yes, Maybe"); [reflexivity | | ].
  - right. left. reflexivity.
  - right. left. reflexivity.
Defined.

Lemma mapped_records_validate_witness :
  exists redcap_data w' v,
    @map_data Demo.runtime visit_mapping [0%nat] one_patient = (Ok redcap_data, w')
    /\ @validate Demo.runtime (mkrules ["visit_date"] [] [] [])
         (map (deref (heap w')) redcap_data) = Ok v.
Proof.
  apply (@mapped_records_validate Demo.runtime visit_mapping [0%nat] one_patient
           (mkrules ["visit_date"] [] [] [])); try reflexivity.
  intros fm [<- | []]. discriminate.
Defined.


(** The patient record, mapped: the identifier column is [ssn], the visit
    is read as a date. *)
Example map_data_patient :
  exists w',
    @map_data Demo.runtime visit_mapping [0%nat] one_patient = (Ok [1%nat], w')
    /\ deref (heap w') 1
       = [("record_id", VStr "123-45-6789"); ("visit_date", VStr "2023-03-15")].
Proof. eexists. split; reflexivity. Qed.

(** The record with two visits, mapped: the date rule raises on the list,
    and [map_data] logs the error and raises it again. *)
Example map_data_two_visits :
  fst (@map_data Demo.runtime visit_mapping [0%nat] (mkworld [MoreSample.two_visits] [] 0))
  = Raise (ValueErrorOf MoreSample.ambiguous).
Proof. reflexivity. Qed.

Lemma missing_cell_checks_witness :
  @check_date_range Demo.runtime [("visit", VFloat (FNaN 0))] (VStr "A") ("visit", [])
    Sample.fresh_results
  = Raise TypeError.
Proof.
  destruct (@missing_cell_checks Demo.runtime [("visit", VFloat (FNaN 0))] (VStr "A")
              "visit" Sample.fresh_results 0%nat eq_refl) as (_ & _ & _ & _ & H & _).
  apply H.
Defined.

End MapperWitnesses.

Section DateWitnesses.
Import Validator Mapper.

Lemma formatted_date_round_trip_witness :
  @_is_valid_date Demo.runtime (VStr "2023-03-15") = Ok true.
Proof.
  destruct (@formatted_date_round_trip Demo.runtime (mkdate 2023 3 15)
              Sample.one_patient) as (_ & H & _).
  - repeat split; apply Z.leb_le; reflexivity.
  - exact H.
Defined.

End DateWitnesses.
